(** * script_viajes: trips feed -> GeoJSON features

    A shallow embedding of [script_viajes.py] and the properties of its
    place normaliser, geocoding cache, date/time parsing, vigency check
    and row loop.

    Conventions of the model.
    - A Python [str] is the list of its code points. The classes and the
      case mappings of the characters are those of the interpreter: on
      ASCII they are written out, above ASCII they are the tables of the
      class [UCD]. The facts about these tables that some proofs use are
      the class [UCDLaws]; [unicode_14] is the database of CPython 3.11,
      and it has them.
    - A Python exception is a value [Raise e] of [outcome]; the mutable
      objects of a run (the cache dict, the requests sent, the log) live in
      a record threaded through a state-and-exception monad. A mutation made
      before an exception is raised stays in the state, as in Python.
    - The two web services and the wall clock are oracles of the section
      [Pipeline]. *)

From Stdlib Require Import Ascii String List NArith Arith Bool Lia PrimFloat.
From stdpp Require Import base option list fin gmap strings.

Local Open Scope nat_scope.

(** ** Texts *)

(** A code point, and a Python [str]. *)
Abbreviation char := N.
Abbreviation str := (list N).

(** The code points of a UTF-8 text. *)
Fixpoint utf8 (l : list N) : str :=
  match l with
  | [] => []
  | a :: r =>
      if (a <? 0x80)%N then a :: utf8 r
      else
        match r with
        | [] => []
        | b :: r1 =>
            if (a <? 0xE0)%N then ((a - 0xC0) * 64 + (b - 0x80))%N :: utf8 r1
            else
              match r1 with
              | [] => []
              | c :: r2 =>
                  if (a <? 0xF0)%N
                  then ((a - 0xE0) * 4096 + (b - 0x80) * 64 + (c - 0x80))%N :: utf8 r2
                  else
                    match r2 with
                    | [] => []
                    | d :: r3 =>
                        ((a - 0xF0) * 262144 + (b - 0x80) * 4096
                         + (c - 0x80) * 64 + (d - 0x80))%N :: utf8 r3
                    end
              end
        end
  end.

(** The code point of an ASCII character. *)
Definition chr (a : ascii) : char := N_of_ascii a.

(** A literal of the script: the [str] written ["..."]. *)
Definition text (s : string) : str :=
  utf8 (map N_of_ascii (list_ascii_of_string s)).

(** ** The character database *)

(** The tables of the interpreter for the code points above ASCII. *)
Class UCD := {
  uc_isspace : char -> bool;             (* [_PyUnicode_IsWhitespace] *)
  uc_decimal : char -> option (fin 10);  (* [_PyUnicode_ToDecimalDigit] *)
  uc_tolower : char -> str;              (* [_PyUnicode_ToLowerFull] *)
  uc_cased : char -> bool;               (* [_PyUnicode_IsCased] *)
  uc_case_ignorable : char -> bool       (* [_PyUnicode_IsCaseIgnorable] *)
}.

(** GREEK CAPITAL LETTER SIGMA, GREEK SMALL LETTER SIGMA and GREEK SMALL
    LETTER FINAL SIGMA. *)
Definition SIGMA : char := 0x3A3%N.
Definition SMALL_SIGMA : char := 0x3C3%N.
Definition FINAL_SIGMA : char := 0x3C2%N.

(** ** Python [str] methods *)

Module Py.

Section Str.

Context `{U : UCD}.

(** [c.isspace()] *)
Definition isspace (c : char) : bool :=
  if (c <? 128)%N
  then ((9 <=? c) && (c <=? 13) || (28 <=? c) && (c <=? 32))%N
  else uc_isspace c.

(** The value of a decimal digit: what [int] reads and the class [\d]
    matches. *)
Definition decimal (c : char) : option nat :=
  if (c <? 128)%N
  then if ((48 <=? c) && (c <=? 57))%N then Some (N.to_nat (c - 48)) else None
  else fin_to_nat <$> uc_decimal c.

(** The lower-case mapping of one character, out of context. *)
Definition tolower (c : char) : str :=
  if (c <? 128)%N
  then [if ((65 <=? c) && (c <=? 90))%N then (c + 32)%N else c]
  else uc_tolower c.

Definition cased (c : char) : bool :=
  if (c <? 128)%N
  then ((65 <=? c) && (c <=? 90) || (97 <=? c) && (c <=? 122))%N
  else uc_cased c.

(** On ASCII: the apostrophe, the full stop, the colon, the circumflex
    and the grave accent. *)
Definition case_ignorable (c : char) : bool :=
  if (c <? 128)%N
  then ((c =? chr "'") || (c =? chr ".") || (c =? chr ":") || (c =? chr "^")
        || (c =? chr "`"))%N
  else uc_case_ignorable c.

(** The first character of [s] that is not case-ignorable. *)
Fixpoint skip_ignorable (s : str) : option char :=
  match s with
  | [] => None
  | c :: r => if case_ignorable c then skip_ignorable r else Some c
  end.

(** The lower case of a capital sigma that stands after [before] (read
    backwards) and before [after]: the final form when a cased letter
    comes before it and none after it, case-ignorable characters apart. *)
Definition handle_capital_sigma (before after : str) : char :=
  let final_sigma :=
    match skip_ignorable before with
    | Some c => cased c
    | None => false
    end
    && match skip_ignorable after with
       | Some c => negb (cased c)
       | None => true
       end in
  if final_sigma then FINAL_SIGMA else SMALL_SIGMA.

(** The loop of [s.lower()]; [before] is the text already read, backwards. *)
Fixpoint do_lower (before : str) (s : str) : str :=
  match s with
  | [] => []
  | c :: r =>
      (if (c =? SIGMA)%N then [handle_capital_sigma before r] else tolower c)
      ++ do_lower (c :: before) r
  end.

(** [s.lower()] *)
Definition lower (s : str) : str := do_lower [] s.

(** [s.lstrip()] *)
Fixpoint lstrip (s : str) : str :=
  match s with
  | [] => []
  | c :: s' => if isspace c then lstrip s' else s
  end.

(** [s.rstrip()] *)
Fixpoint rstrip (s : str) : str :=
  match s with
  | [] => []
  | c :: s' =>
      match rstrip s' with
      | [] => if isspace c then [] else [c]
      | r => c :: r
      end
  end.

(** [s.strip()] *)
Definition strip (s : str) : str := rstrip (lstrip s).

(** The word being read, closed: nothing when it is empty. *)
Definition flush (cur : str) : list str :=
  match cur with
  | [] => []
  | _ => [cur]
  end.

(** [s.split()] (no separator: runs of blanks separate, no empty word);
    [cur] is the word being read. *)
Fixpoint split_go (cur : str) (s : str) : list str :=
  match s with
  | [] => flush cur
  | c :: s' =>
      if isspace c then flush cur ++ split_go [] s'
      else split_go (cur ++ [c]) s'
  end.

Definition split (s : str) : list str := split_go [] s.

End Str.

(** [s == t] *)
Fixpoint eqb (s t : str) : bool :=
  match s, t with
  | [], [] => true
  | a :: s', b :: t' => (a =? b)%N && eqb s' t'
  | _, _ => false
  end.

(** [s.split(sep)] for a one-character separator: empty fields are kept,
    the result is never empty. *)
Fixpoint split_on_go (sep : char) (cur : str) (s : str) : list str :=
  match s with
  | [] => [cur]
  | c :: s' =>
      if (c =? sep)%N then cur :: split_on_go sep [] s'
      else split_on_go sep (cur ++ [c]) s'
  end.

Definition split_on (sep : char) (s : str) : list str :=
  split_on_go sep [] s.

(** [sep.join(l)] *)
Fixpoint join (sep : str) (l : list str) : str :=
  match l with
  | [] => []
  | [x] => x
  | x :: l' => x ++ sep ++ join sep l'
  end.

(** [s.zfill(width)]: zeros on the left, after a leading sign. *)
Definition zfill (width : nat) (s : str) : str :=
  let n := length s in
  if width <=? n then s
  else
    match s with
    | c :: s' =>
        if ((c =? chr "+") || (c =? chr "-"))%N
        then c :: repeat (chr "0") (width - n) ++ s'
        else repeat (chr "0") (width - n) ++ s
    | [] => repeat (chr "0") (width - n)
    end.

(** [c in s] for a character [c]. *)
Fixpoint contains (c : char) (s : str) : bool :=
  match s with
  | [] => false
  | a :: s' => (a =? c)%N || contains c s'
  end.

(** Truth value of a [str]: [if s] / [if not s]. *)
Definition truthy (s : str) : bool :=
  match s with
  | [] => false
  | _ => true
  end.

End Py.

(** The facts about the database that the proofs on casing use: a blank
    has no case and is its own lower case; a lower-case mapping leaves no
    blank where there was none, and yields characters that are their own
    lower case; it has one character of the kind of the character it
    lowers, cased or not and case-ignorable or not as it is, and any other
    of its characters is case-ignorable; the three sigmas are letters. *)
Class UCDLaws (U : UCD) : Prop := {
  space_lower c : Py.isspace c = true -> Py.tolower c = [c];
  space_plain c :
    Py.isspace c = true -> Py.cased c = false /\ Py.case_ignorable c = false;
  lower_nonspace c d :
    Py.isspace c = false -> In d (Py.tolower c) -> Py.isspace d = false;
  lower_fixed c d : In d (Py.tolower c) -> Py.tolower d = [d] /\ d <> SIGMA;
  lower_kind c :
    exists p d q,
      Py.tolower c = p ++ d :: q
      /\ Py.cased d = Py.cased c /\ Py.case_ignorable d = Py.case_ignorable c
      /\ (forall a, In a (p ++ q) -> Py.case_ignorable a = true);
  sigma_letters :
    Py.isspace SIGMA = false /\ Py.isspace SMALL_SIGMA = false
    /\ Py.isspace FINAL_SIGMA = false
    /\ Py.tolower SMALL_SIGMA = [SMALL_SIGMA]
    /\ Py.tolower FINAL_SIGMA = [FINAL_SIGMA]
}.

(** ** [normalize_place] *)

Definition normalize_place `{U : UCD} (s : str) : str :=
  Py.join (text " ") (Py.split (Py.lower (Py.strip s))).

(** ** [datetime.strptime] for the directives the script uses

    [_strptime] turns the format into a regular expression, matches it at
    the start of the text with the usual backtracking (alternatives in
    the order written), and then refuses a match that does not end where
    the text ends. Each directive below takes the continuation [k] that
    matches the rest of the format. A class of digits gives the value of
    the character it matches, as [int] reads it. *)

Module Strptime.

(** The class [[lo-hi]] of the ASCII digits from [lo] to [hi]. *)
Definition between (lo hi : nat) (c : char) : option nat :=
  let v := N.to_nat c - 48 in
  if (48 <=? c)%N && (c <=? 57)%N && (lo <=? v) && (v <=? hi) then Some v else None.

(** The class [\d]: any decimal digit. *)
Definition digit `{U : UCD} (c : char) : option nat := Py.decimal c.

Definition orelse {A} (x y : option A) : option A :=
  match x with
  | Some v => Some v
  | None => y
  end.

Infix "<|>" := orelse (at level 61, left associativity).

(** One digit of a class. *)
Definition d1 {A} (p : char -> option nat) (k : nat -> str -> option A)
    (s : str) : option A :=
  match s with
  | a :: r =>
      match p a with
      | Some va => k va r
      | None => None
      end
  | _ => None
  end.

(** Two digits, each of a class. *)
Definition d2 {A} (p q : char -> option nat) (k : nat -> str -> option A)
    (s : str) : option A :=
  match s with
  | a :: b :: r =>
      match p a, q b with
      | Some va, Some vb => k (10 * va + vb) r
      | _, _ => None
      end
  | _ => None
  end.

(** A literal character of the format. *)
Definition lit {A} (c : char) (k : str -> option A) (s : str) : option A :=
  match s with
  | a :: r => if (a =? c)%N then k r else None
  | _ => None
  end.

Section Directives.

Context `{U : UCD}.

(** [%H]: [2[0-3]|[0-1]\d|\d] *)
Definition re_H {A} (k : nat -> str -> option A) (s : str) : option A :=
  d2 (between 2 2) (between 0 3) k s <|> d2 (between 0 1) digit k s
  <|> d1 digit k s.

(** [%M]: [[0-5]\d|\d] *)
Definition re_M {A} (k : nat -> str -> option A) (s : str) : option A :=
  d2 (between 0 5) digit k s <|> d1 digit k s.

(** [%S]: [6[0-1]|[0-5]\d|\d] *)
Definition re_S {A} (k : nat -> str -> option A) (s : str) : option A :=
  d2 (between 6 6) (between 0 1) k s <|> d2 (between 0 5) digit k s
  <|> d1 digit k s.

(** [%d]: [3[0-1]|[1-2]\d|0[1-9]|[1-9]| [1-9]] *)
Definition re_d {A} (k : nat -> str -> option A) (s : str) : option A :=
  d2 (between 3 3) (between 0 1) k s <|> d2 (between 1 2) digit k s
  <|> d2 (between 0 0) (between 1 9) k s <|> d1 (between 1 9) k s
  <|> lit (chr " ") (d1 (between 1 9) k) s.

(** [%m]: [1[0-2]|0[1-9]|[1-9]] *)
Definition re_m {A} (k : nat -> str -> option A) (s : str) : option A :=
  d2 (between 1 1) (between 0 2) k s <|> d2 (between 0 0) (between 1 9) k s
  <|> d1 (between 1 9) k s.

(** [%Y]: [\d\d\d\d] *)
Definition re_Y {A} (k : nat -> str -> option A) (s : str) : option A :=
  d2 digit digit (fun hi => d2 digit digit (fun lo => k (100 * hi + lo))) s.

End Directives.

(** The check made after the match: no text may remain. *)
Definition whole {A} (m : option (A * str)) : option A :=
  match m with
  | Some (v, []) => Some v
  | _ => None
  end.

Definition is_leap (y : nat) : bool :=
  (y mod 4 =? 0) && (negb (y mod 100 =? 0) || (y mod 400 =? 0)).

Definition days_in_month (y m : nat) : nat :=
  match m with
  | 2 => if is_leap y then 29 else 28
  | 4 | 6 | 9 | 11 => 30
  | _ => 31
  end.

End Strptime.

(** ** Dates and times *)

Record date := mkDate { year : nat; month : nat; day : nat }.

(** A naive [datetime.time]. *)
Record time := mkTime { hour : nat; minute : nat; second : nat; microsecond : nat }.

Record datetime := mkDateTime { dt_date : date; dt_time : time }.

Definition MAXYEAR : nat := 9 * 1000 + 999.

(** The constructor [date(y, m, d)] raises [ValueError] outside these bounds. *)
Definition valid_date (d : date) : bool :=
  (1 <=? year d) && (year d <=? MAXYEAR) && (1 <=? month d) && (month d <=? 12)
  && (1 <=? day d) && (day d <=? Strptime.days_in_month (year d) (month d)).

(** [a < b] on dates. *)
Definition date_ltb (a b : date) : bool :=
  (year a <? year b)
  || ((year a =? year b)
      && ((month a <? month b) || ((month a =? month b) && (day a <? day b)))).

(** [a < b] on times. *)
Definition time_ltb (a b : time) : bool :=
  (hour a <? hour b)
  || ((hour a =? hour b)
      && ((minute a <? minute b)
          || ((minute a =? minute b)
              && ((second a <? second b)
                  || ((second a =? second b)
                      && (microsecond a <? microsecond b)))))).

Definition digit_char (n : nat) : char := N.of_nat (48 + n).

(** [format(n, "02d")] for [n] below 100. *)
Definition pad2 (n : nat) : str :=
  [digit_char (n / 10); digit_char (n mod 10)].

(** [format(n, "04d")] for a year below 10000. *)
Definition pad4 (n : nat) : str :=
  [digit_char (n / 1000); digit_char (n / 100 mod 10);
   digit_char (n / 10 mod 10); digit_char (n mod 10)].

Section Parsing.

Context `{U : UCD}.

(** [datetime.strptime(s, "%d/%m/%Y").date()]; [None] is [ValueError]. *)
Definition strptime_dmY (s : str) : option date :=
  let m :=
    Strptime.re_d (fun d => Strptime.lit (chr "/") (Strptime.re_m (fun mo =>
      Strptime.lit (chr "/") (Strptime.re_Y (fun y rest => Some (mkDate y mo d, rest)))))) s in
  match Strptime.whole m with
  | Some d => if valid_date d then Some d else None
  | None => None
  end.

(** [datetime.strptime(s, "%Y-%m-%d").date()] *)
Definition strptime_Ymd (s : str) : option date :=
  let m :=
    Strptime.re_Y (fun y => Strptime.lit (chr "-") (Strptime.re_m (fun mo =>
      Strptime.lit (chr "-") (Strptime.re_d (fun d rest => Some (mkDate y mo d, rest)))))) s in
  match Strptime.whole m with
  | Some d => if valid_date d then Some d else None
  | None => None
  end.

(** [datetime.strptime(s, "%H:%M")], as hour and minute. *)
Definition strptime_HM (s : str) : option (nat * nat) :=
  Strptime.whole
    (Strptime.re_H (fun h => Strptime.lit (chr ":") (Strptime.re_M (fun mi rest =>
       Some ((h, mi), rest)))) s).

(** [datetime.strptime(s, "%H:%M:%S")]: the expression admits the seconds
    60 and 61, which the [datetime] constructor then refuses. *)
Definition strptime_HMS (s : str) : option (nat * nat * nat) :=
  match
    Strptime.whole
      (Strptime.re_H (fun h => Strptime.lit (chr ":") (Strptime.re_M (fun mi =>
         Strptime.lit (chr ":") (Strptime.re_S (fun se rest =>
           Some ((h, mi, se), rest)))))) s)
  with
  | Some (h, mi, se) => if se <=? 59 then Some (h, mi, se) else None
  | None => None
  end.

End Parsing.

(** [d.isoformat()] *)
Definition isoformat (d : date) : str :=
  pad4 (year d) ++ text "-" ++ pad2 (month d) ++ text "-" ++ pad2 (day d).

(** [t.strftime("%H:%M")] *)
Definition strftime_HM (h mi : nat) : str := pad2 h ++ text ":" ++ pad2 mi.

(** ** Exceptions *)

Inductive exn :=
| ValueError
| KeyError
| IndexError
| RequestException.

Inductive outcome (A : Type) :=
| Ok (a : A)
| Raise (e : exn).

Arguments Ok {A} a.
Arguments Raise {A} e.

(** ** Rows of the feed *)

(** A cell of the data frame: [NaN] for an empty cell, [Val s] for any
    other value [v], where [s] is [str(v)]. *)
Inductive pyval :=
| NaN
| Val (s : str).

(** A row maps column names to cells; [row.get(col)] is [row !! col]. *)
Abbreviation Row := (gmap string pyval).

(** [str(row.get(col))] *)
Definition py_str (v : option pyval) : str :=
  match v with
  | None => text "None"
  | Some NaN => text "nan"
  | Some (Val s) => s
  end.

Definition FECHA_COL : string := "Fecha viaje".
Definition SALIDA_COL : string := "Salida".
Definition LLEGADA_COL : string := "Llegada".
Definition ORIGEN_COL : string := "Origen".
Definition DESTINO_COL : string := "Destino".
Definition PARADA1_COL : string := "Parada1".
Definition PARADA2_COL : string := "Parada2".

Section Reading.

Context `{U : UCD}.

Definition get_text (row : Row) (col_name : string) : str :=
  match row !! col_name with
  | None => []
  | Some NaN => []
  | Some (Val v) =>
      let s := Py.strip v in
      if negb (Py.truthy s) then []
      else if Py.eqb (Py.lower s) (text "nan") then []
      else s
  end.

(** ** Parsing of the date and of the times *)

Definition parse_fecha (fecha_str : option pyval) : outcome str :=
  match strptime_dmY (Py.strip (py_str fecha_str)) with
  | Some d => Ok (isoformat d)
  | None => Raise ValueError
  end.

Definition parse_hora (h : option pyval) : str :=
  let s := Py.strip (py_str h) in
  match strptime_HM s with
  | Some (hh, mi) => strftime_HM hh mi
  | None =>
      match strptime_HMS s with
      | Some (hh, mi, _) => strftime_HM hh mi
      | None =>
          match Py.split_on (chr ":") s with
          | p0 :: p1 :: _ => Py.zfill 2 p0 ++ text ":" ++ Py.zfill 2 p1
          | _ => s
          end
      end
  end.

(** [viaje_vigente]; [ahora] is the value of [datetime.now(TZ)]. *)
Definition viaje_vigente (ahora : datetime) (fecha_iso hora_salida_hhmm : str)
    : outcome bool :=
  let hoy := dt_date ahora in
  match strptime_Ymd fecha_iso with
  | None => Raise ValueError
  | Some fecha =>
      if date_ltb hoy fecha then Ok true
      else if date_ltb fecha hoy then Ok false
      else if Py.truthy hora_salida_hhmm then
        match strptime_HM hora_salida_hhmm with
        | Some (h, mi) => Ok (negb (time_ltb (mkTime h mi 0 0) (dt_time ahora)))
        | None => Ok true
        end
      else Ok true
  end.

End Reading.

(** ** Geographic data *)

(** A value of the cache, and the result of [geocode]. *)
Record GeoPoint := mkGeoPoint {
  lat : float;
  lon : float;
  display_name : option str
}.

(** A candidate of the geocoder's reply: [item["lat"]] and [item["lon"]] as
    [float] reads them, and [item.get("display_name")]. *)
Record Candidate := mkCandidate {
  item_lat : float;
  item_lon : float;
  item_display_name : option str
}.

(** A GeoJSON geometry: its ["type"] and its [[lon, lat]] pairs. *)
Record Geometry := mkGeometry {
  gtype : str;
  coordinates : list (float * float)
}.

(** What [route["geometry"]] gives for a route of the routing reply: a
    geometry, [Ok None] when the value under the key is [null] (or any
    other value that is false), [Raise e] when the lookup raises (the
    route has no such key). *)
Abbreviation Route := (outcome (option Geometry)).

Record Properties := mkProperties {
  name : str;
  viaje_id : str;
  fecha : str;
  hora_salida : str;
  hora_llegada : str;
  origen : str;
  destino : str;
  paradas : str;
  num_paradas : nat
}.

Record Feature := mkFeature {
  geometry : Geometry;
  properties : Properties
}.

(** ** The state of a run *)

Inductive event :=
| SinDestino (id : option pyval)
| SinOrigen (id : option pyval) (destino : str)
| SinViajeId (id : option pyval)
| Caducado (viaje_id fecha salida : str)
| NoGeocodifica (viaje_id stop : str) (stops : list str)
| OsrmFallo (viaje_id : str) (err : exn)
| Generado (n_features n_descartados : nat).

Record world := mkWorld {
  cache : gmap str (option GeoPoint);  (* the dict [cache]; [Some None]: a key bound to [None] *)
  geo_calls : list str;                (* the queries sent to the geocoder, oldest first *)
  bitacora : list event;               (* the lines appended by [log], oldest first *)
  features : list Feature;             (* the list [features] of [main] *)
  descartados : nat                    (* the counter [descartados] of [main] *)
}.

(** ** The monad of a run: state and exceptions *)

Definition M (A : Type) : Type := world -> outcome A * world.

Definition ret {A} (a : A) : M A := fun w => (Ok a, w).

Definition raise {A} (e : exn) : M A := fun w => (Raise e, w).

Definition bind {A B} (m : M A) (k : A -> M B) : M B :=
  fun w =>
    match m w with
    | (Ok a, w') => k a w'
    | (Raise e, w') => (Raise e, w')
    end.

Definition lift {A} (o : outcome A) : M A := fun w => (o, w).

(** [try: m  except Exception as e: h e] *)
Definition try_except {A} (m : M A) (h : exn -> M A) : M A :=
  fun w =>
    match m w with
    | (Ok a, w') => (Ok a, w')
    | (Raise e, w') => h e w'
    end.

Notation "'let*' x ':=' m 'in' k" := (bind m (fun x => k))
  (at level 10, x name, m at level 100, k at level 200).
Notation "m ';;' k" := (bind m (fun _ => k))
  (at level 100, k at level 200, right associativity).

Definition log (ev : event) : M unit :=
  fun w => (Ok tt, mkWorld (cache w) (geo_calls w) (bitacora w ++ [ev])
                           (features w) (descartados w)).

(** [cache[key] = v] *)
Definition cache_set (key : str) (v : option GeoPoint) : M unit :=
  fun w => (Ok tt, mkWorld (<[key := v]> (cache w)) (geo_calls w) (bitacora w)
                           (features w) (descartados w)).

Definition get_cache : M (gmap str (option GeoPoint)) :=
  fun w => (Ok (cache w), w).

(** [descartados += 1] *)
Definition incr_descartados : M unit :=
  fun w => (Ok tt, mkWorld (cache w) (geo_calls w) (bitacora w)
                           (features w) (S (descartados w))).

(** [features.append(f)] *)
Definition features_append (f : Feature) : M unit :=
  fun w => (Ok tt, mkWorld (cache w) (geo_calls w) (bitacora w)
                           (features w ++ [f]) (descartados w)).

(** The request to the geocoder has been sent. *)
Definition record_call (place : str) (w : world) : world :=
  mkWorld (cache w) (geo_calls w ++ [place]) (bitacora w) (features w) (descartados w).

(** ** The pipeline

    The oracles of a run:
    - [nominatim q] is what [requests.get], [raise_for_status] and
      [r.json()] give for the query [q]: a list of candidates, each with
      its latitude and longitude as [float] reads them, or an exception;
    - [osrm i pts] is the same for the routing request made for row [i]
      with the points [pts]: the list under ["routes"], each route as its
      ["geometry"] reads, or an exception;
    - [reloj i] is [datetime.now(TZ)] when row [i] is checked. *)

Section Pipeline.

Context `{U : UCD}.

Variable nominatim : str -> outcome (list Candidate).
Variable osrm : nat -> list (float * float) -> outcome (list Route).
Variable reloj : nat -> datetime.

(** The request of [geocode], with the pause that follows it. *)
Definition requests_get_nominatim (place : str) : M (list Candidate) :=
  fun w => (nominatim place, record_call place w).

Definition geocode (place : str) : M (option GeoPoint) :=
  let key := normalize_place place in
  if negb (Py.truthy key) then ret None
  else
    let* c := get_cache in
    match c !! key with
    | Some v => ret v
    | None =>
        let* data := requests_get_nominatim place in
        match data with
        | [] => cache_set key None ;; ret None
        | item :: _ =>
            let result := mkGeoPoint (item_lat item) (item_lon item) (item_display_name item) in
            cache_set key (Some result) ;; ret (Some result)
        end
    end.

(** [[p["lon"], p["lat"]] for p in stops_geo] *)
Definition lonlat (stops_geo : list GeoPoint) : list (float * float) :=
  map (fun p => (lon p, lat p)) stops_geo.

Definition obtener_ruta_osrm_multi (i : nat) (stops_geo : list GeoPoint)
    : outcome (option Geometry) :=
  match osrm i (lonlat stops_geo) with
  | Raise e => Raise e
  | Ok [] => Ok None
  | Ok (route :: _) => route
  end.

Definition linestring (stops_geo : list GeoPoint) : Geometry :=
  mkGeometry (text "LineString") (lonlat stops_geo).

(** [l[0]] *)
Definition first_item (l : list str) : outcome str :=
  match l with
  | x :: _ => Ok x
  | [] => Raise IndexError
  end.

(** [l[-1]] *)
Definition last_item (l : list str) : outcome str :=
  match l with
  | [] => Raise IndexError
  | x :: l' => Ok (List.last l' x)
  end.

(** [l[1:-1]] *)
Definition inner_items (l : list str) : list str := removelast (tl l).

(** The first statements of [build_feature_route] (the [try] and the
    choice of [geometry]): the path of a trip. *)
Definition route_geometry (i : nat) (viaje_id : str)
    (stops_geo : list GeoPoint) : M Geometry :=
  let* ruta :=
    try_except (lift (obtener_ruta_osrm_multi i stops_geo))
               (fun e => log (OsrmFallo viaje_id e) ;; ret None) in
  ret (match ruta with
       | Some g => g
       | None => linestring stops_geo
       end).

Definition build_feature_route (i : nat)
    (viaje_id fecha hora_salida hora_llegada : str)
    (stops_txt : list str) (stops_geo : list GeoPoint) : M Feature :=
  let* geometry := route_geometry i viaje_id stops_geo in
  let* origen_txt := lift (first_item stops_txt) in
  let* destino_txt := lift (last_item stops_txt) in
  let paradas_txt := inner_items stops_txt in
  ret (mkFeature geometry
         (mkProperties
            (origen_txt ++ text " → " ++ destino_txt ++ text " (" ++ hora_salida
               ++ text "-" ++ hora_llegada ++ text ")")
            viaje_id fecha hora_salida hora_llegada origen_txt destino_txt
            (match paradas_txt with
             | [] => []
             | _ => Py.join (text " | ") paradas_txt
             end)
            (length paradas_txt))).

(** The filter of step 5:
    [s and s.strip() and s.strip().lower() != "nan"]. *)
Definition keep_stop (s : str) : bool :=
  Py.truthy s && Py.truthy (Py.strip s)
  && negb (Py.eqb (Py.lower (Py.strip s)) (text "nan")).

(** Step 5 of the loop body: the stops of a row. *)
Definition build_stops (origen p1 p2 destino : str) : list str :=
  List.filter keep_stop
    ([origen] ++ (if Py.truthy p1 then [p1] else [])
              ++ (if Py.truthy p2 then [p2] else []) ++ [destino]).

(** The loop over [stops_txt]: [None] when a stop has no coordinates (the
    [break]), else the points in stop order. *)
Fixpoint geocode_stops (viaje_id : str) (stops_txt : list str)
    (pending : list str) (stops_geo : list GeoPoint)
    : M (option (list GeoPoint)) :=
  match pending with
  | [] => ret (Some stops_geo)
  | s :: pending' =>
      let* g := geocode s in
      match g with
      | None => log (NoGeocodifica viaje_id s stops_txt) ;; ret None
      | Some p => geocode_stops viaje_id stops_txt pending' (stops_geo ++ [p])
      end
  end.

(** The body of the loop of [main] for the row of index [i]. *)
Definition main_body (i : nat) (row : Row) : M unit :=
  let destino := get_text row DESTINO_COL in
  let origen := get_text row ORIGEN_COL in
  let p1 := get_text row PARADA1_COL in
  let p2 := get_text row PARADA2_COL in
  if negb (Py.truthy destino) then
    incr_descartados ;; log (SinDestino (row !! "Id"))
  else if negb (Py.truthy origen) then
    incr_descartados ;; log (SinOrigen (row !! "Id") destino)
  else
    let* fecha_iso := lift (parse_fecha (row !! FECHA_COL)) in
    let hora_salida := parse_hora (row !! SALIDA_COL) in
    let hora_llegada := parse_hora (row !! LLEGADA_COL) in
    let viaje_id := get_text row "viaje_id" in
    if negb (Py.truthy viaje_id) then
      incr_descartados ;; log (SinViajeId (row !! "Id"))
    else
      let* vigente := lift (viaje_vigente (reloj i) fecha_iso hora_salida) in
      if negb vigente then
        incr_descartados ;; log (Caducado viaje_id fecha_iso hora_salida)
      else
        let stops_txt := build_stops origen p1 p2 destino in
        let viaje_id := get_text row "viaje_id" in
        if negb (Py.truthy viaje_id) then
          incr_descartados ;; log (SinViajeId (row !! "Id"))
        else
          let* stops_geo := geocode_stops viaje_id stops_txt stops_txt [] in
          match stops_geo with
          | None => incr_descartados
          | Some stops_geo =>
              let* f := build_feature_route i viaje_id fecha_iso hora_salida
                          hora_llegada stops_txt stops_geo in
              features_append f
          end.

(** [for _, row in df.iterrows(): ...] from the row of index [i] on. *)
Fixpoint main_loop (i : nat) (rows : list Row) : M unit :=
  match rows with
  | [] => ret tt
  | row :: rows' => main_body i row ;; main_loop (S i) rows'
  end.

(** [main] from the loaded cache to the summary line of the log: the
    feature collection and the count of discarded rows. *)
Definition main (cache0 : gmap str (option GeoPoint)) (rows : list Row)
    : outcome (list Feature * nat) * world :=
  match main_loop 0 rows (mkWorld cache0 [] [] [] 0) with
  | (Ok _, w) =>
      match log (Generado (length (features w)) (descartados w)) w with
      | (_, w') => (Ok (features w, descartados w), w')
      end
  | (Raise e, w) => (Raise e, w)
  end.

End Pipeline.

(** ** Texts that differ only in casing or spacing *)

(** One elementary difference between two texts: a letter other than the
    capital sigma in one and its lower case in the other, one blank more
    at either end, one blank more in a run of blanks, or another kind of
    blank at some place. *)
Inductive edit `{U : UCD} : str -> str -> Prop :=
| edit_case x c y :
    c <> SIGMA -> edit (x ++ c :: y) (x ++ Py.tolower c ++ y)
| edit_leading w x :
    Py.isspace w = true -> edit x (w :: x)
| edit_trailing w x :
    Py.isspace w = true -> edit x (x ++ [w])
| edit_run x w w' y :
    Py.isspace w = true -> Py.isspace w' = true ->
    edit (x ++ w :: y) (x ++ w :: w' :: y)
| edit_blank x w w' y :
    Py.isspace w = true -> Py.isspace w' = true ->
    edit (x ++ w :: y) (x ++ w' :: y).

(** Two texts differ only in casing and spacing when a chain of such
    differences, read in either direction, leads from one to the other. *)
Inductive same_place `{U : UCD} : str -> str -> Prop :=
| same_refl s : same_place s s
| same_edit s t : edit s t -> same_place s t
| same_sym s t : same_place s t -> same_place t s
| same_trans s t v : same_place s t -> same_place t v -> same_place s v.

(** What the rule of the final sigma sees of a text: whether its first
    character that is not case-ignorable is cased. *)
Definition seen `{U : UCD} (s : str) : option bool :=
  option_map Py.cased (Py.skip_ignorable s).

(** A text in lower case: each character is its own lower case, and none
    is the capital sigma. *)
Definition stable `{U : UCD} (s : str) : Prop :=
  forall c, In c s -> Py.tolower c = [c] /\ c <> SIGMA.

(** ** Sequences of lookups *)

(** The state after the lookups of [places], one after the other, whatever
    they return. *)
Fixpoint geocode_all `{U : UCD} (nominatim : str -> outcome (list Candidate))
    (places : list str) (w : world) : world :=
  match places with
  | [] => w
  | p :: places' => geocode_all nominatim places' (snd (geocode nominatim p w))
  end.

(** ** The database of CPython 3.11 (Unicode 14.0.0)

    The code points above ASCII of each class, as closed intervals; the
    zeros of the decimal digits (each is followed by its nine other
    digits); the lower-case mappings as [(first, last, step, image of
    first)], LATIN CAPITAL LETTER I WITH DOT ABOVE apart, whose lower case
    has two characters. *)

Definition whitespace_ranges : list (N * N) :=
  [
   (0x85,0x85); (0xA0,0xA0); (0x1680,0x1680); (0x2000,0x200A); (0x2028,0x2029);
   (0x202F,0x202F); (0x205F,0x205F); (0x3000,0x3000)
  ]%N.

Definition decimal_zeros : list N :=
  [
   0x660; 0x6F0; 0x7C0; 0x966; 0x9E6; 0xA66; 0xAE6; 0xB66; 0xBE6; 0xC66; 0xCE6; 0xD66;
   0xDE6; 0xE50; 0xED0; 0xF20; 0x1040; 0x1090; 0x17E0; 0x1810; 0x1946; 0x19D0; 0x1A80;
   0x1A90; 0x1B50; 0x1BB0; 0x1C40; 0x1C50; 0xA620; 0xA8D0; 0xA900; 0xA9D0; 0xA9F0;
   0xAA50; 0xABF0; 0xFF10; 0x104A0; 0x10D30; 0x11066; 0x110F0; 0x11136; 0x111D0;
   0x112F0; 0x11450; 0x114D0; 0x11650; 0x116C0; 0x11730; 0x118E0; 0x11950; 0x11C50;
   0x11D50; 0x11DA0; 0x16A60; 0x16AC0; 0x16B50; 0x1D7CE; 0x1D7D8; 0x1D7E2; 0x1D7EC;
   0x1D7F6; 0x1E140; 0x1E2F0; 0x1E950; 0x1FBF0
  ]%N.

Definition lowercase_ranges : list (N * N * N * N) :=
  [
   (0xC0,0xD6,1,0xE0); (0xD8,0xDE,1,0xF8); (0x100,0x12E,2,0x101);
   (0x132,0x136,2,0x133); (0x139,0x147,2,0x13A); (0x14A,0x176,2,0x14B);
   (0x178,0x178,1,0xFF); (0x179,0x17D,2,0x17A); (0x181,0x181,1,0x253);
   (0x182,0x184,2,0x183); (0x186,0x186,1,0x254); (0x187,0x187,1,0x188);
   (0x189,0x18A,1,0x256); (0x18B,0x18B,1,0x18C); (0x18E,0x18E,1,0x1DD);
   (0x18F,0x18F,1,0x259); (0x190,0x190,1,0x25B); (0x191,0x191,1,0x192);
   (0x193,0x193,1,0x260); (0x194,0x194,1,0x263); (0x196,0x196,1,0x269);
   (0x197,0x197,1,0x268); (0x198,0x198,1,0x199); (0x19C,0x19C,1,0x26F);
   (0x19D,0x19D,1,0x272); (0x19F,0x19F,1,0x275); (0x1A0,0x1A4,2,0x1A1);
   (0x1A6,0x1A6,1,0x280); (0x1A7,0x1A7,1,0x1A8); (0x1A9,0x1A9,1,0x283);
   (0x1AC,0x1AC,1,0x1AD); (0x1AE,0x1AE,1,0x288); (0x1AF,0x1AF,1,0x1B0);
   (0x1B1,0x1B2,1,0x28A); (0x1B3,0x1B5,2,0x1B4); (0x1B7,0x1B7,1,0x292);
   (0x1B8,0x1B8,1,0x1B9); (0x1BC,0x1BC,1,0x1BD); (0x1C4,0x1C4,1,0x1C6);
   (0x1C5,0x1C5,1,0x1C6); (0x1C7,0x1C7,1,0x1C9); (0x1C8,0x1C8,1,0x1C9);
   (0x1CA,0x1CA,1,0x1CC); (0x1CB,0x1DB,2,0x1CC); (0x1DE,0x1EE,2,0x1DF);
   (0x1F1,0x1F1,1,0x1F3); (0x1F2,0x1F4,2,0x1F3); (0x1F6,0x1F6,1,0x195);
   (0x1F7,0x1F7,1,0x1BF); (0x1F8,0x21E,2,0x1F9); (0x220,0x220,1,0x19E);
   (0x222,0x232,2,0x223); (0x23A,0x23A,1,0x2C65); (0x23B,0x23B,1,0x23C);
   (0x23D,0x23D,1,0x19A); (0x23E,0x23E,1,0x2C66); (0x241,0x241,1,0x242);
   (0x243,0x243,1,0x180); (0x244,0x244,1,0x289); (0x245,0x245,1,0x28C);
   (0x246,0x24E,2,0x247); (0x370,0x372,2,0x371); (0x376,0x376,1,0x377);
   (0x37F,0x37F,1,0x3F3); (0x386,0x386,1,0x3AC); (0x388,0x38A,1,0x3AD);
   (0x38C,0x38C,1,0x3CC); (0x38E,0x38F,1,0x3CD); (0x391,0x3A1,1,0x3B1);
   (0x3A3,0x3AB,1,0x3C3); (0x3CF,0x3CF,1,0x3D7); (0x3D8,0x3EE,2,0x3D9);
   (0x3F4,0x3F4,1,0x3B8); (0x3F7,0x3F7,1,0x3F8); (0x3F9,0x3F9,1,0x3F2);
   (0x3FA,0x3FA,1,0x3FB); (0x3FD,0x3FF,1,0x37B); (0x400,0x40F,1,0x450);
   (0x410,0x42F,1,0x430); (0x460,0x480,2,0x461); (0x48A,0x4BE,2,0x48B);
   (0x4C0,0x4C0,1,0x4CF); (0x4C1,0x4CD,2,0x4C2); (0x4D0,0x52E,2,0x4D1);
   (0x531,0x556,1,0x561); (0x10A0,0x10C5,1,0x2D00); (0x10C7,0x10C7,1,0x2D27);
   (0x10CD,0x10CD,1,0x2D2D); (0x13A0,0x13EF,1,0xAB70); (0x13F0,0x13F5,1,0x13F8);
   (0x1C90,0x1CBA,1,0x10D0); (0x1CBD,0x1CBF,1,0x10FD); (0x1E00,0x1E94,2,0x1E01);
   (0x1E9E,0x1E9E,1,0xDF); (0x1EA0,0x1EFE,2,0x1EA1); (0x1F08,0x1F0F,1,0x1F00);
   (0x1F18,0x1F1D,1,0x1F10); (0x1F28,0x1F2F,1,0x1F20); (0x1F38,0x1F3F,1,0x1F30);
   (0x1F48,0x1F4D,1,0x1F40); (0x1F59,0x1F5F,2,0x1F51); (0x1F68,0x1F6F,1,0x1F60);
   (0x1F88,0x1F8F,1,0x1F80); (0x1F98,0x1F9F,1,0x1F90); (0x1FA8,0x1FAF,1,0x1FA0);
   (0x1FB8,0x1FB9,1,0x1FB0); (0x1FBA,0x1FBB,1,0x1F70); (0x1FBC,0x1FBC,1,0x1FB3);
   (0x1FC8,0x1FCB,1,0x1F72); (0x1FCC,0x1FCC,1,0x1FC3); (0x1FD8,0x1FD9,1,0x1FD0);
   (0x1FDA,0x1FDB,1,0x1F76); (0x1FE8,0x1FE9,1,0x1FE0); (0x1FEA,0x1FEB,1,0x1F7A);
   (0x1FEC,0x1FEC,1,0x1FE5); (0x1FF8,0x1FF9,1,0x1F78); (0x1FFA,0x1FFB,1,0x1F7C);
   (0x1FFC,0x1FFC,1,0x1FF3); (0x2126,0x2126,1,0x3C9); (0x212A,0x212A,1,0x6B);
   (0x212B,0x212B,1,0xE5); (0x2132,0x2132,1,0x214E); (0x2160,0x216F,1,0x2170);
   (0x2183,0x2183,1,0x2184); (0x24B6,0x24CF,1,0x24D0); (0x2C00,0x2C2F,1,0x2C30);
   (0x2C60,0x2C60,1,0x2C61); (0x2C62,0x2C62,1,0x26B); (0x2C63,0x2C63,1,0x1D7D);
   (0x2C64,0x2C64,1,0x27D); (0x2C67,0x2C6B,2,0x2C68); (0x2C6D,0x2C6D,1,0x251);
   (0x2C6E,0x2C6E,1,0x271); (0x2C6F,0x2C6F,1,0x250); (0x2C70,0x2C70,1,0x252);
   (0x2C72,0x2C72,1,0x2C73); (0x2C75,0x2C75,1,0x2C76); (0x2C7E,0x2C7F,1,0x23F);
   (0x2C80,0x2CE2,2,0x2C81); (0x2CEB,0x2CED,2,0x2CEC); (0x2CF2,0x2CF2,1,0x2CF3);
   (0xA640,0xA66C,2,0xA641); (0xA680,0xA69A,2,0xA681); (0xA722,0xA72E,2,0xA723);
   (0xA732,0xA76E,2,0xA733); (0xA779,0xA77B,2,0xA77A); (0xA77D,0xA77D,1,0x1D79);
   (0xA77E,0xA786,2,0xA77F); (0xA78B,0xA78B,1,0xA78C); (0xA78D,0xA78D,1,0x265);
   (0xA790,0xA792,2,0xA791); (0xA796,0xA7A8,2,0xA797); (0xA7AA,0xA7AA,1,0x266);
   (0xA7AB,0xA7AB,1,0x25C); (0xA7AC,0xA7AC,1,0x261); (0xA7AD,0xA7AD,1,0x26C);
   (0xA7AE,0xA7AE,1,0x26A); (0xA7B0,0xA7B0,1,0x29E); (0xA7B1,0xA7B1,1,0x287);
   (0xA7B2,0xA7B2,1,0x29D); (0xA7B3,0xA7B3,1,0xAB53); (0xA7B4,0xA7C2,2,0xA7B5);
   (0xA7C4,0xA7C4,1,0xA794); (0xA7C5,0xA7C5,1,0x282); (0xA7C6,0xA7C6,1,0x1D8E);
   (0xA7C7,0xA7C9,2,0xA7C8); (0xA7D0,0xA7D0,1,0xA7D1); (0xA7D6,0xA7D8,2,0xA7D7);
   (0xA7F5,0xA7F5,1,0xA7F6); (0xFF21,0xFF3A,1,0xFF41); (0x10400,0x10427,1,0x10428);
   (0x104B0,0x104D3,1,0x104D8); (0x10570,0x1057A,1,0x10597);
   (0x1057C,0x1058A,1,0x105A3); (0x1058C,0x10592,1,0x105B3);
   (0x10594,0x10595,1,0x105BB); (0x10C80,0x10CB2,1,0x10CC0);
   (0x118A0,0x118BF,1,0x118C0); (0x16E40,0x16E5F,1,0x16E60);
   (0x1E900,0x1E921,1,0x1E922)
  ]%N.

Definition cased_ranges : list (N * N) :=
  [
   (0xAA,0xAA); (0xB5,0xB5); (0xBA,0xBA); (0xC0,0xD6); (0xD8,0xF6); (0xF8,0x1BA);
   (0x1BC,0x1BF); (0x1C4,0x293); (0x295,0x2B8); (0x2C0,0x2C1); (0x2E0,0x2E4);
   (0x345,0x345); (0x370,0x373); (0x376,0x377); (0x37A,0x37D); (0x37F,0x37F);
   (0x386,0x386); (0x388,0x38A); (0x38C,0x38C); (0x38E,0x3A1); (0x3A3,0x3F5);
   (0x3F7,0x481); (0x48A,0x52F); (0x531,0x556); (0x560,0x588); (0x10A0,0x10C5);
   (0x10C7,0x10C7); (0x10CD,0x10CD); (0x10D0,0x10FA); (0x10FD,0x10FF);
   (0x13A0,0x13F5); (0x13F8,0x13FD); (0x1C80,0x1C88); (0x1C90,0x1CBA);
   (0x1CBD,0x1CBF); (0x1D00,0x1DBF); (0x1E00,0x1F15); (0x1F18,0x1F1D);
   (0x1F20,0x1F45); (0x1F48,0x1F4D); (0x1F50,0x1F57); (0x1F59,0x1F59);
   (0x1F5B,0x1F5B); (0x1F5D,0x1F5D); (0x1F5F,0x1F7D); (0x1F80,0x1FB4);
   (0x1FB6,0x1FBC); (0x1FBE,0x1FBE); (0x1FC2,0x1FC4); (0x1FC6,0x1FCC);
   (0x1FD0,0x1FD3); (0x1FD6,0x1FDB); (0x1FE0,0x1FEC); (0x1FF2,0x1FF4);
   (0x1FF6,0x1FFC); (0x2071,0x2071); (0x207F,0x207F); (0x2090,0x209C);
   (0x2102,0x2102); (0x2107,0x2107); (0x210A,0x2113); (0x2115,0x2115);
   (0x2119,0x211D); (0x2124,0x2124); (0x2126,0x2126); (0x2128,0x2128);
   (0x212A,0x212D); (0x212F,0x2134); (0x2139,0x2139); (0x213C,0x213F);
   (0x2145,0x2149); (0x214E,0x214E); (0x2160,0x217F); (0x2183,0x2184);
   (0x24B6,0x24E9); (0x2C00,0x2CE4); (0x2CEB,0x2CEE); (0x2CF2,0x2CF3);
   (0x2D00,0x2D25); (0x2D27,0x2D27); (0x2D2D,0x2D2D); (0xA640,0xA66D);
   (0xA680,0xA69D); (0xA722,0xA787); (0xA78B,0xA78E); (0xA790,0xA7CA);
   (0xA7D0,0xA7D1); (0xA7D3,0xA7D3); (0xA7D5,0xA7D9); (0xA7F5,0xA7F6);
   (0xA7F8,0xA7FA); (0xAB30,0xAB5A); (0xAB5C,0xAB68); (0xAB70,0xABBF);
   (0xFB00,0xFB06); (0xFB13,0xFB17); (0xFF21,0xFF3A); (0xFF41,0xFF5A);
   (0x10400,0x1044F); (0x104B0,0x104D3); (0x104D8,0x104FB); (0x10570,0x1057A);
   (0x1057C,0x1058A); (0x1058C,0x10592); (0x10594,0x10595); (0x10597,0x105A1);
   (0x105A3,0x105B1); (0x105B3,0x105B9); (0x105BB,0x105BC); (0x10780,0x10780);
   (0x10783,0x10785); (0x10787,0x107B0); (0x107B2,0x107BA); (0x10C80,0x10CB2);
   (0x10CC0,0x10CF2); (0x118A0,0x118DF); (0x16E40,0x16E7F); (0x1D400,0x1D454);
   (0x1D456,0x1D49C); (0x1D49E,0x1D49F); (0x1D4A2,0x1D4A2); (0x1D4A5,0x1D4A6);
   (0x1D4A9,0x1D4AC); (0x1D4AE,0x1D4B9); (0x1D4BB,0x1D4BB); (0x1D4BD,0x1D4C3);
   (0x1D4C5,0x1D505); (0x1D507,0x1D50A); (0x1D50D,0x1D514); (0x1D516,0x1D51C);
   (0x1D51E,0x1D539); (0x1D53B,0x1D53E); (0x1D540,0x1D544); (0x1D546,0x1D546);
   (0x1D54A,0x1D550); (0x1D552,0x1D6A5); (0x1D6A8,0x1D6C0); (0x1D6C2,0x1D6DA);
   (0x1D6DC,0x1D6FA); (0x1D6FC,0x1D714); (0x1D716,0x1D734); (0x1D736,0x1D74E);
   (0x1D750,0x1D76E); (0x1D770,0x1D788); (0x1D78A,0x1D7A8); (0x1D7AA,0x1D7C2);
   (0x1D7C4,0x1D7CB); (0x1DF00,0x1DF09); (0x1DF0B,0x1DF1E); (0x1E900,0x1E943);
   (0x1F130,0x1F149); (0x1F150,0x1F169); (0x1F170,0x1F189)
  ]%N.

Definition case_ignorable_ranges : list (N * N) :=
  [
   (0xA8,0xA8); (0xAD,0xAD); (0xAF,0xAF); (0xB4,0xB4); (0xB7,0xB8); (0x2B0,0x36F);
   (0x374,0x375); (0x37A,0x37A); (0x384,0x385); (0x387,0x387); (0x483,0x489);
   (0x559,0x559); (0x55F,0x55F); (0x591,0x5BD); (0x5BF,0x5BF); (0x5C1,0x5C2);
   (0x5C4,0x5C5); (0x5C7,0x5C7); (0x5F4,0x5F4); (0x600,0x605); (0x610,0x61A);
   (0x61C,0x61C); (0x640,0x640); (0x64B,0x65F); (0x670,0x670); (0x6D6,0x6DD);
   (0x6DF,0x6E8); (0x6EA,0x6ED); (0x70F,0x70F); (0x711,0x711); (0x730,0x74A);
   (0x7A6,0x7B0); (0x7EB,0x7F5); (0x7FA,0x7FA); (0x7FD,0x7FD); (0x816,0x82D);
   (0x859,0x85B); (0x888,0x888); (0x890,0x891); (0x898,0x89F); (0x8C9,0x902);
   (0x93A,0x93A); (0x93C,0x93C); (0x941,0x948); (0x94D,0x94D); (0x951,0x957);
   (0x962,0x963); (0x971,0x971); (0x981,0x981); (0x9BC,0x9BC); (0x9C1,0x9C4);
   (0x9CD,0x9CD); (0x9E2,0x9E3); (0x9FE,0x9FE); (0xA01,0xA02); (0xA3C,0xA3C);
   (0xA41,0xA42); (0xA47,0xA48); (0xA4B,0xA4D); (0xA51,0xA51); (0xA70,0xA71);
   (0xA75,0xA75); (0xA81,0xA82); (0xABC,0xABC); (0xAC1,0xAC5); (0xAC7,0xAC8);
   (0xACD,0xACD); (0xAE2,0xAE3); (0xAFA,0xAFF); (0xB01,0xB01); (0xB3C,0xB3C);
   (0xB3F,0xB3F); (0xB41,0xB44); (0xB4D,0xB4D); (0xB55,0xB56); (0xB62,0xB63);
   (0xB82,0xB82); (0xBC0,0xBC0); (0xBCD,0xBCD); (0xC00,0xC00); (0xC04,0xC04);
   (0xC3C,0xC3C); (0xC3E,0xC40); (0xC46,0xC48); (0xC4A,0xC4D); (0xC55,0xC56);
   (0xC62,0xC63); (0xC81,0xC81); (0xCBC,0xCBC); (0xCBF,0xCBF); (0xCC6,0xCC6);
   (0xCCC,0xCCD); (0xCE2,0xCE3); (0xD00,0xD01); (0xD3B,0xD3C); (0xD41,0xD44);
   (0xD4D,0xD4D); (0xD62,0xD63); (0xD81,0xD81); (0xDCA,0xDCA); (0xDD2,0xDD4);
   (0xDD6,0xDD6); (0xE31,0xE31); (0xE34,0xE3A); (0xE46,0xE4E); (0xEB1,0xEB1);
   (0xEB4,0xEBC); (0xEC6,0xEC6); (0xEC8,0xECD); (0xF18,0xF19); (0xF35,0xF35);
   (0xF37,0xF37); (0xF39,0xF39); (0xF71,0xF7E); (0xF80,0xF84); (0xF86,0xF87);
   (0xF8D,0xF97); (0xF99,0xFBC); (0xFC6,0xFC6); (0x102D,0x1030); (0x1032,0x1037);
   (0x1039,0x103A); (0x103D,0x103E); (0x1058,0x1059); (0x105E,0x1060);
   (0x1071,0x1074); (0x1082,0x1082); (0x1085,0x1086); (0x108D,0x108D);
   (0x109D,0x109D); (0x10FC,0x10FC); (0x135D,0x135F); (0x1712,0x1714);
   (0x1732,0x1733); (0x1752,0x1753); (0x1772,0x1773); (0x17B4,0x17B5);
   (0x17B7,0x17BD); (0x17C6,0x17C6); (0x17C9,0x17D3); (0x17D7,0x17D7);
   (0x17DD,0x17DD); (0x180B,0x180F); (0x1843,0x1843); (0x1885,0x1886);
   (0x18A9,0x18A9); (0x1920,0x1922); (0x1927,0x1928); (0x1932,0x1932);
   (0x1939,0x193B); (0x1A17,0x1A18); (0x1A1B,0x1A1B); (0x1A56,0x1A56);
   (0x1A58,0x1A5E); (0x1A60,0x1A60); (0x1A62,0x1A62); (0x1A65,0x1A6C);
   (0x1A73,0x1A7C); (0x1A7F,0x1A7F); (0x1AA7,0x1AA7); (0x1AB0,0x1ACE);
   (0x1B00,0x1B03); (0x1B34,0x1B34); (0x1B36,0x1B3A); (0x1B3C,0x1B3C);
   (0x1B42,0x1B42); (0x1B6B,0x1B73); (0x1B80,0x1B81); (0x1BA2,0x1BA5);
   (0x1BA8,0x1BA9); (0x1BAB,0x1BAD); (0x1BE6,0x1BE6); (0x1BE8,0x1BE9);
   (0x1BED,0x1BED); (0x1BEF,0x1BF1); (0x1C2C,0x1C33); (0x1C36,0x1C37);
   (0x1C78,0x1C7D); (0x1CD0,0x1CD2); (0x1CD4,0x1CE0); (0x1CE2,0x1CE8);
   (0x1CED,0x1CED); (0x1CF4,0x1CF4); (0x1CF8,0x1CF9); (0x1D2C,0x1D6A);
   (0x1D78,0x1D78); (0x1D9B,0x1DFF); (0x1FBD,0x1FBD); (0x1FBF,0x1FC1);
   (0x1FCD,0x1FCF); (0x1FDD,0x1FDF); (0x1FED,0x1FEF); (0x1FFD,0x1FFE);
   (0x200B,0x200F); (0x2018,0x2019); (0x2024,0x2024); (0x2027,0x2027);
   (0x202A,0x202E); (0x2060,0x2064); (0x2066,0x206F); (0x2071,0x2071);
   (0x207F,0x207F); (0x2090,0x209C); (0x20D0,0x20F0); (0x2C7C,0x2C7D);
   (0x2CEF,0x2CF1); (0x2D6F,0x2D6F); (0x2D7F,0x2D7F); (0x2DE0,0x2DFF);
   (0x2E2F,0x2E2F); (0x3005,0x3005); (0x302A,0x302D); (0x3031,0x3035);
   (0x303B,0x303B); (0x3099,0x309E); (0x30FC,0x30FE); (0xA015,0xA015);
   (0xA4F8,0xA4FD); (0xA60C,0xA60C); (0xA66F,0xA672); (0xA674,0xA67D);
   (0xA67F,0xA67F); (0xA69C,0xA69F); (0xA6F0,0xA6F1); (0xA700,0xA721);
   (0xA770,0xA770); (0xA788,0xA78A); (0xA7F2,0xA7F4); (0xA7F8,0xA7F9);
   (0xA802,0xA802); (0xA806,0xA806); (0xA80B,0xA80B); (0xA825,0xA826);
   (0xA82C,0xA82C); (0xA8C4,0xA8C5); (0xA8E0,0xA8F1); (0xA8FF,0xA8FF);
   (0xA926,0xA92D); (0xA947,0xA951); (0xA980,0xA982); (0xA9B3,0xA9B3);
   (0xA9B6,0xA9B9); (0xA9BC,0xA9BD); (0xA9CF,0xA9CF); (0xA9E5,0xA9E6);
   (0xAA29,0xAA2E); (0xAA31,0xAA32); (0xAA35,0xAA36); (0xAA43,0xAA43);
   (0xAA4C,0xAA4C); (0xAA70,0xAA70); (0xAA7C,0xAA7C); (0xAAB0,0xAAB0);
   (0xAAB2,0xAAB4); (0xAAB7,0xAAB8); (0xAABE,0xAABF); (0xAAC1,0xAAC1);
   (0xAADD,0xAADD); (0xAAEC,0xAAED); (0xAAF3,0xAAF4); (0xAAF6,0xAAF6);
   (0xAB5B,0xAB5F); (0xAB69,0xAB6B); (0xABE5,0xABE5); (0xABE8,0xABE8);
   (0xABED,0xABED); (0xFB1E,0xFB1E); (0xFBB2,0xFBC2); (0xFE00,0xFE0F);
   (0xFE13,0xFE13); (0xFE20,0xFE2F); (0xFE52,0xFE52); (0xFE55,0xFE55);
   (0xFEFF,0xFEFF); (0xFF07,0xFF07); (0xFF0E,0xFF0E); (0xFF1A,0xFF1A);
   (0xFF3E,0xFF3E); (0xFF40,0xFF40); (0xFF70,0xFF70); (0xFF9E,0xFF9F);
   (0xFFE3,0xFFE3); (0xFFF9,0xFFFB); (0x101FD,0x101FD); (0x102E0,0x102E0);
   (0x10376,0x1037A); (0x10780,0x10785); (0x10787,0x107B0); (0x107B2,0x107BA);
   (0x10A01,0x10A03); (0x10A05,0x10A06); (0x10A0C,0x10A0F); (0x10A38,0x10A3A);
   (0x10A3F,0x10A3F); (0x10AE5,0x10AE6); (0x10D24,0x10D27); (0x10EAB,0x10EAC);
   (0x10F46,0x10F50); (0x10F82,0x10F85); (0x11001,0x11001); (0x11038,0x11046);
   (0x11070,0x11070); (0x11073,0x11074); (0x1107F,0x11081); (0x110B3,0x110B6);
   (0x110B9,0x110BA); (0x110BD,0x110BD); (0x110C2,0x110C2); (0x110CD,0x110CD);
   (0x11100,0x11102); (0x11127,0x1112B); (0x1112D,0x11134); (0x11173,0x11173);
   (0x11180,0x11181); (0x111B6,0x111BE); (0x111C9,0x111CC); (0x111CF,0x111CF);
   (0x1122F,0x11231); (0x11234,0x11234); (0x11236,0x11237); (0x1123E,0x1123E);
   (0x112DF,0x112DF); (0x112E3,0x112EA); (0x11300,0x11301); (0x1133B,0x1133C);
   (0x11340,0x11340); (0x11366,0x1136C); (0x11370,0x11374); (0x11438,0x1143F);
   (0x11442,0x11444); (0x11446,0x11446); (0x1145E,0x1145E); (0x114B3,0x114B8);
   (0x114BA,0x114BA); (0x114BF,0x114C0); (0x114C2,0x114C3); (0x115B2,0x115B5);
   (0x115BC,0x115BD); (0x115BF,0x115C0); (0x115DC,0x115DD); (0x11633,0x1163A);
   (0x1163D,0x1163D); (0x1163F,0x11640); (0x116AB,0x116AB); (0x116AD,0x116AD);
   (0x116B0,0x116B5); (0x116B7,0x116B7); (0x1171D,0x1171F); (0x11722,0x11725);
   (0x11727,0x1172B); (0x1182F,0x11837); (0x11839,0x1183A); (0x1193B,0x1193C);
   (0x1193E,0x1193E); (0x11943,0x11943); (0x119D4,0x119D7); (0x119DA,0x119DB);
   (0x119E0,0x119E0); (0x11A01,0x11A0A); (0x11A33,0x11A38); (0x11A3B,0x11A3E);
   (0x11A47,0x11A47); (0x11A51,0x11A56); (0x11A59,0x11A5B); (0x11A8A,0x11A96);
   (0x11A98,0x11A99); (0x11C30,0x11C36); (0x11C38,0x11C3D); (0x11C3F,0x11C3F);
   (0x11C92,0x11CA7); (0x11CAA,0x11CB0); (0x11CB2,0x11CB3); (0x11CB5,0x11CB6);
   (0x11D31,0x11D36); (0x11D3A,0x11D3A); (0x11D3C,0x11D3D); (0x11D3F,0x11D45);
   (0x11D47,0x11D47); (0x11D90,0x11D91); (0x11D95,0x11D95); (0x11D97,0x11D97);
   (0x11EF3,0x11EF4); (0x13430,0x13438); (0x16AF0,0x16AF4); (0x16B30,0x16B36);
   (0x16B40,0x16B43); (0x16F4F,0x16F4F); (0x16F8F,0x16F9F); (0x16FE0,0x16FE1);
   (0x16FE3,0x16FE4); (0x1AFF0,0x1AFF3); (0x1AFF5,0x1AFFB); (0x1AFFD,0x1AFFE);
   (0x1BC9D,0x1BC9E); (0x1BCA0,0x1BCA3); (0x1CF00,0x1CF2D); (0x1CF30,0x1CF46);
   (0x1D167,0x1D169); (0x1D173,0x1D182); (0x1D185,0x1D18B); (0x1D1AA,0x1D1AD);
   (0x1D242,0x1D244); (0x1DA00,0x1DA36); (0x1DA3B,0x1DA6C); (0x1DA75,0x1DA75);
   (0x1DA84,0x1DA84); (0x1DA9B,0x1DA9F); (0x1DAA1,0x1DAAF); (0x1E000,0x1E006);
   (0x1E008,0x1E018); (0x1E01B,0x1E021); (0x1E023,0x1E024); (0x1E026,0x1E02A);
   (0x1E130,0x1E13D); (0x1E2AE,0x1E2AE); (0x1E2EC,0x1E2EF); (0x1E8D0,0x1E8D6);
   (0x1E944,0x1E94B); (0x1F3FB,0x1F3FF); (0xE0001,0xE0001); (0xE0020,0xE007F);
   (0xE0100,0xE01EF)
  ]%N.

Definition in_ranges (t : list (N * N)) (c : char) : bool :=
  existsb (fun r => (fst r <=? c)%N && (c <=? snd r)%N) t.

(** The digit of a value below ten. *)
Definition digit_fin (n : N) : option (fin 10) :=
  match n with
  | 0%N => Some 0%fin
  | 1%N => Some 1%fin
  | 2%N => Some 2%fin
  | 3%N => Some 3%fin
  | 4%N => Some 4%fin
  | 5%N => Some 5%fin
  | 6%N => Some 6%fin
  | 7%N => Some 7%fin
  | 8%N => Some 8%fin
  | 9%N => Some 9%fin
  | _ => None
  end.

Definition decimal_of (t : list N) (c : char) : option (fin 10) :=
  match List.find (fun z => (z <=? c)%N && (c <? z + 10)%N) t with
  | Some z => digit_fin (c - z)
  | None => None
  end.

(** [c] is in the domain of the mapping [r]. *)
Definition maps (r : N * N * N * N) (c : char) : bool :=
  let '(lo, hi, step, _) := r in
  ((lo <=? c) && (c <=? hi) && ((c - lo) mod step =? 0))%N.

Definition image (r : N * N * N * N) (c : char) : char :=
  let '(lo, _, _, im) := r in (im + (c - lo))%N.

Definition lower_of (t : list (N * N * N * N)) (c : char) : str :=
  if (c =? 0x130)%N then [0x69; 0x307]%N
  else
    match List.find (fun r => maps r c) t with
    | Some r => [image r c]
    | None => [c]
    end.

#[global] Instance unicode_14 : UCD := {|
  uc_isspace := in_ranges whitespace_ranges;
  uc_decimal := decimal_of decimal_zeros;
  uc_tolower := lower_of lowercase_ranges;
  uc_cased := in_ranges cased_ranges;
  uc_case_ignorable := in_ranges case_ignorable_ranges
|}.

(** The code points of an interval, the pairs of a mapping, and the pairs
    and the blanks of the whole database, ASCII included. *)
Definition interval (r : N * N) : list N :=
  map (fun k => (fst r + N.of_nat k)%N) (seq 0 (S (N.to_nat (snd r - fst r)))).

Definition pairs_of (r : N * N * N * N) : list (N * N) :=
  let '(lo, hi, step, im) := r in
  map (fun k => (lo + N.of_nat k * step, im + N.of_nat k * step)%N)
      (seq 0 (S (N.to_nat ((hi - lo) / step)))).

Definition ascii_points : list N := map N.of_nat (seq 0 128).

Definition lower_pairs : list (N * N) :=
  map (fun k => (65 + N.of_nat k, 97 + N.of_nat k)%N) (seq 0 26)
  ++ flat_map pairs_of lowercase_ranges.

Definition blanks : list N := ascii_points ++ flat_map interval whitespace_ranges.

(** What holds of a blank, and of a character and its lower case. *)
Definition blank_plain (c : char) : bool :=
  implb (Py.isspace c)
    (Py.eqb (Py.tolower c) [c] && negb (Py.cased c) && negb (Py.case_ignorable c)).

Definition lower_plain (d : char) : bool :=
  negb (Py.isspace d) && Py.eqb (Py.tolower d) [d] && negb (d =? SIGMA)%N.

Definition pair_plain (p : N * N) : bool :=
  lower_plain (snd p)
  && Bool.eqb (Py.cased (fst p)) (Py.cased (snd p))
  && Bool.eqb (Py.case_ignorable (fst p)) (Py.case_ignorable (snd p)).

(** ** Sample data *)

Definition madrid : GeoPoint :=
  mkGeoPoint 40.5 (-3.75) (Some (text "Madrid, España")).
Definition barcelona : GeoPoint :=
  mkGeoPoint 41.375 2.125 (Some (text "Barcelona, España")).

(** A geocoder that knows two cities and nothing else. *)
Definition nominatim_ok (q : str) : outcome (list Candidate) :=
  if Py.eqb q (text "Madrid")
  then Ok [mkCandidate 40.5 (-3.75) (Some (text "Madrid, España"))]
  else if Py.eqb q (text "Barcelona") then
    Ok [mkCandidate 41.375 2.125 (Some (text "Barcelona, España"))]
  else Ok [].

(** A geocoder that knows Madrid and fails on any other query. *)
Definition nominatim_flaky (q : str) : outcome (list Candidate) :=
  if Py.eqb q (text "Madrid")
  then Ok [mkCandidate 40.5 (-3.75) (Some (text "Madrid, España"))]
  else Raise RequestException.

(** A geocoder that is down. *)
Definition nominatim_down (q : str) : outcome (list Candidate) :=
  Raise RequestException.

Definition osrm_down (i : nat) (pts : list (float * float))
    : outcome (list Route) :=
  Raise RequestException.

Definition osrm_no_route (i : nat) (pts : list (float * float))
    : outcome (list Route) :=
  Ok [].

(** A reply whose first route has a [null] geometry. *)
Definition osrm_null_geometry (i : nat) (pts : list (float * float))
    : outcome (list Route) :=
  Ok [Ok None].

(** 10 February 2026, 10:30:15. *)
Definition ahora_ex : datetime := mkDateTime (mkDate 2026 2 10) (mkTime 10 30 15 0).

Definition reloj_ex (i : nat) : datetime := ahora_ex.

Definition fila (id fecha salida llegada origen destino viaje_id : string) : Row :=
  <["Id" := Val (text id)]> (<[FECHA_COL := Val (text fecha)]>
  (<[SALIDA_COL := Val (text salida)]> (<[LLEGADA_COL := Val (text llegada)]>
  (<[ORIGEN_COL := Val (text origen)]> (<[DESTINO_COL := Val (text destino)]>
  (<["viaje_id" := Val (text viaje_id)]> ∅)))))).

Definition fila_T1 : Row := fila "1" "18/02/2026" "9:5" "11:00" "Madrid" "Barcelona" "T1".
Definition fila_T2 : Row := fila "2" "19/02/2026" "12:00" "15:00" "Barcelona" "Madrid" "T2".
Definition fila_sin_destino : Row := fila "3" "18/02/2026" "9:5" "11:00" "Madrid" "" "T3".
Definition fila_mala_fecha : Row := fila "4" "2026-02-18" "9:5" "11:00" "Madrid" "Barcelona" "T4".

(** A row with no destination and a date that does not read. *)
Definition fila_mala_fecha_destino : Row :=
  fila "5" "mañana" "9:5" "11:00" "Madrid" " nan " "T5".

Definition world0 : world := mkWorld ∅ [] [] [] 0.

(** ** What the loop keeps *)

(** What a step leaves untouched: the features and the counter of [main]. *)
Definition same_counters (w w' : world) : Prop :=
  features w' = features w /\ descartados w' = descartados w.

(** A feature as row [i] may emit it: at most two intermediate stops and,
    as its path, the first route of the provider or the straight line,
    for at least two points. *)
Definition emitted (osrm : nat -> list (float * float) -> outcome (list Route))
    (i : nat) (f : Feature) : Prop :=
  num_paradas (properties f) <= 2
  /\ exists stops_geo : list GeoPoint,
       2 <= length stops_geo
       /\ (geometry f = mkGeometry (text "LineString")
                          (map (fun p => (lon p, lat p)) stops_geo)
           \/ exists rest,
                osrm i (lonlat stops_geo) = Ok (Ok (Some (geometry f)) :: rest)).

(** The date of a row is read and is well formed, or the row is discarded
    before its date is read. *)
Definition row_dated `{U : UCD} (row : Row) : bool :=
  negb (Py.truthy (get_text row DESTINO_COL))
  || negb (Py.truthy (get_text row ORIGEN_COL))
  || match strptime_dmY (Py.strip (py_str (row !! FECHA_COL))) with
     | Some _ => true
     | None => false
     end.

(** ** Shapes of texts *)

(** Every character of [s] is of the class [p]. *)
Fixpoint all_chars (p : char -> bool) (s : str) : bool :=
  match s with
  | [] => true
  | c :: s' => p c && all_chars p s'
  end.

(** A word: a text that is not empty and has no blank. *)
Definition is_word `{U : UCD} (x : str) : Prop :=
  x <> [] /\ all_chars (fun c => negb (Py.isspace c)) x = true.

(** ** The turns of the loop *)

(** A row discarded with the log line [ev]. *)
Definition discard (ev : event) (w : world) : world :=
  mkWorld (cache w) (geo_calls w) (bitacora w ++ [ev]) (features w) (S (descartados w)).

(** A row counted as discarded after the lookup of its stops. *)
Definition count_discarded (w : world) : world :=
  mkWorld (cache w) (geo_calls w) (bitacora w) (features w) (S (descartados w)).

(** A row that adds the feature [f]. *)
Definition with_feature (f : Feature) (w : world) : world :=
  mkWorld (cache w) (geo_calls w) (bitacora w) (features w ++ [f]) (descartados w).

(** The log lines of the rows discarded before any lookup. *)
Definition validation_event (ev : event) : bool :=
  match ev with
  | SinDestino _ | SinOrigen _ _ | SinViajeId _ | Caducado _ _ _ => true
  | _ => false
  end.

(** The log lines that tell of a discarded row. *)
Definition is_rejection (ev : event) : bool :=
  match ev with
  | OsrmFallo _ _ | Generado _ _ => false
  | _ => true
  end.

Section Rows.

Context `{U : UCD}.

(** The stops of a row, as step 5 builds them. *)
Definition row_stops (row : Row) : list str :=
  build_stops (get_text row ORIGEN_COL) (get_text row PARADA1_COL)
    (get_text row PARADA2_COL) (get_text row DESTINO_COL).

(** The intermediate stops a row gives. *)
Definition row_paradas (row : Row) : list str :=
  (if Py.truthy (get_text row PARADA1_COL) then [get_text row PARADA1_COL] else [])
  ++ (if Py.truthy (get_text row PARADA2_COL) then [get_text row PARADA2_COL] else []).

(** The feature of a row, read off the texts of the row, for the date
    [fecha_iso] and the path [g]. *)
Definition row_feature (row : Row) (fecha_iso : str) (g : Geometry) : Feature :=
  let o := get_text row ORIGEN_COL in
  let d := get_text row DESTINO_COL in
  let hs := parse_hora (row !! SALIDA_COL) in
  let hl := parse_hora (row !! LLEGADA_COL) in
  mkFeature g
    (mkProperties (o ++ text " → " ++ d ++ text " (" ++ hs ++ text "-" ++ hl ++ text ")")
       (get_text row "viaje_id") fecha_iso hs hl o d
       (Py.join (text " | ") (row_paradas row)) (length (row_paradas row))).

(** [f] is the feature of [row]: its texts and date, with some path. *)
Definition feature_of_row (row : Row) (f : Feature) : Prop :=
  exists fecha_iso g,
    parse_fecha (row !! FECHA_COL) = Ok fecha_iso /\ f = row_feature row fecha_iso g.

End Rows.

(** The log lines of the routing step of a trip: one line when the
    request or the reading of the first route raised, none otherwise. *)
Definition route_log (osrm : nat -> list (float * float) -> outcome (list Route))
    (i : nat) (viaje_id : str) (stops_geo : list GeoPoint) : list event :=
  match osrm i (lonlat stops_geo) with
  | Raise e => [OsrmFallo viaje_id e]
  | Ok (Raise e :: _) => [OsrmFallo viaje_id e]
  | Ok _ => []
  end.

(** The world after the routing step of a trip. *)
Definition routed (osrm : nat -> list (float * float) -> outcome (list Route))
    (i : nat) (viaje_id : str) (stops_geo : list GeoPoint) (w : world) : world :=
  mkWorld (cache w) (geo_calls w) (bitacora w ++ route_log osrm i viaje_id stops_geo)
    (features w) (descartados w).

(** The discarded rows the log tells of. *)
Definition rejections (w : world) : nat :=
  length (List.filter is_rejection (bitacora w)).

(** The columns a stop is read from. *)
Definition stop_columns : list string :=
  [ORIGEN_COL; PARADA1_COL; PARADA2_COL; DESTINO_COL].

(** The path of a trip: the first route of the provider, else the
    straight line. *)
Definition route_choice (osrm : nat -> list (float * float) -> outcome (list Route))
    (i : nat) (stops_geo : list GeoPoint) : Geometry :=
  match osrm i (lonlat stops_geo) with
  | Ok (Ok (Some g) :: _) => g
  | _ => linestring stops_geo
  end.

(** The same point of a run that started from the cache [cf], already
    complete: nothing was requested. *)
Definition warm (cf : gmap str (option GeoPoint)) (w : world) : world :=
  mkWorld cf [] (bitacora w) (features w) (descartados w).

(** [cf] binds all that the cache of [w] binds. *)
Definition within (cf : gmap str (option GeoPoint)) (w : world) : Prop :=
  forall k x, cache w !! k = Some x -> cf !! k = Some x.

(** * Properties *)

(** ** The model on sample inputs *)

Example normalize_place_ex :
  normalize_place (text "  Las   PALMAS de Gran Canaria ")
  = text "las palmas de gran canaria".
Proof. reflexivity. Qed.

Example normalize_place_accents :
  normalize_place (text "MÁLAGA") = text "málaga".
Proof. vm_compute. reflexivity. Qed.

(** U+00A0 NO-BREAK SPACE is a blank. *)
Example normalize_place_nbsp :
  normalize_place [0xA0; 0x41; 0xA0; 0xA0; 0x42; 0x2003]%N = text "a b".
Proof. vm_compute. reflexivity. Qed.

Example lower_final_sigma :
  Py.lower (text "ΟΔΟΣ ΣΟΦΙΑΣ") = text "οδος σοφιας".
Proof. vm_compute. reflexivity. Qed.

(** The lower case of U+0130 has two characters. *)
Example normalize_place_dotted_i :
  normalize_place (text "İzmir") = [0x69; 0x307]%N ++ text "zmir".
Proof. vm_compute. reflexivity. Qed.

Example strptime_dmY_ex : strptime_dmY (text "18/02/2026") = Some (mkDate 2026 2 18).
Proof. reflexivity. Qed.

Example strptime_dmY_short : strptime_dmY (text "1/2/2026") = Some (mkDate 2026 2 1).
Proof. reflexivity. Qed.

Example strptime_dmY_feb31 : strptime_dmY (text "31/02/2026") = None.
Proof. reflexivity. Qed.

(** A decimal digit of another script is read as a digit. *)
Example strptime_dmY_arabic :
  strptime_dmY (text "1٨/02/2026") = Some (mkDate 2026 2 18).
Proof. vm_compute. reflexivity. Qed.

Example strptime_HM_ex : strptime_HM (text "9:5") = Some (9, 5).
Proof. reflexivity. Qed.

Example strptime_HM_hour : strptime_HM (text "29:10") = None.
Proof. reflexivity. Qed.

Example strptime_HM_rest : strptime_HM (text "1:234") = None.
Proof. reflexivity. Qed.

Example strptime_HMS_leap : strptime_HMS (text "23:59:60") = None.
Proof. reflexivity. Qed.

Example parse_fecha_ex :
  parse_fecha (Some (Val (text " 18/02/2026 "))) = Ok (text "2026-02-18").
Proof. reflexivity. Qed.

Example parse_fecha_nan : parse_fecha (Some NaN) = Raise ValueError.
Proof. reflexivity. Qed.

Example parse_hora_ex : parse_hora (Some (Val (text "9:5"))) = text "09:05".
Proof. reflexivity. Qed.

Example parse_hora_seconds : parse_hora (Some (Val (text "09:20:00"))) = text "09:20".
Proof. reflexivity. Qed.

Example parse_hora_nan : parse_hora (Some NaN) = text "nan".
Proof. reflexivity. Qed.

(** The filling counts characters. *)
Example parse_hora_letter : parse_hora (Some (Val (text "ñ:5"))) = text "0ñ:05".
Proof. vm_compute. reflexivity. Qed.

Example zfill_sign : Py.zfill 2 (text "-") = text "-0".
Proof. reflexivity. Qed.

Example pipeline_T1 :
  fst (main nominatim_ok osrm_no_route reloj_ex ∅ [fila_T1; fila_sin_destino])
  = Ok ([mkFeature
           (mkGeometry (text "LineString")
              [((-3.75)%float, 40.5%float); (2.125%float, 41.375%float)])
           (mkProperties (text "Madrid → Barcelona (09:05-11:00)") (text "T1")
              (text "2026-02-18") (text "09:05") (text "11:00") (text "Madrid")
              (text "Barcelona") [] 0)], 1).
Proof. vm_compute. reflexivity. Qed.

(** A first route whose geometry is [null]: the straight line, and no
    line in the log. *)
Example route_null_geometry :
  route_geometry osrm_null_geometry 0 (text "T1") [madrid; barcelona] world0
  = (Ok (linestring [madrid; barcelona]), world0).
Proof. reflexivity. Qed.

Example get_text_nan :
  get_text (<["Parada1" := Val (text " NaN ")]> ∅) PARADA1_COL = [].
Proof. reflexivity. Qed.

(** ** Blanks and words *)

Section Blanks.

Import Py.

Context `{U : UCD}.

Lemma truthy_false s : truthy s = false <-> s = [].
Proof. destruct s; simpl; split; congruence. Qed.

Lemma truthy_true s : truthy s = true <-> s <> [].
Proof. destruct s; simpl; split; congruence. Qed.

Lemma str_eqb_eq s : forall t, eqb s t = true <-> s = t.
Proof.
  induction s as [|a s IH]; intros [|b t]; simpl; try (split; congruence).
  rewrite andb_true_iff, N.eqb_eq, IH. split; [intros [-> ->] | intros [= -> ->]]; auto.
Qed.

Lemma split_go_lstrip cur s :
  split_go cur (lstrip s) = split_go cur s \/ cur <> [].
Proof.
  destruct cur; [left | right; discriminate].
  induction s as [|c s IH]; simpl; [reflexivity|].
  destruct (isspace c) eqn:Hc; [exact IH | simpl; now rewrite Hc].
Qed.

Lemma split_go_rstrip s : forall cur, split_go cur (rstrip s) = split_go cur s.
Proof.
  induction s as [|c s IH]; intros cur; simpl; [reflexivity|].
  destruct (rstrip s) as [|a r] eqn:E.
  - destruct (isspace c) eqn:Hc; simpl.
    + rewrite <- IH. simpl. now rewrite app_nil_r.
    + rewrite Hc, <- IH. reflexivity.
  - simpl. destruct (isspace c); now rewrite <- IH.
Qed.

Lemma split_strip s : split (strip s) = split s.
Proof.
  unfold split, strip. rewrite split_go_rstrip.
  destruct (split_go_lstrip [] s) as [H|H]; [exact H | congruence].
Qed.

(** A blank cuts a text in two texts that are split apart. *)
Lemma split_go_blank w y : isspace w = true ->
  forall x cur, split_go cur (x ++ w :: y) = split_go cur x ++ split_go [] y.
Proof.
  intros Hw. induction x as [|c x IH]; intros cur; simpl.
  - now rewrite Hw.
  - destruct (isspace c); [now rewrite IH, app_assoc | apply IH].
Qed.

(** A text without blanks is one word. *)
Lemma split_go_word x : all_chars (fun c => negb (isspace c)) x = true ->
  forall cur, split_go cur x = flush (cur ++ x).
Proof.
  induction x as [|c x IH]; simpl; intros H cur.
  - now rewrite app_nil_r.
  - apply andb_true_iff in H as [Hc Hx]. apply negb_true_iff in Hc.
    rewrite Hc, (IH Hx). now rewrite <- app_assoc.
Qed.

(** A text has no blank, or a first one. *)
Lemma first_blank s :
  all_chars (fun c => negb (isspace c)) s = true
  \/ exists x w y,
       s = x ++ w :: y /\ all_chars (fun c => negb (isspace c)) x = true
       /\ isspace w = true.
Proof.
  induction s as [|c s IH]; simpl; [now left|].
  destruct (isspace c) eqn:Hc.
  - right. now exists [], c, s.
  - destruct IH as [H | (x & w & y & -> & Hx & Hw)]; [now left|].
    right. exists (c :: x), w, y. simpl. now rewrite Hc.
Qed.

Lemma all_chars_app p x y :
  all_chars p (x ++ y) = all_chars p x && all_chars p y.
Proof.
  induction x as [|c x IH]; simpl; [reflexivity|]. now rewrite IH, andb_assoc.
Qed.

End Blanks.

(** ** Lower case *)

Section Casing.

Import Py.

Context `{U : UCD} {L : UCDLaws U}.

Lemma lower_nonempty c : tolower c <> [].
Proof.
  destruct (lower_kind c) as (p & d & q & E & _). rewrite E.
  now destruct p.
Qed.

Lemma blank_not_sigma w : isspace w = true -> (w =? SIGMA)%N = false.
Proof.
  intros Hw. apply N.eqb_neq. intros ->.
  destruct sigma_letters as (H & _). congruence.
Qed.

(** The rule of the final sigma does not look past a blank. *)
Lemma skip_ignorable_blank p w q : isspace w = true ->
  skip_ignorable (p ++ w :: q)
  = match skip_ignorable p with
    | Some c => Some c
    | None => Some w
    end.
Proof.
  intros Hw. destruct (space_plain w Hw) as [_ Hi].
  induction p as [|c p IH]; simpl; [now rewrite Hi|].
  destruct (case_ignorable c); [exact IH | reflexivity].
Qed.

Lemma handle_capital_sigma_after b r w y : isspace w = true ->
  handle_capital_sigma b (r ++ w :: y) = handle_capital_sigma b r.
Proof.
  intros Hw. unfold handle_capital_sigma.
  rewrite (skip_ignorable_blank r w y Hw).
  destruct (space_plain w Hw) as [Hc _].
  destruct (skip_ignorable r); [reflexivity | now rewrite Hc].
Qed.

Lemma handle_capital_sigma_before p w q r : isspace w = true ->
  handle_capital_sigma (p ++ w :: q) r = handle_capital_sigma p r.
Proof.
  intros Hw. unfold handle_capital_sigma.
  rewrite (skip_ignorable_blank p w q Hw).
  destruct (space_plain w Hw) as [Hc _].
  destruct (skip_ignorable p); [reflexivity | now rewrite Hc].
Qed.

Lemma do_lower_cut w q : isspace w = true ->
  forall y p, do_lower (p ++ w :: q) y = do_lower p y.
Proof.
  intros Hw. induction y as [|c y IH]; intros p; simpl; [reflexivity|].
  rewrite (handle_capital_sigma_before p w q y Hw). f_equal.
  exact (IH (c :: p)).
Qed.

(** Each side of a blank is lowered on its own. *)
Lemma do_lower_blank w y : isspace w = true ->
  forall x b, do_lower b (x ++ w :: y) = do_lower b x ++ w :: do_lower [] y.
Proof.
  intros Hw. induction x as [|c x IH]; intros b; simpl.
  - rewrite (blank_not_sigma w Hw), (space_lower w Hw). simpl.
    f_equal. exact (do_lower_cut w b Hw y []).
  - rewrite (handle_capital_sigma_after b x w y Hw), IH.
    now rewrite <- app_assoc.
Qed.

Lemma lower_blank x w y : isspace w = true ->
  lower (x ++ w :: y) = lower x ++ w :: lower y.
Proof. intros Hw. now apply do_lower_blank. Qed.

Lemma handle_capital_sigma_cases b r :
  handle_capital_sigma b r = FINAL_SIGMA \/ handle_capital_sigma b r = SMALL_SIGMA.
Proof. unfold handle_capital_sigma. destruct (_ && _); auto. Qed.

Lemma handle_capital_sigma_letter b r : isspace (handle_capital_sigma b r) = false.
Proof.
  destruct sigma_letters as (_ & H1 & H2 & _).
  destruct (handle_capital_sigma_cases b r) as [-> | ->]; assumption.
Qed.

Lemma all_chars_forall p s :
  all_chars p s = true <-> forall c, In c s -> p c = true.
Proof.
  induction s as [|a s IH]; simpl.
  - split; [intros _ c [] | reflexivity].
  - rewrite andb_true_iff, IH. split.
    + intros [Ha Hs] c [<- | Hc]; auto.
    + intros H. split; [apply H; now left | intros c Hc; apply H; now right].
Qed.

(** The lower case of a text without blanks has no blank. *)
Lemma do_lower_no_blank s : all_chars (fun c => negb (isspace c)) s = true ->
  forall b, all_chars (fun c => negb (isspace c)) (do_lower b s) = true.
Proof.
  induction s as [|c s IH]; simpl; intros H b; [reflexivity|].
  apply andb_true_iff in H as [Hc Hs]. apply negb_true_iff in Hc.
  rewrite all_chars_app, (IH Hs), andb_true_r.
  destruct (c =? SIGMA)%N.
  - simpl. now rewrite handle_capital_sigma_letter.
  - apply all_chars_forall. intros d Hd.
    now rewrite (lower_nonspace c d Hc Hd).
Qed.

Lemma do_lower_nil b s : do_lower b s = [] -> s = [].
Proof.
  destruct s as [|c s]; simpl; [reflexivity|].
  intros H. apply app_eq_nil in H as [H _].
  destruct (c =? SIGMA)%N; [discriminate | now apply lower_nonempty in H].
Qed.

Lemma flush_lower x : all_chars (fun c => negb (isspace c)) x = true ->
  flush (lower x) = map lower (flush x).
Proof.
  intros _. destruct x as [|c x]; [reflexivity|]. cbn [flush map].
  destruct (lower (c :: x)) eqn:E; [now apply do_lower_nil in E | reflexivity].
Qed.

(** The words of the lower case are the lower cases of the words. *)
Lemma split_lower s : split (lower s) = map lower (split s).
Proof.
  remember (length s) as n eqn:Hn. revert s Hn.
  induction n as [n IH] using lt_wf_ind. intros s ->.
  destruct (first_blank s) as [H | (x & w & y & -> & Hx & Hw)].
  - unfold split. rewrite (split_go_word s H), (split_go_word (lower s)).
    + now apply flush_lower.
    + now apply do_lower_no_blank.
  - rewrite (lower_blank x w y Hw). unfold split.
    rewrite !(split_go_blank w _ Hw), map_app.
    rewrite (split_go_word x Hx), (split_go_word (lower x)).
    + cbn [app]. rewrite (flush_lower x Hx). f_equal.
      apply (IH (length y)); [|reflexivity].
      rewrite length_app. simpl. lia.
    + now apply do_lower_no_blank.
Qed.

(** The key of a text: its words, each in lower case. *)
Lemma normalize_place_words s :
  normalize_place s = join (text " ") (map lower (split s)).
Proof. unfold normalize_place. now rewrite split_lower, split_strip. Qed.

Lemma normalize_place_lower s :
  normalize_place s = join (text " ") (split (lower s)).
Proof. now rewrite normalize_place_words, split_lower. Qed.

(** Case-ignorable characters are not seen. *)
Lemma skip_ignorable_app p r :
  (forall a, In a p -> case_ignorable a = true) ->
  skip_ignorable (p ++ r) = skip_ignorable r.
Proof.
  induction p as [|a p IH]; intros H; simpl; [reflexivity|].
  rewrite (H a (or_introl eq_refl)). apply IH. intros a' Ha'. apply H. now right.
Qed.

(** A character and its lower case are seen alike, from either side. *)
Lemma seen_lower c r : seen (tolower c ++ r) = seen (c :: r).
Proof.
  destruct (lower_kind c) as (p & d & q & E & Hc & Hi & Hpq). rewrite E.
  unfold seen. rewrite <- app_assoc, skip_ignorable_app
    by (intros a Ha; apply Hpq, in_app_iff; now left).
  simpl. rewrite Hi. destruct (case_ignorable c); [|simpl; now rewrite Hc].
  now rewrite skip_ignorable_app by (intros a Ha; apply Hpq, in_app_iff; now right).
Qed.

Lemma seen_lower_rev c r : seen (rev (tolower c) ++ r) = seen (c :: r).
Proof.
  destruct (lower_kind c) as (p & d & q & E & Hc & Hi & Hpq). rewrite E.
  unfold seen. rewrite rev_app_distr. simpl rev.
  rewrite <- !app_assoc, skip_ignorable_app
    by (intros a Ha; apply Hpq, in_app_iff; right; now apply in_rev).
  simpl. rewrite Hi. destruct (case_ignorable c); [|simpl; now rewrite Hc].
  now rewrite skip_ignorable_app
    by (intros a Ha; apply Hpq, in_app_iff; left; now apply in_rev).
Qed.

Lemma seen_cons a b b' : seen b = seen b' -> seen (a :: b) = seen (a :: b').
Proof. unfold seen. simpl. now destruct (case_ignorable a). Qed.

Lemma seen_app x r r' : seen r = seen r' -> seen (x ++ r) = seen (x ++ r').
Proof. intros H. induction x as [|a x IH]; [exact H | now apply seen_cons]. Qed.

(** The form of a sigma depends only on what is seen on either side. *)
Lemma handle_capital_sigma_seen b b' r r' :
  seen b = seen b' -> seen r = seen r' ->
  handle_capital_sigma b r = handle_capital_sigma b' r'.
Proof.
  unfold seen, handle_capital_sigma. intros Hb Hr.
  destruct (skip_ignorable b), (skip_ignorable b'); try discriminate Hb;
    destruct (skip_ignorable r), (skip_ignorable r'); try discriminate Hr;
    simpl in Hb, Hr; try injection Hb as ->; try injection Hr as ->; reflexivity.
Qed.

Lemma do_lower_seen y : forall b b', seen b = seen b' -> do_lower b y = do_lower b' y.
Proof.
  induction y as [|a y IH]; intros b b' H; simpl; [reflexivity|].
  rewrite (handle_capital_sigma_seen b b' y y H eq_refl). f_equal.
  apply IH. now apply seen_cons.
Qed.

(** A text in lower case is its own lower case, wherever it stands. *)
Lemma do_lower_stable_app l : stable l ->
  forall b y, do_lower b (l ++ y) = l ++ do_lower (rev l ++ b) y.
Proof.
  induction l as [|a l IH]; intros H b y; [reflexivity|].
  destruct (H a (or_introl eq_refl)) as [Ha Hn]. apply N.eqb_neq in Hn.
  simpl. rewrite Hn, Ha, IH by (intros d Hd; apply H; now right).
  now rewrite <- app_assoc.
Qed.

Lemma stable_tolower c : stable (tolower c).
Proof. intros d Hd. now apply (lower_fixed c). Qed.

(** A letter or its lower case: the lower case of the text is the same. *)
Lemma do_lower_lowered c y : c <> SIGMA ->
  forall x b, do_lower b (x ++ c :: y) = do_lower b (x ++ tolower c ++ y).
Proof.
  intros Hc. induction x as [|a x IH]; intros b.
  - simpl. apply N.eqb_neq in Hc. rewrite Hc.
    rewrite (do_lower_stable_app _ (stable_tolower c)). f_equal.
    apply do_lower_seen. symmetry. apply seen_lower_rev.
  - simpl. rewrite IH. f_equal.
    destruct (a =? SIGMA)%N; [|reflexivity]. f_equal.
    apply handle_capital_sigma_seen; [reflexivity|].
    apply seen_app. symmetry. apply seen_lower.
Qed.

Lemma words_blank x w y : isspace w = true ->
  split (lower (x ++ w :: y)) = split (lower x) ++ split (lower y).
Proof.
  intros Hw. rewrite (lower_blank x w y Hw). unfold split.
  now rewrite (split_go_blank w _ Hw).
Qed.

Lemma lower_edit s t : edit s t -> split (lower s) = split (lower t).
Proof.
  destruct 1 as [x c y Hc | w x Hw | w x Hw | x w w' y Hw Hw' | x w w' y Hw Hw'].
  - f_equal. now apply do_lower_lowered.
  - symmetry. exact (words_blank [] w x Hw).
  - rewrite (words_blank x w [] Hw). simpl. now rewrite app_nil_r.
  - rewrite (words_blank x w (w' :: y) Hw), (words_blank x w y Hw). f_equal.
    symmetry. exact (words_blank [] w' y Hw').
  - now rewrite (words_blank x w y Hw), (words_blank x w' y Hw').
Qed.

Lemma do_lower_stable s : stable s -> forall b, do_lower b s = s.
Proof.
  induction s as [|c s IH]; intros H b; simpl; [reflexivity|].
  destruct (H c (or_introl eq_refl)) as [Hc Hn].
  apply N.eqb_neq in Hn. rewrite Hn, Hc, IH; [reflexivity|].
  intros d Hd. apply H. now right.
Qed.

Lemma handle_capital_sigma_stable b r :
  tolower (handle_capital_sigma b r) = [handle_capital_sigma b r]
  /\ handle_capital_sigma b r <> SIGMA.
Proof.
  destruct sigma_letters as (_ & _ & _ & H1 & H2).
  destruct (handle_capital_sigma_cases b r) as [-> | ->];
    (split; [assumption | discriminate]).
Qed.

Lemma stable_do_lower s : forall b, stable (do_lower b s).
Proof.
  induction s as [|c s IH]; intros b d; simpl; [intros []|].
  rewrite in_app_iff. intros [Hd | Hd]; [|now apply (IH (c :: b))].
  destruct (c =? SIGMA)%N.
  - destruct Hd as [<- | []]. apply handle_capital_sigma_stable.
  - now apply (lower_fixed c).
Qed.

Lemma lower_idem s : lower (lower s) = lower s.
Proof. apply do_lower_stable, stable_do_lower. Qed.

End Casing.

(** ** The database of CPython 3.11 has the facts used *)

Section Unicode14.

Lemma in_ranges_interval t c :
  in_ranges t c = true -> In c (flat_map interval t).
Proof.
  unfold in_ranges. rewrite existsb_exists. intros ([lo hi] & Hr & H).
  apply andb_true_iff in H as [H1 H2]. apply N.leb_le in H1, H2. simpl in H1, H2.
  apply in_flat_map. exists (lo, hi). split; [exact Hr|].
  unfold interval. apply in_map_iff. exists (N.to_nat (c - lo)). cbn [fst snd]. split.
  - lia.
  - apply in_seq. lia.
Qed.

Lemma maps_pairs_of r c : maps r c = true -> In (c, image r c) (pairs_of r).
Proof.
  destruct r as [[[lo hi] step] im]. unfold maps, image, pairs_of.
  rewrite !andb_true_iff, !N.leb_le, N.eqb_eq. intros [[H1 H2] H3].
  apply in_map_iff. exists (N.to_nat ((c - lo) / step)).
  pose proof (N.div_mod' (c - lo) step) as E. rewrite H3, N.add_0_r in E.
  split.
  - cbv beta. rewrite N2Nat.id, (N.mul_comm _ step), <- E. f_equal; lia.
  - apply in_seq.
    assert ((c - lo) / step <= (hi - lo) / step)%N
      by (apply N.Div0.div_le_mono; lia).
    generalize dependent ((c - lo) / step)%N.
    generalize ((hi - lo) / step)%N. intros; lia.
Qed.

Lemma ascii_points_in c : (c <? 128)%N = true -> In c ascii_points.
Proof.
  intros H. apply N.ltb_lt in H. unfold ascii_points.
  apply in_map_iff. exists (N.to_nat c). split; [lia | apply in_seq; lia].
Qed.

Lemma blanks_in c : Py.isspace c = true -> In c blanks.
Proof.
  unfold blanks, Py.isspace. rewrite in_app_iff.
  destruct (c <? 128)%N eqn:Hc; intros H.
  - left. now apply ascii_points_in.
  - right. now apply in_ranges_interval.
Qed.

Lemma blanks_plain : forallb blank_plain blanks = true.
Proof. vm_compute. reflexivity. Qed.

Lemma lower_pairs_plain : forallb pair_plain lower_pairs = true.
Proof. vm_compute. reflexivity. Qed.

Lemma blank_is_plain c : Py.isspace c = true ->
  Py.tolower c = [c] /\ Py.cased c = false /\ Py.case_ignorable c = false.
Proof.
  intros H. pose proof (proj1 (forallb_forall _ _) blanks_plain c (blanks_in c H)) as P.
  unfold blank_plain in P. rewrite H in P. simpl in P.
  apply andb_true_iff in P as [P P3]. apply andb_true_iff in P as [P1 P2].
  apply str_eqb_eq in P1. apply negb_true_iff in P2, P3. auto.
Qed.

(** The lower case of a character: itself, or its image in a pair, or the
    two characters of the dotted capital I. *)
Lemma tolower_cases c :
  Py.tolower c = [c]
  \/ (c = 0x130%N /\ Py.tolower c = [0x69; 0x307]%N)
  \/ exists d, Py.tolower c = [d] /\ In (c, d) lower_pairs.
Proof.
  unfold Py.tolower. destruct (c <? 128)%N eqn:Hc.
  - destruct ((65 <=? c) && (c <=? 90))%N eqn:Hu; [|now left].
    right. right. exists (c + 32)%N. split; [reflexivity|].
    apply andb_true_iff in Hu as [H1 H2]. apply N.leb_le in H1, H2.
    unfold lower_pairs. apply in_app_iff. left.
    apply in_map_iff. exists (N.to_nat (c - 65)). split.
    + f_equal; lia.
    + apply in_seq. lia.
  - cbn [uc_tolower unicode_14]. unfold lower_of.
    destruct (c =? 0x130)%N eqn:Hi.
    + right. left. apply N.eqb_eq in Hi. now split.
    + destruct (List.find (fun r => maps r c) lowercase_ranges) as [r|] eqn:Hf;
        [|now left].
      right. right. exists (image r c). split; [reflexivity|].
      apply find_some in Hf as [Hr Hm].
      unfold lower_pairs. apply in_app_iff. right.
      apply in_flat_map. exists r. split; [exact Hr | now apply maps_pairs_of].
Qed.

Lemma pair_is_plain c d : In (c, d) lower_pairs ->
  Py.isspace d = false /\ Py.tolower d = [d] /\ d <> SIGMA
  /\ Py.cased c = Py.cased d /\ Py.case_ignorable c = Py.case_ignorable d.
Proof.
  intros H. pose proof (proj1 (forallb_forall _ _) lower_pairs_plain (c, d) H) as P.
  unfold pair_plain, lower_plain in P. cbn [fst snd] in P.
  rewrite !andb_true_iff, !negb_true_iff, str_eqb_eq, !eqb_true_iff, N.eqb_neq in P.
  tauto.
Qed.

Lemma unicode_14_lower_kind c :
  exists p d q,
    Py.tolower c = p ++ d :: q
    /\ Py.cased d = Py.cased c /\ Py.case_ignorable d = Py.case_ignorable c
    /\ (forall a, In a (p ++ q) -> Py.case_ignorable a = true).
Proof.
  destruct (tolower_cases c) as [H | [[-> H] | (d & H & P)]].
  - exists [], c, []. now repeat split.
  - exists [], 0x69%N, [0x307%N]. repeat split.
    intros a [<- | []]. reflexivity.
  - exists [], d, []. destruct (pair_is_plain c d P) as (_ & _ & _ & H1 & H2).
    now repeat split.
Qed.

#[global] Instance unicode_14_laws : UCDLaws unicode_14.
Proof.
  split.
  - intros c H. now apply blank_is_plain.
  - intros c H. now apply blank_is_plain.
  - intros c d Hc Hd.
    destruct (tolower_cases c) as [H | [[_ H] | (d' & H & P)]]; rewrite H in Hd.
    + destruct Hd as [<- | []]. exact Hc.
    + destruct Hd as [<- | [<- | []]]; reflexivity.
    + destruct Hd as [<- | []]. now apply (pair_is_plain c).
  - intros c d Hd.
    destruct (tolower_cases c) as [H | [[_ H] | (d' & H & P)]]; rewrite H in Hd.
    + destruct Hd as [<- | []]. split; [exact H|].
      intros ->. vm_compute in H. discriminate.
    + destruct Hd as [<- | [<- | []]]; (split; [reflexivity | discriminate]).
    + destruct Hd as [<- | []]. destruct (pair_is_plain c d' P) as (_ & H1 & H2 & _).
      now split.
  - apply unicode_14_lower_kind.
  - repeat split; reflexivity.
Qed.

End Unicode14.

(** ** The place normaliser *)

(** C9, amended: two place names that differ only in blanks (leading,
    trailing, or the length and kind of inner runs of blanks) and in the
    case of letters other than the capital sigma, one having a letter
    where the other has its lower case, have the same cache key. *)
Theorem normalize_place_same_place `{U : UCD} `{!UCDLaws U} (s t : str) :
  same_place s t -> normalize_place s = normalize_place t.
Proof.
  intros H. rewrite !normalize_place_lower. f_equal.
  induction H as [s | s t He | s t _ IH | s t v _ IH1 _ IH2].
  - reflexivity.
  - now apply lower_edit.
  - now symmetry.
  - now transitivity (Py.split (Py.lower t)).
Qed.

Lemma normalize_place_same_place_witness :
  same_place (text "MÁlaga") (text " málaga")
  /\ normalize_place (text "MÁlaga") = normalize_place (text " málaga").
Proof.
  assert (H : same_place (text "MÁlaga") (text " málaga")).
  { apply same_trans with (text "mÁlaga").
    - apply same_edit. apply (edit_case [] (chr "M") (text "Álaga")). discriminate.
    - apply same_trans with (text "málaga").
      + apply same_edit.
        change (edit (text "m" ++ 0xC1%N :: text "laga")
                     (text "m" ++ Py.tolower 0xC1%N ++ text "laga")).
        apply edit_case. discriminate.
      + apply same_edit. apply (edit_leading (chr " ")). reflexivity. }
  split; [exact H | exact (normalize_place_same_place _ _ H)].
Defined.

(** C9 as stated fails for the capital sigma, whose lower case is the
    final sigma at the end of a word: "ΑΣ" and "Ασ" differ only in the
    case of their second letter and have the keys "ας" and "ασ". *)
Lemma normalize_place_same_place_counterexample :
  Py.tolower SIGMA = [SMALL_SIGMA]
  /\ normalize_place [0x391%N; SIGMA] = [0x3B1%N; FINAL_SIGMA]
  /\ normalize_place [0x391%N; SMALL_SIGMA] = [0x3B1%N; SMALL_SIGMA]
  /\ normalize_place [0x391%N; SIGMA] <> normalize_place [0x391%N; SMALL_SIGMA].
Proof.
  split; [reflexivity|]. split; [reflexivity|]. split; [reflexivity|].
  vm_compute. discriminate.
Qed.

(** ** The geocoder and its cache *)

Ltac run_monad :=
  unfold bind, ret, lift, raise, try_except, get_cache, cache_set, log,
    incr_descartados, features_append, requests_get_nominatim, record_call;
  simpl.

Section Geocoder.

Context `{U : UCD}.

Variable nominatim : str -> outcome (list Candidate).

(** The three ways through [geocode]. *)
Lemma geocode_no_key place w :
  normalize_place place = [] -> geocode nominatim place w = (Ok None, w).
Proof. intros H. unfold geocode. now rewrite H. Qed.

Lemma geocode_hit place w v :
  normalize_place place <> [] ->
  cache w !! normalize_place place = Some v ->
  geocode nominatim place w = (Ok v, w).
Proof.
  intros Hk Hc. unfold geocode.
  apply truthy_true in Hk. rewrite Hk. run_monad. now rewrite Hc.
Qed.

Lemma geocode_miss place w :
  normalize_place place <> [] ->
  cache w !! normalize_place place = None ->
  geocode nominatim place w =
    match nominatim place with
    | Raise e => (Raise e, record_call place w)
    | Ok [] =>
        (Ok None,
         mkWorld (<[normalize_place place := None]> (cache w))
           (geo_calls w ++ [place]) (bitacora w) (features w) (descartados w))
    | Ok (item :: _) =>
        let result := mkGeoPoint (item_lat item) (item_lon item) (item_display_name item) in
        (Ok (Some result),
         mkWorld (<[normalize_place place := Some result]> (cache w))
           (geo_calls w ++ [place]) (bitacora w) (features w) (descartados w))
    end.
Proof.
  intros Hk Hc. unfold geocode.
  apply truthy_true in Hk. rewrite Hk. run_monad. rewrite Hc.
  destruct (nominatim place) as [[|item rest]|e]; reflexivity.
Qed.

(** A lookup never removes nor changes an entry of the cache. *)
Lemma geocode_keeps place w k v :
  cache w !! k = Some v -> cache (snd (geocode nominatim place w)) !! k = Some v.
Proof.
  intros Hv.
  destruct (decide (normalize_place place = [])) as [Hk|Hk].
  { now rewrite geocode_no_key. }
  destruct (cache w !! normalize_place place) as [v'|] eqn:Hc.
  { now rewrite (geocode_hit _ _ v'). }
  rewrite geocode_miss by assumption.
  assert (normalize_place place <> k) by congruence.
  destruct (nominatim place) as [[|item rest]|e]; simpl;
    [| |exact Hv]; now rewrite lookup_insert_ne.
Qed.

Lemma geocode_all_keeps places : forall w k v,
  cache w !! k = Some v -> cache (geocode_all nominatim places w) !! k = Some v.
Proof.
  induction places as [|p places IH]; intros w k v Hv; simpl; [exact Hv|].
  apply IH. now apply geocode_keeps.
Qed.

(** C8: for a place text whose key is empty (the empty text among them)
    [geocode] returns [None] and leaves the run as it was: no request is
    sent and the cache gets no entry. *)
Theorem geocode_empty_key (place : str) (w : world) :
  normalize_place place = [] ->
  geocode nominatim place w = (Ok None, w)
  /\ geocode nominatim [] w = (Ok None, w).
Proof.
  intros H. split; [now apply geocode_no_key | now apply geocode_no_key].
Qed.

(** C4, amended: for a place text whose key is not empty and is bound in
    the cache, to a point or to [None], [geocode] returns the bound value
    and leaves the run as it was: no request is sent and the cache is
    unchanged. For the empty key the guard on the key comes first and the
    answer is [None] whatever the cache binds to it. *)
Theorem geocode_cache_hit (place : str) (w : world) (v : option GeoPoint) :
  cache w !! normalize_place place = Some v ->
  (normalize_place place <> [] -> geocode nominatim place w = (Ok v, w))
  /\ (normalize_place place = [] -> geocode nominatim place w = (Ok None, w)).
Proof.
  intros Hc. split; intros Hk.
  - now apply geocode_hit.
  - now apply geocode_no_key.
Qed.

(** C6: on a miss that reaches the geocoder, a reply with candidates binds
    the key to the point read from the first one and returns it, an empty
    reply binds the key to [None] and returns [None]; in both cases one
    request is recorded and, after any further lookups, a lookup of a text
    with the same key returns the bound value and sends nothing. *)
Theorem geocode_cache_miss (place : str) (w : world) (data : list Candidate) :
  normalize_place place <> [] ->
  cache w !! normalize_place place = None ->
  nominatim place = Ok data ->
  let v :=
    match data with
    | item :: _ => Some (mkGeoPoint (item_lat item) (item_lon item) (item_display_name item))
    | [] => None
    end in
  let w1 :=
    mkWorld (<[normalize_place place := v]> (cache w)) (geo_calls w ++ [place])
            (bitacora w) (features w) (descartados w) in
  geocode nominatim place w = (Ok v, w1)
  /\ forall (later : list str) (place' : str),
       normalize_place place' = normalize_place place ->
       let w2 := geocode_all nominatim later w1 in
       geocode nominatim place' w2 = (Ok v, w2).
Proof.
  intros Hk Hc Hd v w1. split.
  - rewrite geocode_miss by assumption. rewrite Hd.
    destruct data as [|item rest]; reflexivity.
  - intros later place' Hsame w2. apply geocode_hit; rewrite Hsame; [exact Hk|].
    apply geocode_all_keeps. subst w1. simpl. apply lookup_insert_eq.
Qed.

End Geocoder.

Lemma geocode_empty_key_witness :
  normalize_place [0x20; 0xA0; 0x09; 0x3000]%N = []
  /\ (geocode nominatim_ok [0x20; 0xA0; 0x09; 0x3000]%N world0 = (Ok None, world0)
      /\ geocode nominatim_ok [] world0 = (Ok None, world0)).
Proof.
  split; [reflexivity | apply geocode_empty_key; reflexivity].
Defined.

(** C4 as stated fails for the empty key: a cache that binds it to a point
    is not answered with that point. *)
Lemma geocode_cache_hit_counterexample :
  let w := mkWorld {[ [] := Some madrid ]} [] [] [] 0 in
  cache w !! normalize_place (text " ") = Some (Some madrid)
  /\ geocode nominatim_ok (text " ") w = (Ok None, w)
  /\ geocode nominatim_ok (text " ") w <> (Ok (Some madrid), w).
Proof.
  intros w. split; [reflexivity|]. split; [reflexivity|].
  vm_compute. discriminate.
Qed.

Lemma geocode_cache_hit_witness :
  let w := mkWorld {[ text "madrid" := Some madrid; text "atlantis" := None ]} [] [] [] 0 in
  cache w !! normalize_place (text " MADRID ") = Some (Some madrid)
  /\ geocode nominatim_down (text " MADRID ") w = (Ok (Some madrid), w).
Proof.
  intros w. split; [reflexivity|].
  apply (geocode_cache_hit nominatim_down (text " MADRID ") w (Some madrid)).
  - reflexivity.
  - vm_compute. discriminate.
Defined.

Lemma geocode_cache_miss_witness :
  normalize_place (text "Madrid") <> []
  /\ cache world0 !! normalize_place (text "Madrid") = None
  /\ geocode nominatim_ok (text "Madrid") world0
     = (Ok (Some madrid),
        mkWorld {[ text "madrid" := Some madrid ]} [text "Madrid"] [] [] 0)
  /\ geocode nominatim_ok (text " MADRID")
       (geocode_all nominatim_ok [text "Atlantis"; text "Barcelona"]
          (mkWorld {[ text "madrid" := Some madrid ]} [text "Madrid"] [] [] 0))
     = (Ok (Some madrid),
        geocode_all nominatim_ok [text "Atlantis"; text "Barcelona"]
          (mkWorld {[ text "madrid" := Some madrid ]} [text "Madrid"] [] [] 0)).
Proof.
  assert (Hk : normalize_place (text "Madrid") <> []) by (vm_compute; discriminate).
  assert (Hc : cache world0 !! normalize_place (text "Madrid") = None) by reflexivity.
  destruct (geocode_cache_miss nominatim_ok (text "Madrid") world0
              [mkCandidate 40.5 (-3.75) (Some (text "Madrid, España"))] Hk Hc eq_refl)
    as [H1 H2].
  split; [exact Hk|]. split; [exact Hc|]. split.
  - exact H1.
  - exact (H2 [text "Atlantis"; text "Barcelona"] (text " MADRID") eq_refl).
Defined.

(** ** Times *)

Section Times.

Import Py Strptime.

Context `{U : UCD}.

Lemma split_on_go_none sep s : contains sep s = false ->
  forall cur, split_on_go sep cur s = [cur ++ s].
Proof.
  induction s as [|c s IH]; simpl; intros H cur.
  - now rewrite app_nil_r.
  - apply orb_false_iff in H as [Hc Hs]. now rewrite Hc, (IH Hs), <- app_assoc.
Qed.

Lemma split_on_go_cons sep s :
  forall cur, exists p rest, split_on_go sep cur s = p :: rest.
Proof.
  induction s as [|c s IH]; simpl; intros cur; [now eauto|].
  destruct (c =? sep)%N; [now eauto | apply IH].
Qed.

Lemma split_on_go_some sep s : contains sep s = true ->
  forall cur, exists p0 p1 rest, split_on_go sep cur s = p0 :: p1 :: rest.
Proof.
  induction s as [|c s IH]; simpl; intros H cur; [discriminate|].
  destruct (c =? sep)%N eqn:Hc.
  - destruct (split_on_go_cons sep s []) as (p & rest & E).
    rewrite E. now eauto.
  - apply IH. exact H.
Qed.

Lemma contains_suffix c s r :
  contains c s = false -> suffix r s -> contains c r = false.
Proof.
  intros H [p ->]. induction p as [|a p IH]; [exact H|].
  simpl in H. apply orb_false_iff in H as [_ H]. now apply IH.
Qed.

Lemma lit_none {A} c (k : str -> option A) s :
  contains c s = false -> lit c k s = None.
Proof.
  destruct s as [|a r]; [reflexivity|]. simpl.
  intros H. apply orb_false_iff in H as [H _]. now rewrite H.
Qed.

(** A directive that fails on every rest of the text. *)
Lemma d1_none {A} p (k : nat -> str -> option A) s :
  (forall v r, suffix r s -> k v r = None) -> d1 p k s = None.
Proof.
  intros H. destruct s as [|a r]; [reflexivity|]. simpl.
  destruct (p a); [|reflexivity]. apply H. now exists [a].
Qed.

Lemma d2_none {A} p q (k : nat -> str -> option A) s :
  (forall v r, suffix r s -> k v r = None) -> d2 p q k s = None.
Proof.
  intros H. destruct s as [|a [|b r]]; try reflexivity. simpl.
  destruct (p a), (q b); try reflexivity. apply H. now exists [a; b].
Qed.

Lemma re_H_none {A} (k : nat -> str -> option A) s :
  (forall v r, suffix r s -> k v r = None) -> re_H k s = None.
Proof.
  intros H. unfold re_H. now rewrite !d2_none, d1_none.
Qed.

(** A text without a colon matches neither time format. *)
Lemma strptime_HM_colon s : contains (chr ":") s = false -> strptime_HM s = None.
Proof.
  intros H. unfold strptime_HM. rewrite re_H_none; [reflexivity|].
  intros v r Hr. apply lit_none. now apply (contains_suffix _ s).
Qed.

Lemma strptime_HMS_colon s : contains (chr ":") s = false -> strptime_HMS s = None.
Proof.
  intros H. unfold strptime_HMS. rewrite re_H_none; [reflexivity|].
  intros v r Hr. apply lit_none. now apply (contains_suffix _ s).
Qed.

End Times.

(** C7, amended: a text without a colon matches neither time format and
    [parse_hora] returns it as it is, trimmed; a text with a colon that
    matches neither format is not returned as it is but rebuilt from its
    first two fields, each filled with zeros on the left to two
    characters. *)
Theorem parse_hora_unparseable `{U : UCD} (h : option pyval) :
  let s := Py.strip (py_str h) in
  (Py.contains (chr ":") s = false ->
     strptime_HM s = None /\ strptime_HMS s = None /\ parse_hora h = s)
  /\ (Py.contains (chr ":") s = true -> strptime_HM s = None -> strptime_HMS s = None ->
      exists p0 p1 rest,
        Py.split_on (chr ":") s = p0 :: p1 :: rest
        /\ parse_hora h = Py.zfill 2 p0 ++ text ":" ++ Py.zfill 2 p1).
Proof.
  intros s. split.
  - intros H. split; [now apply strptime_HM_colon|].
    split; [now apply strptime_HMS_colon|].
    unfold parse_hora. fold s.
    rewrite (strptime_HM_colon s H), (strptime_HMS_colon s H).
    unfold Py.split_on. now rewrite (split_on_go_none _ _ H).
  - intros H H1 H2.
    destruct (split_on_go_some (chr ":") s H []) as (p0 & p1 & rest & E).
    exists p0, p1, rest. split; [exact E|].
    unfold parse_hora. fold s. rewrite H1, H2.
    unfold Py.split_on in E |- *. now rewrite E.
Qed.

(** C7 as stated fails: "9:75" matches neither format and comes back as
    "09:75". *)
Lemma parse_hora_unparseable_counterexample :
  strptime_HM (Py.strip (text "9:75")) = None
  /\ strptime_HMS (Py.strip (text "9:75")) = None
  /\ parse_hora (Some (Val (text "9:75"))) = text "09:75"
  /\ parse_hora (Some (Val (text "9:75"))) <> Py.strip (text "9:75").
Proof. repeat split; try reflexivity. vm_compute. discriminate. Qed.

Lemma parse_hora_unparseable_witness :
  Py.contains (chr ":") (Py.strip (py_str (Some (Val (text " sin hora "))))) = false
  /\ parse_hora (Some (Val (text " sin hora "))) = text "sin hora"
  /\ Py.contains (chr ":") (Py.strip (py_str (Some (Val (text "ñ:5"))))) = true
  /\ exists p0 p1 rest,
       Py.split_on (chr ":") (Py.strip (py_str (Some (Val (text "ñ:5"))))) = p0 :: p1 :: rest
       /\ parse_hora (Some (Val (text "ñ:5"))) = Py.zfill 2 p0 ++ text ":" ++ Py.zfill 2 p1.
Proof.
  split; [reflexivity|]. split.
  - apply (proj1 (parse_hora_unparseable (Some (Val (text " sin hora "))))). reflexivity.
  - split; [reflexivity|].
    apply (proj2 (parse_hora_unparseable (Some (Val (text "ñ:5"))))); reflexivity.
Defined.

(** ** The vigency check *)

Section Vigency.

Context `{U : UCD}.

Lemma date_ltb_lt a b :
  date_ltb a b = true <->
  year a < year b
  \/ (year a = year b /\ (month a < month b \/ (month a = month b /\ day a < day b))).
Proof.
  unfold date_ltb.
  rewrite !orb_true_iff, !andb_true_iff, !orb_true_iff, !andb_true_iff,
    !Nat.ltb_lt, !Nat.eqb_eq.
  tauto.
Qed.

Lemma date_ltb_asym a b : date_ltb a b = true -> date_ltb b a = false.
Proof.
  intros H. apply not_true_iff_false. intros H'.
  apply date_ltb_lt in H, H'. lia.
Qed.

Lemma date_ltb_irrefl a : date_ltb a a = false.
Proof.
  apply not_true_iff_false. intros H. apply date_ltb_lt in H. lia.
Qed.

Lemma strptime_HM_truthy s hm : strptime_HM s = Some hm -> Py.truthy s = true.
Proof. destruct s; [discriminate | reflexivity]. Qed.

End Vigency.

(** C5: a trip dated after today is accepted and a trip dated before today
    is refused, whatever its departure time; a trip dated today whose
    departure time reads as hours and minutes is refused exactly when that
    time, at second 0, is before the time of the clock. *)
Theorem viaje_vigente_window `{U : UCD} (ahora : datetime) (fecha_iso hora : str)
    (f : date) :
  strptime_Ymd fecha_iso = Some f ->
  (date_ltb (dt_date ahora) f = true -> viaje_vigente ahora fecha_iso hora = Ok true)
  /\ (date_ltb f (dt_date ahora) = true -> viaje_vigente ahora fecha_iso hora = Ok false)
  /\ (f = dt_date ahora ->
      forall h mi, strptime_HM hora = Some (h, mi) ->
        viaje_vigente ahora fecha_iso hora
        = Ok (negb (time_ltb (mkTime h mi 0 0) (dt_time ahora)))).
Proof.
  intros Hf. unfold viaje_vigente. rewrite Hf. repeat split.
  - intros H. now rewrite H.
  - intros H. now rewrite (date_ltb_asym _ _ H), H.
  - intros -> h mi Hh. rewrite date_ltb_irrefl.
    now rewrite (strptime_HM_truthy _ _ Hh), Hh.
Qed.

Lemma viaje_vigente_window_witness :
  strptime_Ymd (text "2026-02-11") = Some (mkDate 2026 2 11)
  /\ viaje_vigente ahora_ex (text "2026-02-11") (text "00:00") = Ok true
  /\ viaje_vigente ahora_ex (text "2026-02-09") (text "23:59") = Ok false
  /\ viaje_vigente ahora_ex (text "2026-02-10") (text "10:30") = Ok false
  /\ viaje_vigente ahora_ex (text "2026-02-10") (text "10:31") = Ok true.
Proof.
  split; [reflexivity|]. split.
  - apply (proj1 (viaje_vigente_window ahora_ex (text "2026-02-11") (text "00:00")
                    (mkDate 2026 2 11) eq_refl)). reflexivity.
  - split.
    + apply (proj1 (proj2 (viaje_vigente_window ahora_ex (text "2026-02-09")
                             (text "23:59") (mkDate 2026 2 9) eq_refl))). reflexivity.
    + split.
      * apply (proj2 (proj2 (viaje_vigente_window ahora_ex (text "2026-02-10")
                               (text "10:30") (mkDate 2026 2 10) eq_refl))
                 eq_refl 10 30 eq_refl).
      * apply (proj2 (proj2 (viaje_vigente_window ahora_ex (text "2026-02-10")
                               (text "10:31") (mkDate 2026 2 10) eq_refl))
                 eq_refl 10 31 eq_refl).
Defined.

(** ** The date survives its ISO form *)

Section IsoRoundTrip.

Import Strptime.

Context `{U : UCD}.

Lemma digit_char_decimal n : n < 10 -> digit (digit_char n) = Some n.
Proof. intros H. do 10 (destruct n as [|n]; [reflexivity|]). lia. Qed.

Lemma d2_digits {A} (k : nat -> str -> option A) a b r :
  a < 10 -> b < 10 ->
  d2 digit digit k (digit_char a :: digit_char b :: r) = k (10 * a + b) r.
Proof.
  intros Ha Hb. unfold d2.
  now rewrite !digit_char_decimal by assumption.
Qed.

Lemma re_Y_pad4 {A} (k : nat -> str -> option A) y rest :
  y <= MAXYEAR -> re_Y k (pad4 y ++ rest) = k y rest.
Proof.
  unfold MAXYEAR. intros Hy. unfold re_Y, pad4. cbn [app].
  rewrite d2_digits by (try apply Nat.mod_upper_bound; try apply Nat.Div0.div_lt_upper_bound; lia).
  rewrite d2_digits by (apply Nat.mod_upper_bound; lia).
  f_equal.
  pose proof (Nat.div_mod_eq y 10). pose proof (Nat.div_mod_eq (y / 10) 10).
  pose proof (Nat.div_mod_eq (y / 100) 10).
  assert (y / 100 = y / 10 / 10) by (now rewrite Nat.Div0.div_div).
  assert (y / 1000 = y / 100 / 10) by (now rewrite Nat.Div0.div_div).
  assert (y / 1000 < 10) by (apply Nat.Div0.div_lt_upper_bound; lia).
  assert (y / 100 mod 10 = y / 100 - 10 * (y / 1000)) by lia.
  lia.
Qed.

Lemma month_day_round_trip y m dd :
  1 <= m <= 12 -> 1 <= dd <= 31 ->
  whole (lit (chr "-") (re_m (fun mo => lit (chr "-") (re_d (fun d rest =>
           Some (mkDate y mo d, rest)))))
         (text "-" ++ pad2 m ++ text "-" ++ pad2 dd))
  = Some (mkDate y m dd).
Proof.
  intros Hm Hd.
  destruct m as [|m]; [lia|]. destruct dd as [|dd]; [lia|].
  do 12 (destruct m as [|m];
         [do 31 (destruct dd as [|dd]; [reflexivity|]); lia|]).
  lia.
Qed.

Lemma days_in_month_le y m : days_in_month y m <= 31.
Proof.
  unfold days_in_month.
  do 12 (destruct m as [|m]; [try destruct (is_leap y); lia|]). lia.
Qed.

Lemma strptime_Ymd_isoformat d :
  valid_date d = true -> strptime_Ymd (isoformat d) = Some d.
Proof.
  intros Hv. pose proof Hv as Hv'. unfold valid_date in Hv'.
  rewrite !andb_true_iff, !Nat.leb_le in Hv'.
  destruct Hv' as (((((Hy1 & Hy2) & Hm1) & Hm2) & Hd1) & Hd2).
  pose proof (days_in_month_le (year d) (month d)).
  unfold strptime_Ymd, isoformat.
  rewrite re_Y_pad4 by assumption.
  rewrite month_day_round_trip by lia.
  destruct d as [y m dd]. simpl in *. now rewrite Hv.
Qed.

End IsoRoundTrip.

(** ** The stops of a row *)

Section Stops.

Import Py.

Context `{U : UCD}.

Lemma rstrip_idem s : rstrip (rstrip s) = rstrip s.
Proof.
  induction s as [|c s IH]; simpl; [reflexivity|].
  destruct (rstrip s) as [|a r] eqn:E.
  - destruct (isspace c) eqn:Hc; simpl; [reflexivity | now rewrite Hc].
  - change (rstrip (c :: a :: r)) with
      (match rstrip (a :: r) with
       | [] => if isspace c then [] else [c]
       | r' => c :: r'
       end).
    now rewrite IH.
Qed.

Lemma lstrip_head s :
  lstrip s = [] \/ exists c r, lstrip s = c :: r /\ isspace c = false.
Proof.
  induction s as [|c s IH]; simpl; [now left|].
  destruct (isspace c) eqn:Hc; [exact IH | right; now eauto].
Qed.

Lemma rstrip_head c r : isspace c = false -> exists r', rstrip (c :: r) = c :: r'.
Proof.
  intros Hc. simpl. destruct (rstrip r); [rewrite Hc|]; now eauto.
Qed.

Lemma strip_idem s : strip (strip s) = strip s.
Proof.
  unfold strip. destruct (lstrip_head s) as [E | (c & r & E & Hc)]; rewrite E.
  - reflexivity.
  - destruct (rstrip_head c r Hc) as (r' & E'). rewrite E'.
    simpl lstrip. rewrite Hc. rewrite <- E'. apply rstrip_idem.
Qed.

(** A text read by [get_text], when not empty, passes the filter of step 5. *)
Lemma get_text_keep (row : Row) col :
  truthy (get_text row col) = true -> keep_stop (get_text row col) = true.
Proof.
  unfold get_text, keep_stop.
  destruct (row !! col) as [[|v]|]; simpl; try discriminate.
  destruct (truthy (strip v)) eqn:Ht; simpl; [|discriminate].
  destruct (eqb (lower (strip v)) (text "nan")) eqn:Hn; simpl; [discriminate|].
  intros _. now rewrite strip_idem, Ht, Hn.
Qed.

Lemma last_item_snoc l x : last_item (l ++ [x]) = Ok x.
Proof.
  destruct l as [|a l]; [reflexivity|]. simpl. f_equal. apply last_last.
Qed.

Lemma inner_items_shape x mid y : inner_items (x :: mid ++ [y]) = mid.
Proof. unfold inner_items. simpl. apply removelast_last. Qed.

(** The list built at step 5 from the texts of a row. *)
Lemma build_stops_shape (row : Row) :
  let origen := get_text row ORIGEN_COL in
  let destino := get_text row DESTINO_COL in
  let p1 := get_text row PARADA1_COL in
  let p2 := get_text row PARADA2_COL in
  truthy origen = true -> truthy destino = true ->
  build_stops origen p1 p2 destino
  = origen :: ((if truthy p1 then [p1] else []) ++ (if truthy p2 then [p2] else []))
           ++ [destino].
Proof.
  intros origen destino p1 p2 Ho Hd. unfold build_stops.
  cbn [app List.filter].
  pose proof (get_text_keep row ORIGEN_COL Ho) as Ko. fold origen in Ko.
  pose proof (get_text_keep row DESTINO_COL Hd) as Kd. fold destino in Kd.
  rewrite Ko. f_equal.
  rewrite <- app_assoc, !List.filter_app. cbn [List.filter]. rewrite Kd.
  f_equal; [|f_equal].
  - destruct (truthy p1) eqn:H1; [|reflexivity].
    pose proof (get_text_keep row PARADA1_COL H1) as K1. fold p1 in K1.
    cbn [List.filter]. now rewrite K1.
  - destruct (truthy p2) eqn:H2; [|reflexivity].
    pose proof (get_text_keep row PARADA2_COL H2) as K2. fold p2 in K2.
    cbn [List.filter]. now rewrite K2.
Qed.

End Stops.

(** ** The row loop *)

Section Loop.

Context `{U : UCD}.

Variable nominatim : str -> outcome (list Candidate).
Variable osrm : nat -> list (float * float) -> outcome (list Route).
Variable reloj : nat -> datetime.

Lemma same_counters_refl w : same_counters w w.
Proof. now split. Qed.

Lemma same_counters_trans w1 w2 w3 :
  same_counters w1 w2 -> same_counters w2 w3 -> same_counters w1 w3.
Proof. unfold same_counters. intros [] []. split; congruence. Qed.

Lemma bind_ok {A B} (m : M A) (k : A -> M B) w a w' :
  m w = (Ok a, w') -> bind m k w = k a w'.
Proof. intros H. unfold bind. now rewrite H. Qed.

Lemma bind_raise {A B} (m : M A) (k : A -> M B) w e w' :
  m w = (Raise e, w') -> bind m k w = (Raise e, w').
Proof. intros H. unfold bind. now rewrite H. Qed.

(** The path of a trip is always built: it is the first route of the
    provider, or the straight line through the points. *)
Lemma route_geometry_spec i vid stops_geo w :
  exists g w',
    route_geometry osrm i vid stops_geo w = (Ok g, w')
    /\ same_counters w w'
    /\ (g = linestring stops_geo
        \/ exists rest, osrm i (lonlat stops_geo) = Ok (Ok (Some g) :: rest)).
Proof.
  unfold route_geometry, obtener_ruta_osrm_multi.
  destruct (osrm i (lonlat stops_geo)) as [[|[[g|]|e'] rest]|e] eqn:E; run_monad;
    eexists _, _; (split; [reflexivity|]); (split; [now split|]); eauto.
Qed.

Lemma geocode_counters place w :
  same_counters w (snd (geocode nominatim place w)).
Proof.
  destruct (decide (normalize_place place = [])) as [Hk|Hk].
  { rewrite geocode_no_key by assumption. apply same_counters_refl. }
  destruct (cache w !! normalize_place place) as [v|] eqn:Hc.
  { rewrite (geocode_hit _ _ _ v) by assumption. apply same_counters_refl. }
  rewrite geocode_miss by assumption.
  destruct (nominatim place) as [[|item rest]|e]; now split.
Qed.

(** [geocode] raises only what the geocoder raises. *)
Lemma geocode_raises place w e w' :
  geocode nominatim place w = (Raise e, w') -> nominatim place = Raise e.
Proof.
  destruct (decide (normalize_place place = [])) as [Hk|Hk].
  { rewrite geocode_no_key by assumption. discriminate. }
  destruct (cache w !! normalize_place place) as [v|] eqn:Hc.
  { rewrite (geocode_hit _ _ _ v) by assumption. discriminate. }
  rewrite geocode_miss by assumption.
  destruct (nominatim place) as [[|item rest]|e']; congruence.
Qed.

Lemma geocode_stops_spec vid all pending : forall acc w,
  match geocode_stops nominatim vid all pending acc w with
  | (Ok (Some l), w') => length l = length acc + length pending /\ same_counters w w'
  | (Ok None, w') => same_counters w w'
  | (Raise e, w') => same_counters w w' /\ exists q, nominatim q = Raise e
  end.
Proof.
  induction pending as [|s pending IH]; intros acc w; simpl.
  - run_monad. split; [lia | apply same_counters_refl].
  - pose proof (geocode_counters s w) as Hc.
    destruct (geocode nominatim s w) as [[[p|]|e] w1] eqn:Hg; simpl in Hc.
    + rewrite (bind_ok _ _ _ _ _ Hg).
      specialize (IH (acc ++ [p]) w1).
      destruct (geocode_stops nominatim vid all pending (acc ++ [p]) w1)
        as [[[l|]|e] w2].
      * destruct IH as [Hl Hs]. rewrite length_app in Hl. simpl in Hl.
        split; [lia | eapply same_counters_trans; eassumption].
      * eapply same_counters_trans; eassumption.
      * destruct IH as [Hs Hq]. split; [|exact Hq].
        eapply same_counters_trans; eassumption.
    + rewrite (bind_ok _ _ _ _ _ Hg). run_monad. exact Hc.
    + rewrite (bind_raise _ _ _ _ _ Hg). split; [exact Hc|].
      exists s. eapply geocode_raises. exact Hg.
Qed.

Lemma parse_fecha_ok v s : parse_fecha v = Ok s -> exists d, strptime_Ymd s = Some d.
Proof.
  unfold parse_fecha, strptime_dmY.
  destruct (Strptime.whole _) as [d|]; [|discriminate].
  destruct (valid_date d) eqn:Hv; [|discriminate].
  intros [= <-]. exists d. now apply strptime_Ymd_isoformat.
Qed.

Lemma viaje_vigente_total ahora fecha_iso hs d :
  strptime_Ymd fecha_iso = Some d -> exists b, viaje_vigente ahora fecha_iso hs = Ok b.
Proof.
  intros H. unfold viaje_vigente. rewrite H.
  repeat match goal with
         | |- context [if ?c then _ else _] => destruct c
         | |- context [match ?c with Some _ => _ | None => _ end] => destruct c as [[]|]
         end; eauto.
Qed.

(** The feature of a trip with its stops [x], [mid], [y]. *)
Lemma build_feature_route_spec i vid fe hs hl x mid y stops_geo w :
  exists g w',
    build_feature_route osrm i vid fe hs hl (x :: mid ++ [y]) stops_geo w
    = (Ok (mkFeature g
            (mkProperties (x ++ text " → " ++ y ++ text " (" ++ hs ++ text "-" ++ hl ++ text ")")
               vid fe hs hl x y (Py.join (text " | ") mid) (length mid))), w')
    /\ same_counters w w'
    /\ (g = linestring stops_geo
        \/ exists rest, osrm i (lonlat stops_geo) = Ok (Ok (Some g) :: rest)).
Proof.
  destruct (route_geometry_spec i vid stops_geo w) as (g & w' & Hg & Hs & Hor).
  exists g, w'. split; [|now split].
  unfold build_feature_route. rewrite (bind_ok _ _ _ _ _ Hg).
  rewrite inner_items_shape.
  unfold bind at 1. unfold lift at 1. cbn [first_item].
  change (x :: mid ++ [y]) with ((x :: mid) ++ [y]).
  unfold bind at 1. unfold lift at 1. rewrite last_item_snoc.
  destruct mid; reflexivity.
Qed.

(** One turn of the loop: the row is discarded, or it adds one feature, or
    an exception leaves the loop with the counters as they were; the
    exception is the [ValueError] of the date or comes from the geocoder. *)
Lemma main_body_spec i (row : Row) w :
  match main_body nominatim osrm reloj i row w with
  | (Ok _, w') =>
      (features w' = features w /\ descartados w' = S (descartados w))
      \/ (exists f, features w' = features w ++ [f]
                    /\ descartados w' = descartados w /\ emitted osrm i f)
  | (Raise e, w') =>
      same_counters w w'
      /\ ((Py.truthy (get_text row DESTINO_COL) = true
           /\ Py.truthy (get_text row ORIGEN_COL) = true
           /\ parse_fecha (row !! FECHA_COL) = Raise e)
          \/ exists q, nominatim q = Raise e)
  end.
Proof.
  unfold main_body.
  destruct (Py.truthy (get_text row DESTINO_COL)) eqn:Hd; cbn [negb];
    [|run_monad; now left].
  destruct (Py.truthy (get_text row ORIGEN_COL)) eqn:Ho; cbn [negb];
    [|run_monad; now left].
  destruct (parse_fecha (row !! FECHA_COL)) as [fecha_iso|e] eqn:Hf;
    [|run_monad; split; [apply same_counters_refl | now left]].
  unfold bind at 1. unfold lift at 1.
  destruct (Py.truthy (get_text row "viaje_id")) eqn:Hv; cbn [negb];
    [|run_monad; now left].
  destruct (parse_fecha_ok _ _ Hf) as [d Hd'].
  destruct (viaje_vigente_total (reloj i) fecha_iso (parse_hora (row !! SALIDA_COL)) d Hd')
    as [b Hb].
  rewrite Hb. unfold bind at 1. unfold lift at 1.
  destruct b; cbn [negb]; [|run_monad; now left].
  rewrite (build_stops_shape row Ho Hd).
  set (mid := (if Py.truthy (get_text row PARADA1_COL) then _ else _) ++ _).
  assert (Hmid : length mid <= 2).
  { subst mid. destruct (Py.truthy (get_text row PARADA1_COL));
      destruct (Py.truthy (get_text row PARADA2_COL)); simpl; lia. }
  set (stops := get_text row ORIGEN_COL :: mid ++ [get_text row DESTINO_COL]).
  pose proof (geocode_stops_spec (get_text row "viaje_id") stops stops [] w) as Hg.
  destruct (geocode_stops nominatim (get_text row "viaje_id") stops stops [] w)
    as [[[stops_geo|]|e] w1] eqn:Eg.
  - rewrite (bind_ok _ _ _ _ _ Eg). destruct Hg as [Hl [Hs1 Hs2]].
    subst stops.
    destruct (build_feature_route_spec i (get_text row "viaje_id") fecha_iso
                (parse_hora (row !! SALIDA_COL)) (parse_hora (row !! LLEGADA_COL))
                (get_text row ORIGEN_COL) mid (get_text row DESTINO_COL) stops_geo w1)
      as (g & w2 & Hb2 & [Hs3 Hs4] & Hor).
    rewrite (bind_ok _ _ _ _ _ Hb2). run_monad. right.
    eexists. split; [now rewrite Hs3, Hs1|]. split; [congruence|].
    split; [exact Hmid|]. exists stops_geo. split.
    + rewrite Hl. simpl. rewrite length_app. simpl. lia.
    + exact Hor.
  - rewrite (bind_ok _ _ _ _ _ Eg). run_monad. left.
    destruct Hg as [Hs1 Hs2]. now rewrite Hs1, Hs2.
  - rewrite (bind_raise _ _ _ _ _ Eg). destruct Hg as [Hs Hq].
    split; [exact Hs | now right].
Qed.

End Loop.

Section Run.

Context `{U : UCD}.

Variable nominatim : str -> outcome (list Candidate).
Variable osrm : nat -> list (float * float) -> outcome (list Route).
Variable reloj : nat -> datetime.

Lemma geocode_stops_app vid all pre : forall rest acc w pts w1,
  geocode_stops nominatim vid all pre acc w = (Ok (Some pts), w1) ->
  geocode_stops nominatim vid all (pre ++ rest) acc w
  = geocode_stops nominatim vid all rest pts w1.
Proof.
  induction pre as [|s pre IH]; intros rest acc w pts w1; simpl.
  - run_monad. now intros [= <- <-].
  - destruct (geocode nominatim s w) as [[[p|]|e] w'] eqn:Hg.
    + rewrite !(bind_ok _ _ _ _ _ Hg). apply IH.
    + rewrite (bind_ok _ _ _ _ _ Hg). run_monad. discriminate.
    + rewrite (bind_raise _ _ _ _ _ Hg). discriminate.
Qed.

(** The loop stops at the first row whose turn raises. *)
Lemma main_loop_raise i row rest w e w' :
  main_body nominatim osrm reloj i row w = (Raise e, w') ->
  main_loop nominatim osrm reloj i (row :: rest) w = (Raise e, w').
Proof. intros H. simpl. now rewrite (bind_raise _ _ _ _ _ H). Qed.

Lemma main_loop_app i a b w :
  main_loop nominatim osrm reloj i (a ++ b) w
  = match main_loop nominatim osrm reloj i a w with
    | (Ok _, w') => main_loop nominatim osrm reloj (i + length a) b w'
    | (Raise e, w') => (Raise e, w')
    end.
Proof.
  revert i w. induction a as [|row a IH]; intros i w; simpl.
  - run_monad. now rewrite Nat.add_0_r.
  - unfold bind.
    destruct (main_body nominatim osrm reloj i row w) as [[[]|e] w1]; [|reflexivity].
    rewrite IH. now replace (S i + length a) with (i + S (length a)) by lia.
Qed.

(** Every row of a finished loop is counted once, as a feature or as a
    discarded row, and the features added are features of their rows. *)
Lemma main_loop_spec rows : forall i w u w',
  main_loop nominatim osrm reloj i rows w = (Ok u, w') ->
  length (features w') + descartados w'
  = length (features w) + descartados w + length rows
  /\ exists fs, features w' = features w ++ fs
               /\ Forall (fun f => exists j, emitted osrm j f) fs.
Proof.
  induction rows as [|row rows IH]; intros i w u w'; simpl.
  - run_monad. intros [= _ <-]. split; [lia|]. exists []. now rewrite app_nil_r.
  - pose proof (main_body_spec nominatim osrm reloj i row w) as Hb.
    unfold bind at 1.
    destruct (main_body nominatim osrm reloj i row w) as [[[]|e] w1];
      [|discriminate].
    intros Hl. destruct (IH _ _ _ _ Hl) as (Hn & fs & Hfs & Hall).
    destruct Hb as [[Hf Hd] | (f & Hf & Hd & He)].
    + split; [rewrite Hn, Hf, Hd; lia|]. exists fs. now rewrite Hfs, Hf.
    + split; [rewrite Hn, Hf, Hd, length_app; simpl; lia|].
      exists (f :: fs). split; [now rewrite Hfs, Hf, <- app_assoc|].
      constructor; [now exists i | exact Hall].
Qed.

(** With a geocoder that answers and dates that read, a turn ends. *)
Lemma main_body_ends i (row : Row) w :
  (forall q, exists data, nominatim q = Ok data) ->
  row_dated row = true ->
  exists w', main_body nominatim osrm reloj i row w = (Ok tt, w').
Proof.
  intros Hn Hr. pose proof (main_body_spec nominatim osrm reloj i row w) as Hb.
  destruct (main_body nominatim osrm reloj i row w) as [[[]|e] w1]; [now eauto|].
  exfalso. destruct Hb as [_ [(Hd & Ho & Hf) | (q & Hq)]].
  - unfold row_dated in Hr. rewrite Hd, Ho in Hr. simpl in Hr.
    unfold parse_fecha in Hf.
    destruct (strptime_dmY (Py.strip (py_str (row !! FECHA_COL)))); discriminate.
  - destruct (Hn q) as [data Hq']. congruence.
Qed.

Lemma main_loop_ends rows : forall i w,
  (forall q, exists data, nominatim q = Ok data) ->
  forallb row_dated rows = true ->
  exists w', main_loop nominatim osrm reloj i rows w = (Ok tt, w').
Proof.
  induction rows as [|row rows IH]; intros i w Hn Hr; simpl.
  - run_monad. now eauto.
  - simpl in Hr. apply andb_true_iff in Hr as [Hr1 Hr2].
    destruct (main_body_ends i row w Hn Hr1) as [w1 H1].
    rewrite (bind_ok _ _ _ _ _ H1). now apply IH.
Qed.

(** A point returned by [geocode] is bound to the key in the cache. *)
Lemma geocode_some_cached place w p w1 :
  geocode nominatim place w = (Ok (Some p), w1) ->
  normalize_place place <> []
  /\ cache w1 !! normalize_place place = Some (Some p).
Proof.
  intros Hg.
  destruct (decide (normalize_place place = [])) as [Hk|Hk].
  { rewrite geocode_no_key in Hg by assumption. discriminate. }
  split; [exact Hk|]. revert Hg.
  destruct (cache w !! normalize_place place) as [v|] eqn:Hc.
  { rewrite (geocode_hit _ _ _ v) by assumption. now intros [= -> <-]. }
  rewrite geocode_miss by assumption.
  destruct (nominatim place) as [[|item rest]|e]; try discriminate.
  intros [= <- <-]. simpl. apply lookup_insert_eq.
Qed.

(** The points of a trip are those of its stops, in the order of the stops. *)
Lemma geocode_stops_points vid all pending : forall acc w l w',
  geocode_stops nominatim vid all pending acc w = (Ok (Some l), w') ->
  (forall k v, cache w !! k = Some v -> cache w' !! k = Some v)
  /\ exists pts,
       l = acc ++ pts
       /\ Forall2 (fun s p => normalize_place s <> []
                              /\ cache w' !! normalize_place s = Some (Some p))
            pending pts.
Proof.
  induction pending as [|s pending IH]; intros acc w l w'; simpl.
  - run_monad. intros [= <- <-]. split; [auto|].
    exists []. split; [now rewrite app_nil_r | constructor].
  - destruct (geocode nominatim s w) as [[[p|]|e] w1] eqn:Hg.
    + rewrite (bind_ok _ _ _ _ _ Hg). intros Hl.
      destruct (IH _ _ _ _ Hl) as (Hmono & pts & -> & Hall).
      destruct (geocode_some_cached _ _ _ _ Hg) as [Hk Hc].
      split.
      * intros k v Hv. apply Hmono.
        pose proof (geocode_keeps nominatim s w k v Hv) as Hkeep.
        now rewrite Hg in Hkeep.
      * exists (p :: pts). split; [now rewrite <- app_assoc|].
        constructor; [|exact Hall]. split; [exact Hk | now apply Hmono].
    + rewrite (bind_ok _ _ _ _ _ Hg). run_monad. discriminate.
    + rewrite (bind_raise _ _ _ _ _ Hg). discriminate.
Qed.

(** A row with origin and destination whose date does not read makes its
    turn raise [ValueError], with nothing changed. *)
Lemma main_body_bad_date i (row : Row) w :
  Py.truthy (get_text row DESTINO_COL) = true ->
  Py.truthy (get_text row ORIGEN_COL) = true ->
  strptime_dmY (Py.strip (py_str (row !! FECHA_COL))) = None ->
  main_body nominatim osrm reloj i row w = (Raise ValueError, w).
Proof.
  intros Hd Ho Hf. unfold main_body. rewrite Hd, Ho. cbn [negb].
  unfold parse_fecha. now rewrite Hf.
Qed.

End Run.

(** ** Errors of the geocoder *)

(** C1, amended: when the lookup of a stop of an accepted trip reaches the
    geocoder and the request raises, [geocode] lets the exception through
    with nothing bound to the key, and no handler of the loop catches it:
    the loop ends at that row with that exception, whatever rows follow;
    the row is not counted as discarded and adds no feature. *)
Theorem geocode_error_aborts `{U : UCD}
    (nominatim : str -> outcome (list Candidate))
    (osrm : nat -> list (float * float) -> outcome (list Route))
    (reloj : nat -> datetime)
    (i : nat) (row : Row) (rest : list Row) (w w1 : world)
    (fecha_iso : str) (pre post : list str) (s : str)
    (pts : list GeoPoint) (e : exn) :
  Py.truthy (get_text row DESTINO_COL) = true ->
  Py.truthy (get_text row ORIGEN_COL) = true ->
  parse_fecha (row !! FECHA_COL) = Ok fecha_iso ->
  Py.truthy (get_text row "viaje_id") = true ->
  viaje_vigente (reloj i) fecha_iso (parse_hora (row !! SALIDA_COL)) = Ok true ->
  build_stops (get_text row ORIGEN_COL) (get_text row PARADA1_COL)
    (get_text row PARADA2_COL) (get_text row DESTINO_COL) = pre ++ s :: post ->
  geocode_stops nominatim (get_text row "viaje_id") (pre ++ s :: post) pre [] w
  = (Ok (Some pts), w1) ->
  normalize_place s <> [] ->
  cache w1 !! normalize_place s = None ->
  nominatim s = Raise e ->
  geocode nominatim s w1 = (Raise e, record_call s w1)
  /\ main_loop nominatim osrm reloj i (row :: rest) w = (Raise e, record_call s w1)
  /\ cache (record_call s w1) !! normalize_place s = None
  /\ descartados (record_call s w1) = descartados w
  /\ features (record_call s w1) = features w.
Proof.
  intros Hd Ho Hf Hv Hvig Hstops Hpre Hk Hc He.
  assert (Hg : geocode nominatim s w1 = (Raise e, record_call s w1)).
  { rewrite geocode_miss by assumption. now rewrite He. }
  split; [exact Hg|]. split.
  - apply main_loop_raise. unfold main_body.
    rewrite Hd, Ho. cbn [negb]. rewrite Hf.
    unfold bind at 1. unfold lift at 1. rewrite Hv. cbn [negb]. rewrite Hvig.
    unfold bind at 1. unfold lift at 1. cbn [negb]. rewrite Hstops.
    apply bind_raise.
    rewrite (geocode_stops_app nominatim _ _ pre (s :: post) [] w pts w1 Hpre).
    simpl. now apply bind_raise.
  - split; [exact Hc|].
    pose proof (geocode_stops_spec nominatim (get_text row "viaje_id")
                  (pre ++ s :: post) pre [] w) as Hs.
    rewrite Hpre in Hs. destruct Hs as [_ [Hs1 Hs2]]. now split.
Qed.

(** C1 as stated fails: the geocoder fails on the second stop of the first
    row; the run ends with the exception, no row is counted as discarded
    and the second row is never read. *)
Lemma geocode_error_aborts_counterexample :
  main nominatim_flaky osrm_no_route reloj_ex ∅ [fila_T1; fila_sin_destino]
  = (Raise RequestException,
     mkWorld {[ text "madrid" := Some madrid ]} [text "Madrid"; text "Barcelona"] [] [] 0)
  /\ forall fs w, main nominatim_flaky osrm_no_route reloj_ex ∅ [fila_T1; fila_sin_destino]
                  <> (Ok (fs, 2), w).
Proof.
  assert (H : main nominatim_flaky osrm_no_route reloj_ex ∅ [fila_T1; fila_sin_destino]
              = (Raise RequestException,
                 mkWorld {[ text "madrid" := Some madrid ]}
                   [text "Madrid"; text "Barcelona"] [] [] 0))
    by (vm_compute; reflexivity).
  split; [exact H|]. intros fs w. rewrite H. discriminate.
Qed.

Lemma geocode_error_aborts_witness :
  main_loop nominatim_flaky osrm_no_route reloj_ex 0 [fila_T1; fila_sin_destino] world0
  = (Raise RequestException,
     record_call (text "Barcelona")
       (mkWorld {[ text "madrid" := Some madrid ]} [text "Madrid"] [] [] 0)).
Proof.
  refine (proj1 (proj2 (geocode_error_aborts nominatim_flaky osrm_no_route reloj_ex
            0 fila_T1 [fila_sin_destino] world0
            (mkWorld {[ text "madrid" := Some madrid ]} [text "Madrid"] [] [] 0)
            (text "2026-02-18") [text "Madrid"] [] (text "Barcelona") [madrid] RequestException
            _ _ _ _ _ _ _ _ _ _))); try (vm_compute; reflexivity).
  vm_compute. discriminate.
Defined.

(** ** What ends a run *)

(** C2, amended: when the geocoder answers every query and every row that
    has origin and destination carries a date that reads, the loop goes
    through all the rows however many are discarded, and each row is
    counted once, as a feature or as a discarded row. A row with origin
    and destination whose date does not read is not discarded: its
    [ValueError] ends the run at that row. *)
Theorem main_rejections_not_fatal `{U : UCD}
    (nominatim : str -> outcome (list Candidate))
    (osrm : nat -> list (float * float) -> outcome (list Route))
    (reloj : nat -> datetime)
    (cache0 : gmap str (option GeoPoint)) (rows : list Row) :
  (forall q, exists data, nominatim q = Ok data) ->
  forallb row_dated rows = true ->
  (exists fs n w',
     main nominatim osrm reloj cache0 rows = (Ok (fs, n), w')
     /\ length fs + n = length rows)
  /\ forall (row : Row) (rest : list Row),
       Py.truthy (get_text row DESTINO_COL) = true ->
       Py.truthy (get_text row ORIGEN_COL) = true ->
       strptime_dmY (Py.strip (py_str (row !! FECHA_COL))) = None ->
       fst (main nominatim osrm reloj cache0 (rows ++ row :: rest)) = Raise ValueError.
Proof.
  intros Hn Hr.
  destruct (main_loop_ends nominatim osrm reloj rows 0 (mkWorld cache0 [] [] [] 0) Hn Hr)
    as [w' Hl].
  split.
  - unfold main. rewrite Hl. run_monad.
    eexists _, _, _. split; [reflexivity|].
    destruct (main_loop_spec nominatim osrm reloj rows _ _ _ _ Hl) as [Hc _].
    simpl in Hc. lia.
  - intros row rest Hd Ho Hf. unfold main. rewrite main_loop_app, Hl.
    rewrite (main_loop_raise nominatim osrm reloj _ row rest w' ValueError w');
      [reflexivity|].
    now apply main_body_bad_date.
Qed.

(** C2 as stated fails: the first row has a date in another format; the
    run ends with [ValueError] and the second row, a valid trip, is never
    read. *)
Lemma main_rejections_not_fatal_counterexample :
  get_text fila_mala_fecha "viaje_id" = text "T4"
  /\ main nominatim_ok osrm_no_route reloj_ex ∅ [fila_mala_fecha; fila_T1]
     = (Raise ValueError, world0)
  /\ fst (main nominatim_ok osrm_no_route reloj_ex ∅ [fila_T1])
     = Ok ([mkFeature
              (mkGeometry (text "LineString")
                 [((-3.75)%float, 40.5%float); (2.125%float, 41.375%float)])
              (mkProperties (text "Madrid → Barcelona (09:05-11:00)") (text "T1")
                 (text "2026-02-18")
                 (text "09:05") (text "11:00") (text "Madrid") (text "Barcelona") [] 0)], 0).
Proof. repeat split; vm_compute; reflexivity. Qed.

Lemma nominatim_ok_answers q : exists data, nominatim_ok q = Ok data.
Proof.
  unfold nominatim_ok.
  destruct (Py.eqb q (text "Madrid")); [now eauto|].
  destruct (Py.eqb q (text "Barcelona")); now eauto.
Qed.

Lemma main_rejections_not_fatal_witness :
  (exists fs n w',
     main nominatim_ok osrm_down reloj_ex ∅ [fila_sin_destino; fila_T1; fila_sin_destino]
     = (Ok (fs, n), w') /\ length fs + n = 3)
  /\ fst (main nominatim_ok osrm_down reloj_ex ∅
            ([fila_sin_destino; fila_T1; fila_sin_destino] ++ fila_mala_fecha :: [fila_T2]))
     = Raise ValueError.
Proof.
  destruct (main_rejections_not_fatal nominatim_ok osrm_down reloj_ex ∅
              [fila_sin_destino; fila_T1; fila_sin_destino]
              nominatim_ok_answers eq_refl) as [H1 H2].
  split; [exact H1|].
  apply (H2 fila_mala_fecha [fila_T2]); reflexivity.
Defined.

(** ** The fallback path *)

(** C3: the points of a trip whose stops all have coordinates are the
    points bound to the stops, in the order of the stops; when the routing
    request for them raises, or answers with no route or with a first
    route whose geometry is [null] or missing, the path of the trip is the
    [LineString] of
    these points as [[lon, lat]] pairs in that order; building it raises
    nothing, and the feature of the trip carries it. *)
Theorem route_fallback `{U : UCD}
    (nominatim : str -> outcome (list Candidate))
    (osrm : nat -> list (float * float) -> outcome (list Route))
    (i : nat) (viaje_id fecha hora_salida hora_llegada : str)
    (stops_txt : list str) (stops_geo : list GeoPoint) (w0 w : world) :
  stops_txt <> [] ->
  geocode_stops nominatim viaje_id stops_txt stops_txt [] w0 = (Ok (Some stops_geo), w) ->
  ((exists e, osrm i (lonlat stops_geo) = Raise e)
   \/ osrm i (lonlat stops_geo) = Ok []
   \/ (exists rest, osrm i (lonlat stops_geo) = Ok (Ok None :: rest))
   \/ exists e rest, osrm i (lonlat stops_geo) = Ok (Raise e :: rest)) ->
  Forall2 (fun s p => normalize_place s <> []
                      /\ cache w !! normalize_place s = Some (Some p))
    stops_txt stops_geo
  /\ (exists w',
        route_geometry osrm i viaje_id stops_geo w
        = (Ok (mkGeometry (text "LineString") (map (fun p => (lon p, lat p)) stops_geo)), w')
        /\ cache w' = cache w /\ features w' = features w
        /\ descartados w' = descartados w)
  /\ (exists f w',
        build_feature_route osrm i viaje_id fecha hora_salida hora_llegada
          stops_txt stops_geo w = (Ok f, w')
        /\ geometry f
           = mkGeometry (text "LineString") (map (fun p => (lon p, lat p)) stops_geo)).
Proof.
  intros Hne Hgeo H.
  assert (Hg : exists w',
             route_geometry osrm i viaje_id stops_geo w = (Ok (linestring stops_geo), w')
             /\ cache w' = cache w /\ features w' = features w
             /\ descartados w' = descartados w).
  { unfold route_geometry, obtener_ruta_osrm_multi.
    destruct H as [[e H] | [H | [[rest H] | (e & rest & H)]]]; rewrite H;
      run_monad; eexists; repeat split. }
  split; [|split; [exact Hg|]].
  - destruct (geocode_stops_points nominatim _ _ _ _ _ _ _ Hgeo) as (_ & pts & -> & Hall).
    exact Hall.
  - destruct Hg as (w' & Hg & _).
    unfold build_feature_route. rewrite (bind_ok _ _ _ _ _ Hg).
    destruct stops_txt as [|x l]; [congruence|].
    run_monad. eexists _, _. split; reflexivity.
Qed.

Lemma route_fallback_witness :
  exists f w',
    build_feature_route osrm_down 0 (text "T1") (text "2026-02-18") (text "09:05") (text "11:00")
      [text "Madrid"; text "Barcelona"] [madrid; barcelona]
      (mkWorld {[ text "barcelona" := Some barcelona; text "madrid" := Some madrid ]}
         [text "Madrid"; text "Barcelona"] [] [] 0) = (Ok f, w')
    /\ geometry f
       = mkGeometry (text "LineString") [((-3.75)%float, 40.5%float); (2.125%float, 41.375%float)].
Proof.
  refine (proj2 (proj2 (route_fallback nominatim_ok osrm_down 0 (text "T1") (text "2026-02-18")
                          (text "09:05") (text "11:00") [text "Madrid"; text "Barcelona"]
                          [madrid; barcelona]
                          world0 _ _ _ (or_introl (ex_intro _ RequestException eq_refl))))).
  - discriminate.
  - vm_compute. reflexivity.
Defined.

(** ** The stops of a feature *)

(** C10: for a row with origin and destination, the list of stops built
    at step 5 is the origin, then at most two intermediate stops, then the
    destination: the filter removes none of them; and every feature of a
    finished run has at most two intermediate stops and, as its path, the
    first route of the provider or the straight line, for at least two
    points. *)
Theorem stops_of_feature `{U : UCD}
    (nominatim : str -> outcome (list Candidate))
    (osrm : nat -> list (float * float) -> outcome (list Route))
    (reloj : nat -> datetime) (row : Row) :
  let origen := get_text row ORIGEN_COL in
  let destino := get_text row DESTINO_COL in
  let p1 := get_text row PARADA1_COL in
  let p2 := get_text row PARADA2_COL in
  (Py.truthy origen = true -> Py.truthy destino = true ->
   exists mid,
     build_stops origen p1 p2 destino = origen :: mid ++ [destino]
     /\ length mid <= 2
     /\ first_item (build_stops origen p1 p2 destino) = Ok origen
     /\ last_item (build_stops origen p1 p2 destino) = Ok destino
     /\ inner_items (build_stops origen p1 p2 destino) = mid
     /\ 2 <= length (build_stops origen p1 p2 destino) <= 4)
  /\ forall cache0 rows fs n w',
       main nominatim osrm reloj cache0 rows = (Ok (fs, n), w') ->
       Forall (fun f => exists j, emitted osrm j f) fs.
Proof.
  intros origen destino p1 p2. split.
  - intros Ho Hd. subst origen destino p1 p2.
    rewrite (build_stops_shape row Ho Hd).
    set (mid := (if Py.truthy _ then _ else _) ++ _).
    assert (Hmid : length mid <= 2).
    { subst mid. destruct (Py.truthy (get_text row PARADA1_COL));
        destruct (Py.truthy (get_text row PARADA2_COL)); simpl; lia. }
    exists mid. split; [reflexivity|]. split; [exact Hmid|].
    split; [reflexivity|]. split.
    + change (get_text row ORIGEN_COL :: mid ++ [get_text row DESTINO_COL])
        with ((get_text row ORIGEN_COL :: mid) ++ [get_text row DESTINO_COL]).
      apply last_item_snoc.
    + split; [apply inner_items_shape|].
      simpl. rewrite length_app. simpl. lia.
  - intros cache0 rows fs n w'. unfold main.
    destruct (main_loop nominatim osrm reloj 0 rows (mkWorld cache0 [] [] [] 0))
      as [[u|e] w1] eqn:Hl; [|discriminate].
    run_monad. intros [= <- _ _].
    destruct (main_loop_spec nominatim osrm reloj rows _ _ _ _ Hl) as (_ & fs & Hfs & Hall).
    simpl in Hfs. now rewrite Hfs.
Qed.

Lemma stops_of_feature_witness :
  Py.truthy (get_text fila_T1 ORIGEN_COL) = true
  /\ Py.truthy (get_text fila_T1 DESTINO_COL) = true
  /\ (exists mid,
        build_stops (get_text fila_T1 ORIGEN_COL) (get_text fila_T1 PARADA1_COL)
          (get_text fila_T1 PARADA2_COL) (get_text fila_T1 DESTINO_COL)
        = get_text fila_T1 ORIGEN_COL :: mid ++ [get_text fila_T1 DESTINO_COL]
        /\ length mid <= 2)
  /\ Forall (fun f => exists j, emitted osrm_down j f)
       [mkFeature
          (mkGeometry (text "LineString")
             [((-3.75)%float, 40.5%float); (2.125%float, 41.375%float)])
          (mkProperties (text "Madrid → Barcelona (09:05-11:00)") (text "T1") (text "2026-02-18")
             (text "09:05") (text "11:00") (text "Madrid") (text "Barcelona") [] 0)].
Proof.
  split; [reflexivity|]. split; [reflexivity|].
  pose proof (stops_of_feature nominatim_ok osrm_down reloj_ex fila_T1) as [H1 H2].
  split.
  - destruct (H1 eq_refl eq_refl) as (mid & Hs & Hm & _).
    exists mid. split; [exact Hs | exact Hm].
  - eapply (H2 ∅ [fila_sin_destino; fila_T1]). vm_compute. reflexivity.
Defined.

(** * Further properties *)

(** ** Keys *)
(** * Further properties *)

(** ** Keys *)

Section Keys.

Import Py.

Context `{U : UCD}.

(** The words that [split] returns are words. *)
Lemma split_go_words s : forall cur,
  all_chars (fun c => negb (isspace c)) cur = true ->
  Forall is_word (split_go cur s).
Proof.
  induction s as [|c s IH]; intros cur Hcur; simpl.
  - destruct cur; constructor; [|constructor]. now split.
  - destruct (isspace c) eqn:Hc.
    + apply Forall_app. split; [|now apply IH].
      destruct cur; constructor; [|constructor]. now split.
    + apply IH. rewrite all_chars_app, Hcur. simpl. now rewrite Hc.
Qed.

Lemma split_words s : Forall is_word (split s).
Proof. now apply split_go_words. Qed.

Lemma split_join l : Forall is_word l -> split (join (text " ") l) = l.
Proof.
  induction l as [|x [|y l] IH]; intros Hl.
  - reflexivity.
  - inversion Hl as [|? ? [Hne Hx] _]; subst. unfold split. simpl.
    rewrite (split_go_word x Hx []). destruct x; [congruence | reflexivity].
  - inversion Hl as [|? ? [Hne Hx] Hl']; subst.
    change (join (text " ") (x :: y :: l))
      with (x ++ chr " " :: join (text " ") (y :: l)).
    unfold split. rewrite split_go_blank by reflexivity.
    rewrite (split_go_word x Hx []).
    fold (split (join (text " ") (y :: l))). rewrite (IH Hl').
    destruct x; [congruence | reflexivity].
Qed.

Lemma join_words_empty l : Forall is_word l -> join (text " ") l = [] -> l = [].
Proof.
  destruct l as [|x [|y l]]; intros Hl; [reflexivity | |];
    inversion Hl as [|? ? [Hne _] _]; subst.
  - simpl. congruence.
  - change (join (text " ") (x :: y :: l))
      with (x ++ chr " " :: join (text " ") (y :: l)).
    destruct x; [congruence | discriminate].
Qed.

Lemma split_go_blanks s : all_chars isspace s = true -> split_go [] s = [].
Proof.
  induction s as [|c s IH]; simpl; [reflexivity|].
  intros H. apply andb_true_iff in H as [Hc Hs]. now rewrite Hc, (IH Hs).
Qed.

Lemma split_go_nil s : forall cur, split_go cur s = [] ->
  cur = [] /\ all_chars isspace s = true.
Proof.
  induction s as [|c s IH]; intros cur; simpl.
  - destruct cur; [now split | discriminate].
  - destruct (isspace c) eqn:Hc.
    + intros H. apply app_eq_nil in H as [H1 H2].
      destruct (IH _ H2) as [_ Hs]. split; [destruct cur; [reflexivity | discriminate]|].
      exact Hs.
    + intros H. destruct (IH _ H) as [Hcur _]. destruct cur; discriminate.
Qed.

Context {L : UCDLaws U}.

(** The lower case of a word is a word. *)
Lemma lower_word x : is_word x -> is_word (lower x).
Proof.
  intros [Hne Hx]. split.
  - intros H. now apply do_lower_nil in H.
  - now apply do_lower_no_blank.
Qed.

Lemma lower_words l : Forall is_word l -> Forall is_word (map lower l).
Proof.
  induction 1; constructor; [now apply lower_word | assumption].
Qed.

(** The words of a key are the words of the text, in lower case. *)
Lemma split_normalize_place s : split (normalize_place s) = map lower (split s).
Proof.
  rewrite normalize_place_words. apply split_join, lower_words, split_words.
Qed.

End Keys.

(** X1: a key is its own key: normalising what [normalize_place] returned
    changes nothing. *)
Theorem normalize_place_idempotent `{U : UCD} `{!UCDLaws U} (s : str) :
  normalize_place (normalize_place s) = normalize_place s.
Proof.
  rewrite (normalize_place_words (normalize_place s)), split_normalize_place.
  rewrite (normalize_place_words s), map_map. f_equal.
  apply map_ext. intros x. apply lower_idem.
Qed.

Lemma normalize_place_idempotent_witness :
  normalize_place (normalize_place (text "  ΟΔΟΣ   Σοφίας 3 "))
  = normalize_place (text "  ΟΔΟΣ   Σοφίας 3 ").
Proof. apply normalize_place_idempotent. Defined.

(** X2: the key of a text is empty exactly when the text is made of blanks
    only (the empty text among them). *)
Theorem normalize_place_empty_iff `{U : UCD} `{!UCDLaws U} (s : str) :
  normalize_place s = [] <-> all_chars Py.isspace s = true.
Proof.
  rewrite normalize_place_words. split.
  - intros H. apply join_words_empty in H; [|apply lower_words, split_words].
    apply map_eq_nil in H. now apply split_go_nil in H as [_ H].
  - intros H. unfold Py.split. now rewrite split_go_blanks.
Qed.

Lemma normalize_place_empty_iff_witness :
  normalize_place [0xA0; 0x20; 0x2003]%N = []
  /\ all_chars Py.isspace [0xA0; 0x20; 0x2003]%N = true.
Proof.
  split; [|reflexivity].
  apply (proj2 (normalize_place_empty_iff [0xA0; 0x20; 0x2003]%N)). reflexivity.
Defined.

(** ** Cells and times *)

(** X3: the text [get_text] returns is already trimmed and is never the
    token "nan" in any casing; it is empty exactly for a missing column,
    an empty cell, a blank text and such a token, and it is the trimmed
    text of the cell otherwise. *)
Theorem get_text_normal `{U : UCD} (row : Row) (col : string) :
  Py.strip (get_text row col) = get_text row col
  /\ Py.lower (get_text row col) <> text "nan"
  /\ match row !! col with
     | Some (Val v) =>
         if decide (Py.strip v = [] \/ Py.lower (Py.strip v) = text "nan")
         then get_text row col = []
         else get_text row col = Py.strip v
     | _ => get_text row col = []
     end.
Proof.
  unfold get_text. destruct (row !! col) as [[|v]|];
    [split; [reflexivity | split; [discriminate | reflexivity]]
    | | split; [reflexivity | split; [discriminate | reflexivity]]].
  destruct (decide (Py.strip v = [] \/ Py.lower (Py.strip v) = text "nan"))
    as [Hd|Hd].
  - assert (E : (if negb (Py.truthy (Py.strip v)) then []
                 else if Py.eqb (Py.lower (Py.strip v)) (text "nan") then []
                 else Py.strip v) = []).
    { destruct Hd as [Hd|Hd]; [now rewrite Hd|].
      apply str_eqb_eq in Hd. rewrite Hd. now destruct (negb _). }
    cbv zeta. rewrite E. split; [reflexivity | split; [discriminate | reflexivity]].
  - assert (E : (if negb (Py.truthy (Py.strip v)) then []
                 else if Py.eqb (Py.lower (Py.strip v)) (text "nan") then []
                 else Py.strip v) = Py.strip v).
    { destruct (Py.strip v) eqn:Hs; [exfalso; apply Hd; now left|].
      cbn [Py.truthy negb].
      match goal with |- context [Py.eqb ?x (text "nan")] =>
        destruct (Py.eqb x (text "nan")) eqn:Hn end; [|reflexivity].
      apply str_eqb_eq in Hn. exfalso. apply Hd. now right. }
    cbv zeta. rewrite E. split; [apply strip_idem|].
    split; [|reflexivity]. intros H. apply Hd. now right.
Qed.

Section TimeBounds.

Import Strptime.

Context `{U : UCD}.

Lemma orelse_some {A} (x y : option A) r :
  x <|> y = Some r -> x = Some r \/ y = Some r.
Proof. destruct x; simpl; auto. Qed.

(** A decimal digit has a value from 0 to 9. *)
Lemma digit_val c v : digit c = Some v -> v <= 9.
Proof.
  unfold digit, Py.decimal. destruct (c <? 128)%N.
  - destruct ((48 <=? c) && (c <=? 57))%N eqn:H; [|discriminate].
    apply andb_true_iff in H as [H1 H2]. apply N.leb_le in H1, H2.
    intros [= <-]. lia.
  - destruct (uc_decimal c) as [f|]; [|discriminate]. simpl.
    intros [= <-]. pose proof (fin_to_nat_lt f). lia.
Qed.

Lemma between_val lo hi c v : between lo hi c = Some v -> lo <= v <= hi.
Proof.
  unfold between.
  destruct (_ && _) eqn:H; [|discriminate]. intros [= <-].
  rewrite !andb_true_iff, !Nat.leb_le in H. lia.
Qed.

Lemma d1_some {A} p (k : nat -> str -> option A) s r :
  d1 p k s = Some r ->
  exists a rest v, s = a :: rest /\ p a = Some v /\ k v rest = Some r.
Proof.
  destruct s as [|a rest]; simpl; [discriminate|].
  destruct (p a) as [v|] eqn:Hp; [|discriminate]. now eauto 6.
Qed.

Lemma d2_some {A} p q (k : nat -> str -> option A) s r :
  d2 p q k s = Some r ->
  exists a b rest va vb,
    s = a :: b :: rest /\ p a = Some va /\ q b = Some vb
    /\ k (10 * va + vb) rest = Some r.
Proof.
  destruct s as [|a [|b rest]]; simpl; try discriminate.
  destruct (p a) as [va|] eqn:Hp; [|discriminate].
  destruct (q b) as [vb|] eqn:Hq; [|discriminate].
  intros H. exists a, b, rest, va, vb. now repeat split.
Qed.

Lemma lit_some {A} c (k : str -> option A) s r :
  lit c k s = Some r -> exists rest, s = c :: rest /\ k rest = Some r.
Proof.
  destruct s as [|a rest]; simpl; [discriminate|].
  destruct (a =? c)%N eqn:E; [|discriminate].
  apply N.eqb_eq in E. subst. now eauto.
Qed.

(** The hour that [%H] reads is at most 23. *)
Lemma re_H_some {A} (k : nat -> str -> option A) s r :
  re_H k s = Some r -> exists h rest, h <= 23 /\ k h rest = Some r.
Proof.
  unfold re_H. intros H.
  apply orelse_some in H as [H|H]; [apply orelse_some in H as [H|H]|].
  - apply d2_some in H as (a & b & rest & va & vb & _ & Ha & Hb & Hk).
    apply between_val in Ha, Hb. eexists _, _. split; [|exact Hk]. lia.
  - apply d2_some in H as (a & b & rest & va & vb & _ & Ha & Hb & Hk).
    apply between_val in Ha. apply digit_val in Hb.
    eexists _, _. split; [|exact Hk]. lia.
  - apply d1_some in H as (a & rest & va & _ & Ha & Hk).
    apply digit_val in Ha. eexists _, _. split; [|exact Hk]. lia.
Qed.

(** The minute that [%M] reads is at most 59. *)
Lemma re_M_some {A} (k : nat -> str -> option A) s r :
  re_M k s = Some r -> exists mi rest, mi <= 59 /\ k mi rest = Some r.
Proof.
  unfold re_M. intros H. apply orelse_some in H as [H|H].
  - apply d2_some in H as (a & b & rest & va & vb & _ & Ha & Hb & Hk).
    apply between_val in Ha. apply digit_val in Hb.
    eexists _, _. split; [|exact Hk]. lia.
  - apply d1_some in H as (a & rest & va & _ & Ha & Hk).
    apply digit_val in Ha. eexists _, _. split; [|exact Hk]. lia.
Qed.

Lemma whole_some {A} (m : option (A * str)) v :
  whole m = Some v -> m = Some (v, []).
Proof. destruct m as [[a [|]]|]; simpl; congruence. Qed.

Lemma strptime_HM_bounds s h mi :
  strptime_HM s = Some (h, mi) -> h <= 23 /\ mi <= 59.
Proof.
  unfold strptime_HM. intros H. apply whole_some in H.
  apply re_H_some in H as (h' & r1 & Hh & H).
  apply lit_some in H as (r2 & _ & H).
  apply re_M_some in H as (m' & r3 & Hm & H).
  injection H as -> -> _. now split.
Qed.

Lemma strptime_HMS_bounds s h mi se :
  strptime_HMS s = Some (h, mi, se) -> h <= 23 /\ mi <= 59 /\ se <= 59.
Proof.
  unfold strptime_HMS.
  destruct (whole _) as [[[h' m'] s']|] eqn:H; [|discriminate].
  destruct (s' <=? 59) eqn:Hs; [|discriminate]. intros [= -> -> ->].
  apply Nat.leb_le in Hs.
  apply whole_some in H.
  apply re_H_some in H as (h' & r1 & Hh & H).
  apply lit_some in H as (r2 & _ & H).
  apply re_M_some in H as (m' & r3 & Hm & H).
  apply lit_some in H as (r4 & _ & H).
  unfold re_S in H. repeat (apply orelse_some in H as [H|H]).
  - apply d2_some in H as (a & b & rest & va & vb & _ & _ & _ & Hk).
    injection Hk as -> -> _ _. tauto.
  - apply d2_some in H as (a & b & rest & va & vb & _ & _ & _ & Hk).
    injection Hk as -> -> _ _. tauto.
  - apply d1_some in H as (a & rest & va & _ & _ & Hk).
    injection Hk as -> -> _ _. tauto.
Qed.

Lemma forallb_below (P : nat -> bool) n :
  forallb P (seq 0 n) = true -> forall k, k < n -> P k = true.
Proof.
  intros H k Hk. rewrite forallb_forall in H. apply H. apply in_seq. lia.
Qed.

(** The canonical form of a time is trimmed and reads back as the time. *)
Lemma strftime_HM_round_trip h mi : h <= 23 -> mi <= 59 ->
  strptime_HM (strftime_HM h mi) = Some (h, mi)
  /\ Py.strip (strftime_HM h mi) = strftime_HM h mi.
Proof.
  intros Hh Hm.
  assert (H : forallb (fun h => forallb (fun mi =>
                bool_decide (strptime_HM (strftime_HM h mi) = Some (h, mi)
                             /\ Py.strip (strftime_HM h mi) = strftime_HM h mi))
                (seq 0 60)) (seq 0 24) = true) by (vm_compute; reflexivity).
  pose proof (forallb_below _ _ H h ltac:(lia)) as H1. cbv beta in H1.
  pose proof (forallb_below _ _ H1 mi ltac:(lia)) as H2. cbv beta in H2.
  now apply bool_decide_eq_true in H2.
Qed.

End TimeBounds.

(** X4: a time that reads as hours and minutes, with or without seconds,
    comes out of [parse_hora] in the form HH:MM with the hour at most 23
    and the minute at most 59; the check of [viaje_vigente] reads the same
    hour and minute back from it, and [parse_hora] leaves it as it is. *)
Theorem parse_hora_round_trip `{U : UCD} (v : option pyval) (h mi : nat) :
  let s := Py.strip (py_str v) in
  (strptime_HM s = Some (h, mi)
   \/ (strptime_HM s = None /\ exists se, strptime_HMS s = Some (h, mi, se))) ->
  parse_hora v = strftime_HM h mi
  /\ h <= 23 /\ mi <= 59
  /\ strptime_HM (parse_hora v) = Some (h, mi)
  /\ parse_hora (Some (Val (parse_hora v))) = parse_hora v.
Proof.
  intros s H.
  assert (Hp : parse_hora v = strftime_HM h mi /\ h <= 23 /\ mi <= 59).
  { unfold parse_hora. fold s. destruct H as [H | [H1 [se H2]]].
    - rewrite H. split; [reflexivity | now apply (strptime_HM_bounds s)].
    - rewrite H1, H2. split; [reflexivity|].
      apply strptime_HMS_bounds in H2. tauto. }
  destruct Hp as (Hp & Hh & Hm).
  destruct (strftime_HM_round_trip h mi Hh Hm) as [Hr Hs].
  repeat split; try assumption.
  - now rewrite Hp.
  - rewrite Hp. unfold parse_hora at 1. simpl py_str. now rewrite Hs, Hr.
Qed.

Lemma parse_hora_round_trip_witness :
  parse_hora (Some (Val (text " 9:5:07 "))) = text "09:05"
  /\ strptime_HM (parse_hora (Some (Val (text " 9:5:07 ")))) = Some (9, 5)
  /\ parse_hora (Some (Val (parse_hora (Some (Val (text " 9:5:07 "))))))
     = parse_hora (Some (Val (text " 9:5:07 "))).
Proof.
  destruct (parse_hora_round_trip (Some (Val (text " 9:5:07 "))) 9 5
              (or_intror (conj eq_refl (ex_intro _ 7 eq_refl))))
    as (H1 & _ & _ & H2 & H3).
  split; [exact H1|]. split; [exact H2 | exact H3].
Defined.

(** ** Dates *)

(** X5: a date that [parse_fecha] accepts comes out as the ten characters
    of its ISO form, which [viaje_vigente] reads back as the same date:
    the check never raises on a date that [parse_fecha] returned. *)
Theorem parse_fecha_round_trip `{U : UCD} (v : option pyval) (s : str) :
  parse_fecha v = Ok s ->
  exists d,
    strptime_dmY (Py.strip (py_str v)) = Some d
    /\ valid_date d = true
    /\ s = isoformat d
    /\ length s = 10
    /\ strptime_Ymd s = Some d
    /\ forall ahora hora, exists b, viaje_vigente ahora s hora = Ok b.
Proof.
  unfold parse_fecha.
  destruct (strptime_dmY (Py.strip (py_str v))) as [d|] eqn:Hd; [|discriminate].
  intros [= <-]. exists d.
  assert (Hv : valid_date d = true).
  { unfold strptime_dmY in Hd. destruct (Strptime.whole _) as [d'|]; [|discriminate].
    destruct (valid_date d') eqn:Hv; [|discriminate]. now injection Hd as <-. }
  pose proof (strptime_Ymd_isoformat d Hv) as Hr.
  repeat split; try assumption; try reflexivity.
  intros ahora hora. now apply (viaje_vigente_total ahora _ hora d).
Qed.

Lemma parse_fecha_round_trip_witness :
  exists d,
    strptime_dmY (Py.strip (py_str (Some (Val (text " 1/2/2026"))))) = Some d
    /\ valid_date d = true
    /\ (text "2026-02-01") = isoformat d
    /\ length (text "2026-02-01") = 10
    /\ strptime_Ymd (text "2026-02-01") = Some d
    /\ forall ahora hora, exists b, viaje_vigente ahora (text "2026-02-01") hora = Ok b.
Proof.
  exact (parse_fecha_round_trip (Some (Val (text " 1/2/2026"))) (text "2026-02-01") eq_refl).
Defined.

(** X6: [viaje_vigente] raises [ValueError] when its date does not read as
    year-month-day; for a trip dated today it fails open: a departure time
    that is empty or does not read as hours and minutes keeps the trip. *)
Theorem viaje_vigente_fail_open `{U : UCD} (ahora : datetime) (fecha_iso hora : str) :
  (strptime_Ymd fecha_iso = None ->
   viaje_vigente ahora fecha_iso hora = Raise ValueError)
  /\ (strptime_Ymd fecha_iso = Some (dt_date ahora) ->
      strptime_HM hora = None ->
      viaje_vigente ahora fecha_iso hora = Ok true).
Proof.
  unfold viaje_vigente. split.
  - now intros ->.
  - intros -> Hh. rewrite date_ltb_irrefl, Hh. now destruct (Py.truthy hora).
Qed.

Lemma viaje_vigente_fail_open_witness :
  viaje_vigente ahora_ex (text "18/02/2026") (text "09:00") = Raise ValueError
  /\ viaje_vigente ahora_ex (text "2026-02-10") (text "09:75") = Ok true
  /\ viaje_vigente ahora_ex (text "2026-02-10") [] = Ok true.
Proof.
  split; [|split].
  - apply (proj1 (viaje_vigente_fail_open ahora_ex (text "18/02/2026") (text "09:00"))).
    reflexivity.
  - apply (proj2 (viaje_vigente_fail_open ahora_ex (text "2026-02-10") (text "09:75")));
      reflexivity.
  - apply (proj2 (viaje_vigente_fail_open ahora_ex (text "2026-02-10") [])); reflexivity.
Defined.

(** ** The turns of the loop, case by case *)

Section Turns.

Context `{U : UCD}.

Variable nominatim : str -> outcome (list Candidate).
Variable osrm : nat -> list (float * float) -> outcome (list Route).
Variable reloj : nat -> datetime.

(** A lookup touches neither the log nor the features nor the counter. *)
Lemma geocode_books place w :
  bitacora (snd (geocode nominatim place w)) = bitacora w
  /\ features (snd (geocode nominatim place w)) = features w
  /\ descartados (snd (geocode nominatim place w)) = descartados w.
Proof.
  destruct (decide (normalize_place place = [])) as [Hk|Hk].
  { now rewrite geocode_no_key. }
  destruct (cache w !! normalize_place place) as [v|] eqn:Hc.
  { now rewrite (geocode_hit _ _ _ v). }
  rewrite geocode_miss by assumption.
  destruct (nominatim place) as [[|item rest]|e]; now repeat split.
Qed.

(** The routing step always gives a path; it changes the log only. *)
Lemma route_geometry_eq i vid pts w :
  route_geometry osrm i vid pts w
  = (Ok (route_choice osrm i pts), routed osrm i vid pts w).
Proof.
  unfold route_geometry, obtener_ruta_osrm_multi, routed, route_log, route_choice.
  destruct w as [c q b f n].
  destruct (osrm i (lonlat pts)) as [[|[[g|]|e'] rest]|e]; run_monad;
    rewrite ?app_nil_r; reflexivity.
Qed.

Lemma build_feature_route_eq i vid fe hs hl x mid y pts w g w' :
  route_geometry osrm i vid pts w = (Ok g, w') ->
  build_feature_route osrm i vid fe hs hl (x :: mid ++ [y]) pts w
  = (Ok (mkFeature g
          (mkProperties (x ++ text " → " ++ y ++ text " (" ++ hs ++ text "-" ++ hl ++ text ")")
             vid fe hs hl x y (Py.join (text " | ") mid) (length mid))), w').
Proof.
  intros Hg. unfold build_feature_route. rewrite (bind_ok _ _ _ _ _ Hg).
  rewrite inner_items_shape.
  unfold bind at 1. unfold lift at 1. cbn [first_item].
  change (x :: mid ++ [y]) with ((x :: mid) ++ [y]).
  unfold bind at 1. unfold lift at 1. rewrite last_item_snoc.
  destruct mid; reflexivity.
Qed.

Lemma row_stops_shape (row : Row) :
  Py.truthy (get_text row ORIGEN_COL) = true ->
  Py.truthy (get_text row DESTINO_COL) = true ->
  row_stops row
  = get_text row ORIGEN_COL :: row_paradas row ++ [get_text row DESTINO_COL].
Proof. intros Ho Hd. apply (build_stops_shape row Ho Hd). Qed.

(** The four ways a row is discarded before any lookup. *)
Lemma main_body_sin_destino i (row : Row) w :
  Py.truthy (get_text row DESTINO_COL) = false ->
  main_body nominatim osrm reloj i row w
  = (Ok tt, discard (SinDestino (row !! "Id")) w).
Proof. intros Hd. unfold main_body. now rewrite Hd. Qed.

Lemma main_body_sin_origen i (row : Row) w :
  Py.truthy (get_text row DESTINO_COL) = true ->
  Py.truthy (get_text row ORIGEN_COL) = false ->
  main_body nominatim osrm reloj i row w
  = (Ok tt, discard (SinOrigen (row !! "Id") (get_text row DESTINO_COL)) w).
Proof. intros Hd Ho. unfold main_body. now rewrite Hd, Ho. Qed.

Lemma main_body_sin_viaje_id i (row : Row) w fecha_iso :
  Py.truthy (get_text row DESTINO_COL) = true ->
  Py.truthy (get_text row ORIGEN_COL) = true ->
  parse_fecha (row !! FECHA_COL) = Ok fecha_iso ->
  Py.truthy (get_text row "viaje_id") = false ->
  main_body nominatim osrm reloj i row w
  = (Ok tt, discard (SinViajeId (row !! "Id")) w).
Proof.
  intros Hd Ho Hf Hv. unfold main_body. rewrite Hd, Ho. cbn [negb]. rewrite Hf.
  unfold bind at 1. unfold lift at 1. now rewrite Hv.
Qed.

Lemma main_body_caducado i (row : Row) w fecha_iso :
  Py.truthy (get_text row DESTINO_COL) = true ->
  Py.truthy (get_text row ORIGEN_COL) = true ->
  parse_fecha (row !! FECHA_COL) = Ok fecha_iso ->
  Py.truthy (get_text row "viaje_id") = true ->
  viaje_vigente (reloj i) fecha_iso (parse_hora (row !! SALIDA_COL)) = Ok false ->
  main_body nominatim osrm reloj i row w
  = (Ok tt, discard (Caducado (get_text row "viaje_id") fecha_iso
                       (parse_hora (row !! SALIDA_COL))) w).
Proof.
  intros Hd Ho Hf Hv Hb. unfold main_body. rewrite Hd, Ho. cbn [negb]. rewrite Hf.
  unfold bind at 1. unfold lift at 1. rewrite Hv. cbn [negb]. rewrite Hb.
  reflexivity.
Qed.

(** An accepted row goes on to the lookup of its stops. *)
Lemma main_body_accepted i (row : Row) w fecha_iso :
  Py.truthy (get_text row DESTINO_COL) = true ->
  Py.truthy (get_text row ORIGEN_COL) = true ->
  parse_fecha (row !! FECHA_COL) = Ok fecha_iso ->
  Py.truthy (get_text row "viaje_id") = true ->
  viaje_vigente (reloj i) fecha_iso (parse_hora (row !! SALIDA_COL)) = Ok true ->
  main_body nominatim osrm reloj i row w
  = bind (geocode_stops nominatim (get_text row "viaje_id")
            (row_stops row) (row_stops row) [])
      (fun stops_geo =>
         match stops_geo with
         | None => incr_descartados
         | Some stops_geo =>
             let* f := build_feature_route osrm i (get_text row "viaje_id") fecha_iso
                         (parse_hora (row !! SALIDA_COL))
                         (parse_hora (row !! LLEGADA_COL)) (row_stops row) stops_geo in
             features_append f
         end) w.
Proof.
  intros Hd Ho Hf Hv Hb. unfold main_body. rewrite Hd, Ho. cbn [negb]. rewrite Hf.
  unfold bind at 1. unfold lift at 1. rewrite Hv. cbn [negb]. rewrite Hb.
  reflexivity.
Qed.

(** One turn of the loop is one of five: the row is discarded before any
    lookup; its date raises; a lookup raises; a stop has no coordinates;
    the row gives its feature. *)
Lemma main_body_cases i (row : Row) w :
  (exists ev, validation_event ev = true
              /\ main_body nominatim osrm reloj i row w = (Ok tt, discard ev w))
  \/ (Py.truthy (get_text row DESTINO_COL) = true
      /\ Py.truthy (get_text row ORIGEN_COL) = true
      /\ parse_fecha (row !! FECHA_COL) = Raise ValueError
      /\ main_body nominatim osrm reloj i row w = (Raise ValueError, w))
  \/ (exists fecha_iso,
        Py.truthy (get_text row DESTINO_COL) = true
        /\ Py.truthy (get_text row ORIGEN_COL) = true
        /\ parse_fecha (row !! FECHA_COL) = Ok fecha_iso
        /\ match geocode_stops nominatim (get_text row "viaje_id")
                  (row_stops row) (row_stops row) [] w with
           | (Raise e, w1) => main_body nominatim osrm reloj i row w = (Raise e, w1)
           | (Ok None, w1) =>
               main_body nominatim osrm reloj i row w = (Ok tt, count_discarded w1)
           | (Ok (Some pts), w1) =>
               exists g,
                 route_geometry osrm i (get_text row "viaje_id") pts w1
                 = (Ok g, routed osrm i (get_text row "viaje_id") pts w1)
                 /\ main_body nominatim osrm reloj i row w
                    = (Ok tt, with_feature (row_feature row fecha_iso g)
                                (routed osrm i (get_text row "viaje_id") pts w1))
           end).
Proof.
  destruct (Py.truthy (get_text row DESTINO_COL)) eqn:Hd;
    [|left; eexists; split; [|now apply main_body_sin_destino]; reflexivity].
  destruct (Py.truthy (get_text row ORIGEN_COL)) eqn:Ho;
    [|left; eexists; split; [|now apply main_body_sin_origen]; reflexivity].
  destruct (parse_fecha (row !! FECHA_COL)) as [fecha_iso|e] eqn:Hf.
  2:{ right; left. assert (e = ValueError) as ->.
      { unfold parse_fecha in Hf. destruct (strptime_dmY _); congruence. }
      repeat split. apply main_body_bad_date; try assumption.
      unfold parse_fecha in Hf. now destruct (strptime_dmY _). }
  destruct (Py.truthy (get_text row "viaje_id")) eqn:Hv;
    [|left; eexists; split; [|now apply (main_body_sin_viaje_id _ _ _ fecha_iso)];
      reflexivity].
  destruct (parse_fecha_ok _ _ Hf) as [d Hd'].
  destruct (viaje_vigente_total (reloj i) fecha_iso (parse_hora (row !! SALIDA_COL)) d Hd')
    as [b Hb].
  destruct b;
    [|left; eexists; split; [|now apply (main_body_caducado _ _ _ fecha_iso)];
      reflexivity].
  right; right. exists fecha_iso. repeat split.
  rewrite (main_body_accepted i row w fecha_iso Hd Ho Hf Hv Hb).
  destruct (geocode_stops nominatim (get_text row "viaje_id") (row_stops row)
              (row_stops row) [] w) as [[[pts|]|e] w1] eqn:Eg.
  - pose proof (route_geometry_eq i (get_text row "viaje_id") pts w1) as Hg.
    exists (route_choice osrm i pts). split; [exact Hg|].
    rewrite (bind_ok _ _ _ _ _ Eg).
    rewrite (row_stops_shape row Ho Hd).
    rewrite (bind_ok _ _ _ _ _ (build_feature_route_eq i _ _ _ _ _ _ _ pts w1 _ _ Hg)).
    reflexivity.
  - now rewrite (bind_ok _ _ _ _ _ Eg).
  - now rewrite (bind_raise _ _ _ _ _ Eg).
Qed.

End Turns.

(** ** Invariants of a run

    What holds of the cache and of the requests when a run starts, and is
    kept by every lookup of a stop, holds when the run ends. [I] is kept
    as long as nothing raises; [J] is what is left of it when a lookup
    raises. [Q] is a property of the texts looked up. *)

Section RunInvariant.

Context `{U : UCD}.

Variable nominatim : str -> outcome (list Candidate).
Variable osrm : nat -> list (float * float) -> outcome (list Route).
Variable reloj : nat -> datetime.

Variables I J : world -> Prop.
Variable Q : str -> Prop.

Hypothesis I_books : forall w w',
  cache w' = cache w -> geo_calls w' = geo_calls w -> I w -> I w'.
Hypothesis I_J : forall w, I w -> J w.
Hypothesis I_geocode : forall p w v w',
  Q p -> I w -> geocode nominatim p w = (Ok v, w') -> I w'.
Hypothesis J_geocode : forall p w e w',
  Q p -> I w -> geocode nominatim p w = (Raise e, w') -> J w'.

Lemma geocode_stops_inv vid all pending : forall acc w,
  Forall Q pending -> I w ->
  match geocode_stops nominatim vid all pending acc w with
  | (Ok _, w') => I w'
  | (Raise _, w') => J w'
  end.
Proof.
  induction pending as [|s pending IH]; intros acc w HQ HI; simpl.
  - exact HI.
  - inversion HQ as [|? ? Hs HQ']; subst.
    destruct (geocode nominatim s w) as [[[p|]|e] w1] eqn:Hg.
    + rewrite (bind_ok _ _ _ _ _ Hg). apply IH; [exact HQ'|].
      now apply (I_geocode s w (Some p) w1).
    + rewrite (bind_ok _ _ _ _ _ Hg). run_monad.
      apply (I_books w1); [reflexivity | reflexivity |].
      now apply (I_geocode s w None w1).
    + rewrite (bind_raise _ _ _ _ _ Hg). now apply (J_geocode s w e w1).
Qed.

Lemma main_body_inv i (row : Row) w :
  Forall Q (row_stops row) -> I w ->
  match main_body nominatim osrm reloj i row w with
  | (Ok _, w') => I w'
  | (Raise _, w') => J w'
  end.
Proof.
  intros HQ HI.
  destruct (main_body_cases nominatim osrm reloj i row w)
    as [(ev & _ & ->) | [(_ & _ & _ & ->) | (fecha_iso & _ & _ & _ & H)]].
  - now apply (I_books w).
  - now apply I_J.
  - pose proof (geocode_stops_inv (get_text row "viaje_id") (row_stops row)
                  (row_stops row) [] w HQ HI) as Hs.
    destruct (geocode_stops nominatim (get_text row "viaje_id") (row_stops row)
                (row_stops row) [] w) as [[[pts|]|e] w1].
    + destruct H as (g & _ & ->). now apply (I_books w1).
    + rewrite H. now apply (I_books w1).
    + now rewrite H.
Qed.

Lemma main_loop_inv rows : forall i w,
  Forall (fun row => Forall Q (row_stops row)) rows -> I w ->
  match main_loop nominatim osrm reloj i rows w with
  | (Ok _, w') => I w'
  | (Raise _, w') => J w'
  end.
Proof.
  induction rows as [|row rows IH]; intros i w HQ HI; simpl.
  - exact HI.
  - inversion HQ as [|? ? Hr HQ']; subst.
    pose proof (main_body_inv i row w Hr HI) as Hb.
    unfold bind.
    destruct (main_body nominatim osrm reloj i row w) as [[[]|e] w1]; [|exact Hb].
    now apply IH.
Qed.

Lemma main_inv cache0 rows :
  Forall (fun row => Forall Q (row_stops row)) rows ->
  I (mkWorld cache0 [] [] [] 0) ->
  match main nominatim osrm reloj cache0 rows with
  | (Ok _, w') => I w'
  | (Raise _, w') => J w'
  end.
Proof.
  intros HQ HI. unfold main.
  pose proof (main_loop_inv rows 0 _ HQ HI) as Hl.
  destruct (main_loop nominatim osrm reloj 0 rows (mkWorld cache0 [] [] [] 0))
    as [[u|e] w1]; [|exact Hl].
  run_monad. now apply (I_books w1).
Qed.

End RunInvariant.

(** ** The requests of a run *)

Section Requests.

Context `{U : UCD}.

Variable nominatim : str -> outcome (list Candidate).

(** What a lookup that returns does to the cache and to the requests. *)
Lemma geocode_ok_cases place w v w' :
  geocode nominatim place w = (Ok v, w') ->
  w' = w
  \/ (normalize_place place <> []
      /\ cache w !! normalize_place place = None
      /\ cache w' = <[normalize_place place := v]> (cache w)
      /\ geo_calls w' = geo_calls w ++ [place]).
Proof.
  destruct (decide (normalize_place place = [])) as [Hk|Hk].
  { rewrite geocode_no_key by assumption. intros [= _ <-]. now left. }
  destruct (cache w !! normalize_place place) as [v'|] eqn:Hc.
  { rewrite (geocode_hit _ _ _ v') by assumption. intros [= _ <-]. now left. }
  rewrite geocode_miss by assumption.
  destruct (nominatim place) as [[|item rest]|e]; intros [= <- <-];
    right; repeat split; assumption.
Qed.

(** A lookup that raises has sent one request for a key that is not bound. *)
Lemma geocode_raise_cases place w e w' :
  geocode nominatim place w = (Raise e, w') ->
  cache w !! normalize_place place = None /\ w' = record_call place w.
Proof.
  destruct (decide (normalize_place place = [])) as [Hk|Hk].
  { rewrite geocode_no_key by assumption. discriminate. }
  destruct (cache w !! normalize_place place) as [v'|] eqn:Hc.
  { rewrite (geocode_hit _ _ _ v') by assumption. discriminate. }
  rewrite geocode_miss by assumption.
  destruct (nominatim place) as [[|item rest]|e']; intros [= <- <-]. now split.
Qed.

Lemma keys_snoc_distinct (c : gmap str (option GeoPoint)) qs p :
  NoDup (normalize_place <$> qs) ->
  (forall q, q ∈ qs -> is_Some (c !! normalize_place q)) ->
  c !! normalize_place p = None ->
  NoDup (normalize_place <$> (qs ++ [p])).
Proof.
  intros Hn Hb Hp. rewrite fmap_app. apply NoDup_app. split; [exact Hn|].
  split; [|apply NoDup_singleton].
  intros k Hk Hk'. apply list_elem_of_fmap in Hk as (q & -> & Hq).
  apply list_elem_of_singleton in Hk'. destruct (Hb q Hq) as [v Hv]. congruence.
Qed.

End Requests.

Lemma all_stops_true `{U : UCD} (rows : list Row) :
  Forall (fun row => Forall (fun _ : str => True) (row_stops row)) rows.
Proof. apply Forall_forall. intros row _. now apply Forall_forall. Qed.

(** X10: in a run, whatever its outcome, no two requests sent to the
    geocoder have the same key: a key is asked for at most once. *)
Theorem requests_keys_distinct `{U : UCD}
    (nominatim : str -> outcome (list Candidate))
    (osrm : nat -> list (float * float) -> outcome (list Route))
    (reloj : nat -> datetime)
    (cache0 : gmap str (option GeoPoint)) (rows : list Row) :
  NoDup (normalize_place <$> geo_calls (snd (main nominatim osrm reloj cache0 rows))).
Proof.
  pose proof (main_inv nominatim osrm reloj
    (fun w => NoDup (normalize_place <$> geo_calls w)
              /\ forall q, q ∈ geo_calls w -> is_Some (cache w !! normalize_place q))
    (fun w => NoDup (normalize_place <$> geo_calls w))
    (fun _ => True)) as H.
  assert (Hm : match main nominatim osrm reloj cache0 rows with
               | (Ok _, w') =>
                   NoDup (normalize_place <$> geo_calls w')
                   /\ forall q, q ∈ geo_calls w' -> is_Some (cache w' !! normalize_place q)
               | (Raise _, w') => NoDup (normalize_place <$> geo_calls w')
               end).
  { apply H; clear H.
    - intros w w' Hc Hq. now rewrite Hc, Hq.
    - now intros w [Hn _].
    - intros p w v w' _ [Hn Hb] Hg.
      apply geocode_ok_cases in Hg as [-> | (Hk & Hc & Hc' & Hq)]; [now split|].
      rewrite Hc', Hq. split; [now apply (keys_snoc_distinct (cache w))|].
      intros q Hin. apply elem_of_app in Hin as [Hin | Hin].
      + destruct (decide (normalize_place p = normalize_place q)) as [<-|Hne].
        * rewrite lookup_insert_eq. now eexists.
        * rewrite lookup_insert_ne by assumption. now apply Hb.
      + apply list_elem_of_singleton in Hin as ->. rewrite lookup_insert_eq. now eexists.
    - intros p w e w' _ [Hn Hb] Hg.
      apply geocode_raise_cases in Hg as [Hc ->]. simpl.
      now apply (keys_snoc_distinct (cache w)).
    - apply all_stops_true.
    - simpl. split; [constructor | intros q Hq; inversion Hq]. }
  destruct (main nominatim osrm reloj cache0 rows) as [[r|e] w']; simpl;
    [now destruct Hm | exact Hm].
Qed.

(** X11: a run, whatever its outcome, removes no entry of the cache it
    started with and changes none: what was bound stays bound to the same
    value. *)
Theorem cache_only_grows `{U : UCD}
    (nominatim : str -> outcome (list Candidate))
    (osrm : nat -> list (float * float) -> outcome (list Route))
    (reloj : nat -> datetime)
    (cache0 : gmap str (option GeoPoint)) (rows : list Row)
    (k : str) (v : option GeoPoint) :
  cache0 !! k = Some v ->
  cache (snd (main nominatim osrm reloj cache0 rows)) !! k = Some v.
Proof.
  intros Hk.
  pose proof (main_inv nominatim osrm reloj
    (fun w => cache w !! k = Some v) (fun w => cache w !! k = Some v)
    (fun _ => True)) as H.
  assert (Hm : match main nominatim osrm reloj cache0 rows with
               | (Ok _, w') => cache w' !! k = Some v
               | (Raise _, w') => cache w' !! k = Some v
               end).
  { apply H; clear H.
    - intros w w' Hc _. now rewrite Hc.
    - auto.
    - intros p w r w' _ Hw Hg.
      pose proof (geocode_keeps nominatim p w k v Hw) as Hkeep. now rewrite Hg in Hkeep.
    - intros p w e w' _ Hw Hg.
      pose proof (geocode_keeps nominatim p w k v Hw) as Hkeep. now rewrite Hg in Hkeep.
    - apply all_stops_true.
    - exact Hk. }
  now destruct (main nominatim osrm reloj cache0 rows) as [[r|e] w'].
Qed.

Lemma cache_only_grows_witness :
  cache (snd (main nominatim_flaky osrm_down reloj_ex {[ text "atlantis" := None ]}
                [fila_T1; fila_T2])) !! text "atlantis" = Some None.
Proof.
  apply (cache_only_grows nominatim_flaky osrm_down reloj_ex {[ text "atlantis" := None ]}
           [fila_T1; fila_T2] (text "atlantis") None).
  reflexivity.
Defined.

(** X12: in a run that ends, every request has added one entry to the
    cache: the cache has as many entries more as requests were sent. When
    a lookup raises, its request is the only one without an entry. *)
Theorem requests_fill_cache `{U : UCD}
    (nominatim : str -> outcome (list Candidate))
    (osrm : nat -> list (float * float) -> outcome (list Route))
    (reloj : nat -> datetime)
    (cache0 : gmap str (option GeoPoint)) (rows : list Row) :
  match main nominatim osrm reloj cache0 rows with
  | (Ok _, w') => size (cache w') = size cache0 + length (geo_calls w')
  | (Raise _, w') =>
      size (cache w') <= size cache0 + length (geo_calls w') <= S (size (cache w'))
  end.
Proof.
  apply (main_inv nominatim osrm reloj
    (fun w => size (cache w) = size cache0 + length (geo_calls w))
    (fun w => size (cache w) <= size cache0 + length (geo_calls w) <= S (size (cache w)))
    (fun _ => True)).
  - intros w w' Hc Hq. now rewrite Hc, Hq.
  - intros w Hw. lia.
  - intros p w v w' _ Hw Hg.
    apply geocode_ok_cases in Hg as [-> | (Hk & Hc & Hc' & Hq)]; [exact Hw|].
    rewrite Hc', Hq, length_app, map_size_insert_None by assumption. simpl. lia.
  - intros p w e w' _ Hw Hg.
    apply geocode_raise_cases in Hg as [Hc ->]. simpl.
    rewrite length_app. simpl. lia.
  - apply all_stops_true.
  - simpl. lia.
Qed.

Lemma row_stops_columns `{U : UCD} (row : Row) s :
  s ∈ row_stops row -> exists col, col ∈ stop_columns /\ s = get_text row col.
Proof.
  intros Hs. apply list_elem_of_In in Hs.
  unfold row_stops, build_stops in Hs. apply filter_In in Hs as [Hs _].
  unfold stop_columns. simpl in Hs.
  destruct Hs as [<- | Hs]; [exists ORIGEN_COL; split; [set_solver | reflexivity]|].
  destruct (Py.truthy (get_text row PARADA1_COL)); simpl in Hs;
    [destruct Hs as [<- | Hs]; [exists PARADA1_COL; split; [set_solver | reflexivity]|]|];
    (destruct (Py.truthy (get_text row PARADA2_COL)); simpl in Hs;
     [destruct Hs as [<- | Hs]; [exists PARADA2_COL; split; [set_solver | reflexivity]|]|]);
    (destruct Hs as [<- | []]; exists DESTINO_COL; split; [set_solver | reflexivity]).
Qed.

(** X13: every request sent to the geocoder in a run, whatever its
    outcome, asks for the text that [get_text] reads from the origin, an
    intermediate stop or the destination of a row of the feed. *)
Theorem requests_are_stops `{U : UCD}
    (nominatim : str -> outcome (list Candidate))
    (osrm : nat -> list (float * float) -> outcome (list Route))
    (reloj : nat -> datetime)
    (cache0 : gmap str (option GeoPoint)) (rows : list Row) (q : str) :
  q ∈ geo_calls (snd (main nominatim osrm reloj cache0 rows)) ->
  exists row col, row ∈ rows /\ col ∈ stop_columns /\ q = get_text row col.
Proof.
  pose (Q := fun q : str =>
          exists (row : Row) (col : string),
            row ∈ rows /\ col ∈ stop_columns /\ q = get_text row col).
  assert (Hm : match main nominatim osrm reloj cache0 rows with
               | (Ok _, w') => Forall Q (geo_calls w')
               | (Raise _, w') => Forall Q (geo_calls w')
               end).
  { apply (main_inv nominatim osrm reloj
             (fun w => Forall Q (geo_calls w)) (fun w => Forall Q (geo_calls w)) Q).
    - intros w w' _ Hq. now rewrite Hq.
    - auto.
    - intros p w v w' Hp Hw Hg.
      apply geocode_ok_cases in Hg as [-> | (_ & _ & _ & ->)]; [exact Hw|].
      apply Forall_app. split; [exact Hw | now constructor].
    - intros p w e w' Hp Hw Hg.
      apply geocode_raise_cases in Hg as [_ ->]. simpl.
      apply Forall_app. split; [exact Hw | now constructor].
    - apply Forall_forall. intros row Hrow. apply Forall_forall. intros s Hs.
      destruct (row_stops_columns row s Hs) as (col & Hcol & ->).
      now exists row, col.
    - constructor. }
  intros Hq.
  destruct (main nominatim osrm reloj cache0 rows) as [[r|e] w']; simpl in Hq;
    rewrite Forall_forall in Hm; exact (Hm q Hq).
Qed.

Lemma requests_are_stops_witness :
  exists row col,
    row ∈ [fila_T1; fila_sin_destino] /\ col ∈ stop_columns
    /\ (text "Barcelona") = get_text row col.
Proof.
  apply (requests_are_stops nominatim_flaky osrm_down reloj_ex ∅
           [fila_T1; fila_sin_destino] (text "Barcelona")).
  vm_compute. set_solver.
Defined.

(** ** The log, the counter and the features of a run *)

Section Books.

Context `{U : UCD}.

Variable nominatim : str -> outcome (list Candidate).
Variable osrm : nat -> list (float * float) -> outcome (list Route).
Variable reloj : nat -> datetime.

(** The loop over the stops writes one log line when a stop has no
    coordinates, and nothing else. *)
Lemma geocode_stops_books vid all pending : forall acc w,
  match geocode_stops nominatim vid all pending acc w with
  | (Ok None, w') =>
      (exists s, bitacora w' = bitacora w ++ [NoGeocodifica vid s all])
      /\ features w' = features w /\ descartados w' = descartados w
  | (_, w') =>
      bitacora w' = bitacora w
      /\ features w' = features w /\ descartados w' = descartados w
  end.
Proof.
  induction pending as [|s pending IH]; intros acc w; simpl.
  - now repeat split.
  - pose proof (geocode_books nominatim s w) as (Hb & Hf & Hd).
    destruct (geocode nominatim s w) as [[[p|]|e] w1] eqn:Hg; simpl in Hb, Hf, Hd.
    + rewrite (bind_ok _ _ _ _ _ Hg). specialize (IH (acc ++ [p]) w1).
      destruct (geocode_stops nominatim vid all pending (acc ++ [p]) w1)
        as [[[l|]|e] w2]; rewrite <- Hb, <- Hf, <- Hd; exact IH.
    + rewrite (bind_ok _ _ _ _ _ Hg). run_monad.
      split; [exists s; now rewrite Hb | now split].
    + rewrite (bind_raise _ _ _ _ _ Hg). now repeat split.
Qed.

Lemma validation_event_rejection ev : validation_event ev = true -> is_rejection ev = true.
Proof. now destruct ev. Qed.

Lemma rejections_snoc w w' ev :
  bitacora w' = bitacora w ++ [ev] ->
  rejections w' = rejections w + (if is_rejection ev then 1 else 0).
Proof.
  intros H. unfold rejections. rewrite H, List.filter_app, length_app. simpl.
  now destruct (is_rejection ev).
Qed.

Lemma route_log_not_rejection i vid pts :
  List.filter is_rejection (route_log osrm i vid pts) = [].
Proof.
  unfold route_log. now destruct (osrm i (lonlat pts)) as [[|[[g|]|e'] rest]|e].
Qed.

(** One turn keeps the log and the counter in step. *)
Lemma main_body_rejections i (row : Row) w :
  rejections w = descartados w ->
  rejections (snd (main_body nominatim osrm reloj i row w))
  = descartados (snd (main_body nominatim osrm reloj i row w)).
Proof.
  intros Hw.
  destruct (main_body_cases nominatim osrm reloj i row w)
    as [(ev & Hev & ->) | [(_ & _ & _ & ->) | (fecha_iso & _ & _ & _ & H)]].
  - simpl. rewrite (rejections_snoc w (discard ev w) ev) by reflexivity.
    rewrite (validation_event_rejection ev Hev). simpl. lia.
  - exact Hw.
  - pose proof (geocode_stops_books (get_text row "viaje_id") (row_stops row)
                  (row_stops row) [] w) as Hs.
    destruct (geocode_stops nominatim (get_text row "viaje_id") (row_stops row)
                (row_stops row) [] w) as [[[pts|]|e] w1].
    + destruct H as (g & _ & ->). destruct Hs as (Hb & _ & Hd). simpl.
      unfold rejections. simpl.
      rewrite List.filter_app, route_log_not_rejection, app_nil_r, Hb, Hd. exact Hw.
    + rewrite H. destruct Hs as ((s & Hb) & _ & Hd). simpl.
      change (rejections (count_discarded w1)) with (rejections w1).
      rewrite (rejections_snoc w w1 _ Hb). simpl. lia.
    + rewrite H. destruct Hs as (Hb & _ & Hd). simpl.
      unfold rejections. now rewrite Hb, Hd.
Qed.

Lemma main_loop_rejections rows : forall i w,
  rejections w = descartados w ->
  rejections (snd (main_loop nominatim osrm reloj i rows w))
  = descartados (snd (main_loop nominatim osrm reloj i rows w)).
Proof.
  induction rows as [|row rows IH]; intros i w Hw; simpl; [exact Hw|].
  pose proof (main_body_rejections i row w Hw) as Hb. unfold bind.
  destruct (main_body nominatim osrm reloj i row w) as [[[]|e] w1]; simpl in Hb;
    [now apply IH | exact Hb].
Qed.

(** One turn adds no feature, or the feature of its row. *)
Lemma main_body_feature i (row : Row) w u w' :
  main_body nominatim osrm reloj i row w = (Ok u, w') ->
  features w' = features w
  \/ exists f, feature_of_row row f /\ features w' = features w ++ [f].
Proof.
  destruct (main_body_cases nominatim osrm reloj i row w)
    as [(ev & Hev & ->) | [(_ & _ & _ & ->) | (fecha_iso & _ & _ & Hf & H)]].
  - intros [= _ <-]. now left.
  - discriminate.
  - pose proof (geocode_stops_books (get_text row "viaje_id") (row_stops row)
                  (row_stops row) [] w) as Hs.
    destruct (geocode_stops nominatim (get_text row "viaje_id") (row_stops row)
                (row_stops row) [] w) as [[[pts|]|e] w1].
    + destruct H as (g & _ & ->). destruct Hs as (_ & Hfe & _).
      intros [= _ <-]. right. exists (row_feature row fecha_iso g).
      split; [now exists fecha_iso, g | simpl; now rewrite Hfe].
    + rewrite H. destruct Hs as (_ & Hfe & _). intros [= _ <-]. now left.
    + rewrite H. discriminate.
Qed.

(** The features of a loop that ends are those of some of its rows, in
    the order of the rows. *)
Lemma main_loop_features rows : forall i w u w',
  main_loop nominatim osrm reloj i rows w = (Ok u, w') ->
  exists kept fs,
    kept `sublist_of` rows /\ features w' = features w ++ fs
    /\ Forall2 feature_of_row kept fs.
Proof.
  induction rows as [|row rows IH]; intros i w u w'; simpl.
  - run_monad. intros [= _ <-]. exists [], []. now rewrite app_nil_r.
  - unfold bind.
    destruct (main_body nominatim osrm reloj i row w) as [[[]|e] w1] eqn:Hb;
      [|discriminate].
    intros Hl. destruct (IH _ _ _ _ Hl) as (kept & fs & Hsub & Hfs & Hall).
    destruct (main_body_feature i row w _ _ Hb) as [Hf | (f & Hrf & Hf)].
    + exists kept, fs. split; [now apply sublist_cons|]. split; [congruence | exact Hall].
    + exists (row :: kept), (f :: fs). split; [now apply sublist_skip|].
      split; [now rewrite Hfs, Hf, <- app_assoc | now constructor].
Qed.

End Books.

(** X14: in a run, whatever its outcome, the log has one line of a
    discarded row for each row counted as discarded. *)
Theorem log_matches_counter `{U : UCD}
    (nominatim : str -> outcome (list Candidate))
    (osrm : nat -> list (float * float) -> outcome (list Route))
    (reloj : nat -> datetime)
    (cache0 : gmap str (option GeoPoint)) (rows : list Row) :
  length (List.filter is_rejection
            (bitacora (snd (main nominatim osrm reloj cache0 rows))))
  = descartados (snd (main nominatim osrm reloj cache0 rows)).
Proof.
  pose proof (main_loop_rejections nominatim osrm reloj rows 0
                (mkWorld cache0 [] [] [] 0) eq_refl) as H.
  unfold main.
  destruct (main_loop nominatim osrm reloj 0 rows (mkWorld cache0 [] [] [] 0))
    as [[u|e] w1]; simpl in H |- *; [|exact H].
  rewrite List.filter_app, length_app. simpl. unfold rejections in H. lia.
Qed.



(** X16: the features of a run that ends are the features of some of its
    rows, in the order of the rows: each carries the identifier, the
    texts, the date and the times read from its row. *)
Theorem features_follow_rows `{U : UCD}
    (nominatim : str -> outcome (list Candidate))
    (osrm : nat -> list (float * float) -> outcome (list Route))
    (reloj : nat -> datetime)
    (cache0 : gmap str (option GeoPoint)) (rows : list Row)
    (fs : list Feature) (n : nat) (w' : world) :
  main nominatim osrm reloj cache0 rows = (Ok (fs, n), w') ->
  exists kept,
    kept `sublist_of` rows
    /\ Forall2 (fun row f =>
         exists fecha_iso,
           parse_fecha (row !! FECHA_COL) = Ok fecha_iso
           /\ properties f
              = mkProperties
                  (get_text row ORIGEN_COL ++ text " → " ++ get_text row DESTINO_COL
                     ++ text " (" ++ parse_hora (row !! SALIDA_COL) ++ text "-"
                     ++ parse_hora (row !! LLEGADA_COL) ++ text ")")
                  (get_text row "viaje_id") fecha_iso
                  (parse_hora (row !! SALIDA_COL)) (parse_hora (row !! LLEGADA_COL))
                  (get_text row ORIGEN_COL) (get_text row DESTINO_COL)
                  (Py.join (text " | ") (row_paradas row)) (length (row_paradas row)))
         kept fs.
Proof.
  unfold main.
  destruct (main_loop nominatim osrm reloj 0 rows (mkWorld cache0 [] [] [] 0))
    as [[u|e] w1] eqn:Hl; [|discriminate].
  run_monad. intros [= <- _ _].
  destruct (main_loop_features nominatim osrm reloj rows _ _ _ _ Hl)
    as (kept & fs & Hsub & Hfs & Hall).
  simpl in Hfs. rewrite Hfs. exists kept. split; [exact Hsub|].
  eapply Forall2_impl; [exact Hall|].
  intros row f (fecha_iso & g & Hf & ->). now exists fecha_iso.
Qed.

Lemma features_follow_rows_witness :
  match main nominatim_ok osrm_down reloj_ex ∅
          [fila_sin_destino; fila_T1; fila_mala_fecha_destino] with
  | (Ok (fs, n), w') =>
      exists kept,
        kept `sublist_of` [fila_sin_destino; fila_T1; fila_mala_fecha_destino]
        /\ length kept = length fs
  | (Raise _, _) => False
  end.
Proof.
  destruct (main nominatim_ok osrm_down reloj_ex ∅
              [fila_sin_destino; fila_T1; fila_mala_fecha_destino])
    as [[[fs n]|e] w'] eqn:E.
  - destruct (features_follow_rows nominatim_ok osrm_down reloj_ex ∅
                [fila_sin_destino; fila_T1; fila_mala_fecha_destino] fs n w' E)
      as (kept & Hsub & Hall).
    exists kept. split; [exact Hsub|]. now apply Forall2_length in Hall.
  - vm_compute in E. discriminate.
Defined.

(** ** Rows that give no feature *)

(** X8: a row with no destination or no origin, and a row whose date
    reads but which has no trip identifier or is no longer current, is
    discarded before any lookup: one log line, the counter one up, and the
    cache, the requests and the features as they were. With no destination
    or no origin the date is not even read. *)
Theorem discarded_before_lookup `{U : UCD}
    (nominatim : str -> outcome (list Candidate))
    (osrm : nat -> list (float * float) -> outcome (list Route))
    (reloj : nat -> datetime) (i : nat) (row : Row) (w : world) :
  (Py.truthy (get_text row DESTINO_COL) = false
   \/ Py.truthy (get_text row ORIGEN_COL) = false
   \/ exists fecha_iso,
        parse_fecha (row !! FECHA_COL) = Ok fecha_iso
        /\ (Py.truthy (get_text row "viaje_id") = false
            \/ viaje_vigente (reloj i) fecha_iso (parse_hora (row !! SALIDA_COL))
               = Ok false)) ->
  exists ev,
    validation_event ev = true
    /\ main_body nominatim osrm reloj i row w
       = (Ok tt, mkWorld (cache w) (geo_calls w) (bitacora w ++ [ev])
                   (features w) (S (descartados w))).
Proof.
  intros H.
  destruct (Py.truthy (get_text row DESTINO_COL)) eqn:Hd;
    [|eexists; split; [|now apply main_body_sin_destino]; reflexivity].
  destruct (Py.truthy (get_text row ORIGEN_COL)) eqn:Ho;
    [|eexists; split; [|now apply main_body_sin_origen]; reflexivity].
  destruct H as [H | [H | (fecha_iso & Hf & H)]]; try discriminate.
  destruct (Py.truthy (get_text row "viaje_id")) eqn:Hv;
    [|eexists; split; [|now apply (main_body_sin_viaje_id _ _ _ _ _ _ fecha_iso)];
      reflexivity].
  destruct H as [H | H]; [discriminate|].
  eexists; split; [|now apply (main_body_caducado _ _ _ _ _ _ fecha_iso)]. reflexivity.
Qed.

Lemma discarded_before_lookup_witness :
  exists ev,
    validation_event ev = true
    /\ main_body nominatim_down osrm_down reloj_ex 0 fila_mala_fecha_destino world0
       = (Ok tt, mkWorld ∅ [] [ev] [] 1).
Proof.
  apply (discarded_before_lookup nominatim_down osrm_down reloj_ex 0
           fila_mala_fecha_destino world0).
  left. reflexivity.
Defined.

(** X9: when a stop of an accepted trip has no coordinates, the stops
    after it are not looked up, the trip gives no feature, one line is
    logged and the counter goes one up. *)
Theorem stop_without_coordinates `{U : UCD}
    (nominatim : str -> outcome (list Candidate))
    (osrm : nat -> list (float * float) -> outcome (list Route))
    (reloj : nat -> datetime)
    (i : nat) (row : Row) (w w1 w2 : world)
    (fecha_iso : str) (pre post : list str) (s : str)
    (pts : list GeoPoint) :
  Py.truthy (get_text row DESTINO_COL) = true ->
  Py.truthy (get_text row ORIGEN_COL) = true ->
  parse_fecha (row !! FECHA_COL) = Ok fecha_iso ->
  Py.truthy (get_text row "viaje_id") = true ->
  viaje_vigente (reloj i) fecha_iso (parse_hora (row !! SALIDA_COL)) = Ok true ->
  row_stops row = pre ++ s :: post ->
  geocode_stops nominatim (get_text row "viaje_id") (pre ++ s :: post) pre [] w
  = (Ok (Some pts), w1) ->
  geocode nominatim s w1 = (Ok None, w2) ->
  main_body nominatim osrm reloj i row w
  = (Ok tt,
     mkWorld (cache w2) (geo_calls w2)
       (bitacora w ++ [NoGeocodifica (get_text row "viaje_id") s (pre ++ s :: post)])
       (features w) (S (descartados w))).
Proof.
  intros Hd Ho Hf Hv Hb Hstops Hpre Hs.
  rewrite (main_body_accepted nominatim osrm reloj i row w fecha_iso Hd Ho Hf Hv Hb).
  rewrite Hstops.
  pose proof (geocode_stops_books nominatim (get_text row "viaje_id")
                (pre ++ s :: post) pre [] w) as Hbk.
  rewrite Hpre in Hbk. destruct Hbk as (Hb1 & Hf1 & Hd1).
  pose proof (geocode_books nominatim s w1) as (Hb2 & Hf2 & Hd2).
  rewrite Hs in Hb2, Hf2, Hd2. simpl in Hb2, Hf2, Hd2.
  unfold bind at 1.
  rewrite (geocode_stops_app nominatim _ _ pre (s :: post) [] w pts w1 Hpre).
  simpl. rewrite (bind_ok _ _ _ _ _ Hs). run_monad.
  now rewrite Hb2, Hf2, Hd2, Hb1, Hf1, Hd1.
Qed.

Lemma stop_without_coordinates_witness :
  main_body nominatim_ok osrm_down reloj_ex 0
    (fila "6" "18/02/2026" "9:5" "11:00" "Madrid" "Atlantis" "T6") world0
  = (Ok tt,
     mkWorld {[ text "atlantis" := None; text "madrid" := Some madrid ]}
       [text "Madrid"; text "Atlantis"]
       [NoGeocodifica (text "T6") (text "Atlantis") [text "Madrid"; text "Atlantis"]] [] 1).
Proof.
  refine (stop_without_coordinates nominatim_ok osrm_down reloj_ex 0
            (fila "6" "18/02/2026" "9:5" "11:00" "Madrid" "Atlantis" "T6") world0
            (mkWorld {[ text "madrid" := Some madrid ]} [text "Madrid"] [] [] 0)
            (mkWorld {[ text "atlantis" := None; text "madrid" := Some madrid ]}
               [text "Madrid"; text "Atlantis"] [] [] 0)
            (text "2026-02-18") [text "Madrid"] [] (text "Atlantis") [madrid]
            _ _ _ _ _ _ _ _); vm_compute; reflexivity.
Defined.

(** ** One lookup *)

(** X17: after a lookup that returns, a key that is not empty is bound in
    the cache to the value returned, and the lookup has sent at most one
    request, for the text as it was given. *)
Theorem geocode_binds_result `{U : UCD}
    (nominatim : str -> outcome (list Candidate))
    (place : str) (w w' : world) (v : option GeoPoint) :
  geocode nominatim place w = (Ok v, w') ->
  (normalize_place place <> [] -> cache w' !! normalize_place place = Some v)
  /\ (normalize_place place = [] -> v = None)
  /\ (geo_calls w' = geo_calls w \/ geo_calls w' = geo_calls w ++ [place]).
Proof.
  intros Hg.
  destruct (decide (normalize_place place = [])) as [Hk|Hk].
  { rewrite geocode_no_key in Hg by assumption. injection Hg as <- <-.
    split; [congruence|]. split; [reflexivity | now left]. }
  destruct (cache w !! normalize_place place) as [v'|] eqn:Hc.
  { rewrite (geocode_hit _ _ _ v') in Hg by assumption. injection Hg as <- <-.
    split; [auto|]. split; [congruence | now left]. }
  rewrite geocode_miss in Hg by assumption.
  destruct (nominatim place) as [[|item rest]|e]; [| |discriminate];
    injection Hg as <- <-; simpl;
    (split; [intros _; apply lookup_insert_eq|]);
    (split; [congruence | now right]).
Qed.

Lemma geocode_binds_result_witness :
  cache (snd (geocode nominatim_ok (text "Atlantis") world0)) !! normalize_place (text "Atlantis")
  = Some None.
Proof.
  refine (proj1 (geocode_binds_result nominatim_ok (text "Atlantis") world0
                   (snd (geocode nominatim_ok (text "Atlantis") world0)) None _) _).
  - vm_compute. reflexivity.
  - vm_compute. discriminate.
Defined.

(** ** A second run from the cache of a first *)

Section WarmRun.

Context `{U : UCD}.

Variable nominatim nominatim' : str -> outcome (list Candidate).
Variable osrm : nat -> list (float * float) -> outcome (list Route).
Variable reloj : nat -> datetime.
Variable cf : gmap str (option GeoPoint).

Lemma geocode_stops_mono vid all pending acc w k x :
  cache w !! k = Some x ->
  cache (snd (geocode_stops nominatim vid all pending acc w)) !! k = Some x.
Proof.
  intros Hk.
  pose proof (geocode_stops_inv nominatim
                (fun w => cache w !! k = Some x) (fun w => cache w !! k = Some x)
                (fun _ => True)) as H.
  assert (Hm : match geocode_stops nominatim vid all pending acc w with
               | (Ok _, w') => cache w' !! k = Some x
               | (Raise _, w') => cache w' !! k = Some x
               end).
  { apply H; clear H.
    - intros w0 w1 Hc _. now rewrite Hc.
    - intros p w0 r w1 _ Hw Hg.
      pose proof (geocode_keeps nominatim p w0 k x Hw) as Hkeep. now rewrite Hg in Hkeep.
    - intros p w0 e w1 _ Hw Hg.
      pose proof (geocode_keeps nominatim p w0 k x Hw) as Hkeep. now rewrite Hg in Hkeep.
    - now apply Forall_forall.
    - exact Hk. }
  now destruct (geocode_stops nominatim vid all pending acc w) as [[r|e] w'].
Qed.

Lemma main_loop_mono rows i w k x :
  cache w !! k = Some x ->
  cache (snd (main_loop nominatim osrm reloj i rows w)) !! k = Some x.
Proof.
  intros Hk.
  pose proof (main_loop_inv nominatim osrm reloj
                (fun w => cache w !! k = Some x) (fun w => cache w !! k = Some x)
                (fun _ => True)) as H.
  assert (Hm : match main_loop nominatim osrm reloj i rows w with
               | (Ok _, w') => cache w' !! k = Some x
               | (Raise _, w') => cache w' !! k = Some x
               end).
  { apply H; clear H.
    - intros w0 w1 Hc _. now rewrite Hc.
    - auto.
    - intros p w0 r w1 _ Hw Hg.
      pose proof (geocode_keeps nominatim p w0 k x Hw) as Hkeep. now rewrite Hg in Hkeep.
    - intros p w0 e w1 _ Hw Hg.
      pose proof (geocode_keeps nominatim p w0 k x Hw) as Hkeep. now rewrite Hg in Hkeep.
    - apply all_stops_true.
    - exact Hk. }
  now destruct (main_loop nominatim osrm reloj i rows w) as [[r|e] w'].
Qed.

(** A lookup that returned is answered by the complete cache with the
    same value, whatever the geocoder would say now. *)
Lemma geocode_warm p w v w' :
  geocode nominatim p w = (Ok v, w') -> within cf w' ->
  geocode nominatim' p (warm cf w) = (Ok v, warm cf w').
Proof.
  intros Hg Hin.
  destruct (decide (normalize_place p = [])) as [Hk|Hk].
  { rewrite geocode_no_key in Hg by assumption. injection Hg as <- <-.
    now rewrite geocode_no_key. }
  destruct (cache w !! normalize_place p) as [v'|] eqn:Hc.
  { rewrite (geocode_hit _ _ _ v') in Hg by assumption. injection Hg as <- <-.
    apply geocode_hit; [exact Hk | now apply Hin]. }
  rewrite geocode_miss in Hg by assumption.
  destruct (nominatim p) as [[|item rest]|e]; [| |discriminate];
    injection Hg as <- <-;
    (erewrite (geocode_hit nominatim' p (warm cf w) _ Hk); [reflexivity|]);
    apply Hin; simpl; apply lookup_insert_eq.
Qed.

Lemma geocode_stops_warm vid all pending : forall acc w r w',
  geocode_stops nominatim vid all pending acc w = (Ok r, w') -> within cf w' ->
  geocode_stops nominatim' vid all pending acc (warm cf w) = (Ok r, warm cf w').
Proof.
  induction pending as [|s pending IH]; intros acc w r w'; cbn [geocode_stops].
  - unfold ret. now intros [= <- <-].
  - destruct (geocode nominatim s w) as [[[p|]|e] w1] eqn:Hg.
    + rewrite (bind_ok _ _ _ _ _ Hg). intros Hl Hin.
      assert (Hin1 : within cf w1).
      { intros k x Hk. apply Hin.
        pose proof (geocode_stops_mono vid all pending (acc ++ [p]) w1 k x Hk) as Hm.
        now rewrite Hl in Hm. }
      rewrite (bind_ok _ _ _ _ _ (geocode_warm s w _ w1 Hg Hin1)).
      now apply IH.
    + rewrite (bind_ok _ _ _ _ _ Hg). intros Hl Hin.
      assert (Hw : r = None /\ w' = snd (log (NoGeocodifica vid s all) w1)).
      { revert Hl. run_monad. now intros [= <- <-]. }
      destruct Hw as [-> ->].
      rewrite (bind_ok _ _ _ _ _ (geocode_warm s w _ w1 Hg Hin)). reflexivity.
    + rewrite (bind_raise _ _ _ _ _ Hg). discriminate.
Qed.

(** The two ends of the turn of an accepted row. *)
Lemma main_body_emits (nom : str -> outcome (list Candidate)) i (row : Row)
    w fecha_iso pts w1 :
  Py.truthy (get_text row DESTINO_COL) = true ->
  Py.truthy (get_text row ORIGEN_COL) = true ->
  parse_fecha (row !! FECHA_COL) = Ok fecha_iso ->
  Py.truthy (get_text row "viaje_id") = true ->
  viaje_vigente (reloj i) fecha_iso (parse_hora (row !! SALIDA_COL)) = Ok true ->
  geocode_stops nom (get_text row "viaje_id") (row_stops row) (row_stops row) [] w
  = (Ok (Some pts), w1) ->
  main_body nom osrm reloj i row w
  = (Ok tt, with_feature (row_feature row fecha_iso (route_choice osrm i pts))
              (routed osrm i (get_text row "viaje_id") pts w1)).
Proof.
  intros Hd Ho Hf Hv Hb Eg.
  rewrite (main_body_accepted nom osrm reloj i row w fecha_iso Hd Ho Hf Hv Hb).
  rewrite (bind_ok _ _ _ _ _ Eg). rewrite (row_stops_shape row Ho Hd).
  rewrite (bind_ok _ _ _ _ _
             (build_feature_route_eq osrm i _ _ _ _ _ _ _ pts w1 _ _
                (route_geometry_eq osrm i (get_text row "viaje_id") pts w1))).
  reflexivity.
Qed.

Lemma main_body_no_coords (nom : str -> outcome (list Candidate)) i (row : Row)
    w fecha_iso w1 :
  Py.truthy (get_text row DESTINO_COL) = true ->
  Py.truthy (get_text row ORIGEN_COL) = true ->
  parse_fecha (row !! FECHA_COL) = Ok fecha_iso ->
  Py.truthy (get_text row "viaje_id") = true ->
  viaje_vigente (reloj i) fecha_iso (parse_hora (row !! SALIDA_COL)) = Ok true ->
  geocode_stops nom (get_text row "viaje_id") (row_stops row) (row_stops row) [] w
  = (Ok None, w1) ->
  main_body nom osrm reloj i row w = (Ok tt, count_discarded w1).
Proof.
  intros Hd Ho Hf Hv Hb Eg.
  rewrite (main_body_accepted nom osrm reloj i row w fecha_iso Hd Ho Hf Hv Hb).
  now rewrite (bind_ok _ _ _ _ _ Eg).
Qed.

Lemma main_body_warm i (row : Row) w u w' :
  main_body nominatim osrm reloj i row w = (Ok u, w') -> within cf w' ->
  main_body nominatim' osrm reloj i row (warm cf w) = (Ok u, warm cf w').
Proof.
  destruct u.
  destruct (Py.truthy (get_text row DESTINO_COL)) eqn:Hd.
  2:{ rewrite !main_body_sin_destino by assumption. now intros [= <-]. }
  destruct (Py.truthy (get_text row ORIGEN_COL)) eqn:Ho.
  2:{ rewrite !main_body_sin_origen by assumption. now intros [= <-]. }
  destruct (parse_fecha (row !! FECHA_COL)) as [fecha_iso|e] eqn:Hf.
  2:{ rewrite (main_body_bad_date nominatim osrm reloj i row w Hd Ho); [discriminate|].
      unfold parse_fecha in Hf. now destruct (strptime_dmY _). }
  destruct (Py.truthy (get_text row "viaje_id")) eqn:Hv.
  2:{ rewrite !(main_body_sin_viaje_id _ _ _ _ _ _ fecha_iso) by assumption.
      now intros [= <-]. }
  destruct (parse_fecha_ok _ _ Hf) as [d Hd'].
  destruct (viaje_vigente_total (reloj i) fecha_iso (parse_hora (row !! SALIDA_COL)) d Hd')
    as [b Hb].
  destruct b.
  2:{ rewrite !(main_body_caducado _ _ _ _ _ _ fecha_iso) by assumption.
      now intros [= <-]. }
  destruct (geocode_stops nominatim (get_text row "viaje_id") (row_stops row)
              (row_stops row) [] w) as [[[pts|]|e] w1] eqn:Eg.
  - rewrite (main_body_emits nominatim i row w fecha_iso pts w1) by assumption.
    intros [= <-] Hin.
    rewrite (main_body_emits nominatim' i row (warm cf w) fecha_iso pts (warm cf w1));
      try assumption; [reflexivity|].
    apply (geocode_stops_warm _ _ _ _ _ _ _ Eg). exact Hin.
  - rewrite (main_body_no_coords nominatim i row w fecha_iso w1) by assumption.
    intros [= <-] Hin.
    rewrite (main_body_no_coords nominatim' i row (warm cf w) fecha_iso (warm cf w1));
      try assumption; [reflexivity|].
    apply (geocode_stops_warm _ _ _ _ _ _ _ Eg). exact Hin.
  - rewrite (main_body_accepted nominatim osrm reloj i row w fecha_iso) by assumption.
    rewrite (bind_raise _ _ _ _ _ Eg). discriminate.
Qed.

Lemma main_loop_warm rows : forall i w u w',
  main_loop nominatim osrm reloj i rows w = (Ok u, w') -> within cf w' ->
  main_loop nominatim' osrm reloj i rows (warm cf w) = (Ok u, warm cf w').
Proof.
  induction rows as [|row rows IH]; intros i w u w'; cbn [main_loop].
  - unfold ret. now intros [= <- <-].
  - unfold bind at 1.
    destruct (main_body nominatim osrm reloj i row w) as [[[]|e] w1] eqn:Hb;
      [|discriminate].
    intros Hl Hin.
    assert (Hin1 : within cf w1).
    { intros k x Hk. apply Hin.
      pose proof (main_loop_mono rows (S i) w1 k x Hk) as Hm. now rewrite Hl in Hm. }
    rewrite (bind_ok _ _ _ _ _ (main_body_warm i row w _ w1 Hb Hin1)).
    now apply IH.
Qed.

End WarmRun.

(** X18: a second run over the same rows that starts from the cache a
    first run ended with, with the same clock and the same answers of the
    routing service, sends no request to the geocoder, whatever the
    geocoder would answer, leaves that cache as it is, and gives the same
    features, the same count of discarded rows and the same log. *)
Theorem warm_run_repeats `{U : UCD}
    (nominatim nominatim' : str -> outcome (list Candidate))
    (osrm : nat -> list (float * float) -> outcome (list Route))
    (reloj : nat -> datetime)
    (cache0 : gmap str (option GeoPoint)) (rows : list Row)
    (fs : list Feature) (n : nat) (w' : world) :
  main nominatim osrm reloj cache0 rows = (Ok (fs, n), w') ->
  main nominatim' osrm reloj (cache w') rows
  = (Ok (fs, n), mkWorld (cache w') [] (bitacora w') (features w') (descartados w')).
Proof.
  unfold main.
  destruct (main_loop nominatim osrm reloj 0 rows (mkWorld cache0 [] [] [] 0))
    as [[u|e] w1] eqn:Hl; [|discriminate].
  run_monad. intros [= <- <- <-]. simpl.
  pose proof (main_loop_warm nominatim nominatim' osrm reloj (cache w1) rows 0 _ _ _ Hl)
    as Hw.
  unfold warm in Hw. simpl in Hw. rewrite Hw; [reflexivity|].
  intros k x Hk. exact Hk.
Qed.

Lemma warm_run_repeats_witness :
  match main nominatim_ok osrm_down reloj_ex ∅ [fila_T1; fila_sin_destino] with
  | (Ok (fs, n), w') =>
      main nominatim_down osrm_down reloj_ex (cache w') [fila_T1; fila_sin_destino]
      = (Ok (fs, n), mkWorld (cache w') [] (bitacora w') (features w') (descartados w'))
  | (Raise _, _) => False
  end.
Proof.
  destruct (main nominatim_ok osrm_down reloj_ex ∅ [fila_T1; fila_sin_destino])
    as [[[fs n]|e] w'] eqn:E.
  - exact (warm_run_repeats nominatim_ok nominatim_down osrm_down reloj_ex ∅
             [fila_T1; fila_sin_destino] fs n w' E).
  - vm_compute in E. discriminate.
Defined.

(** ** The keys of the stops *)

Section StopKeys.

Import Py.

Context `{U : UCD} {L : UCDLaws U}.

Lemma lstrip_blanks s : all_chars isspace s = true -> lstrip s = [].
Proof.
  induction s as [|c s IH]; simpl; [reflexivity|].
  intros H. apply andb_true_iff in H as [Hc Hs]. now rewrite Hc, IH.
Qed.

Lemma normalize_place_empty_blank s :
  normalize_place s = [] -> all_chars isspace s = true.
Proof.
  rewrite normalize_place_words. intros H.
  apply join_words_empty in H; [|apply lower_words, split_words].
  apply map_eq_nil in H. now apply split_go_nil in H as [_ H].
Qed.

Lemma keep_stop_key s : keep_stop s = true -> normalize_place s <> [].
Proof.
  unfold keep_stop. rewrite !andb_true_iff. intros [[_ Ht] _] Hk.
  apply normalize_place_empty_blank in Hk.
  unfold strip in Ht. now rewrite (lstrip_blanks s Hk) in Ht.
Qed.

End StopKeys.

(** X19: a stop of a row never has the empty key, so the guard of
    [geocode] on the key does not decide for it: when the lookup of a stop
    returns [None], the cache binds its key to [None]. *)
Theorem stops_have_keys `{U : UCD} `{!UCDLaws U}
    (nominatim : str -> outcome (list Candidate))
    (row : Row) (s : str) :
  s ∈ row_stops row ->
  normalize_place s <> []
  /\ forall w w', geocode nominatim s w = (Ok None, w') ->
                  cache w' !! normalize_place s = Some None.
Proof.
  intros Hs. apply list_elem_of_In in Hs.
  unfold row_stops, build_stops in Hs. apply filter_In in Hs as [_ Hs].
  pose proof (keep_stop_key s Hs) as Hk. split; [exact Hk|].
  intros w w' Hg.
  destruct (cache w !! normalize_place s) as [v'|] eqn:Hc.
  { rewrite (geocode_hit _ _ _ v') in Hg by assumption. now injection Hg as -> <-. }
  rewrite geocode_miss in Hg by assumption.
  destruct (nominatim s) as [[|item rest]|e]; try discriminate.
  injection Hg as <-. simpl. apply lookup_insert_eq.
Qed.

Lemma stops_have_keys_witness :
  normalize_place (text "Madrid") <> [].
Proof.
  apply (stops_have_keys nominatim_ok fila_T1 (text "Madrid")). vm_compute. set_solver.
Defined.

(** ** Longer feeds *)

(** X20: when the run over a feed with more rows at its end ends, the run
    over the feed without them ends too; the longer run keeps the features
    of the shorter one at the head of its own, in the same order, counts
    at least as many discarded rows and keeps every entry of its cache. *)
Theorem longer_feed_extends `{U : UCD}
    (nominatim : str -> outcome (list Candidate))
    (osrm : nat -> list (float * float) -> outcome (list Route))
    (reloj : nat -> datetime)
    (cache0 : gmap str (option GeoPoint)) (rows more : list Row)
    (fs : list Feature) (n : nat) (w' : world) :
  main nominatim osrm reloj cache0 (rows ++ more) = (Ok (fs, n), w') ->
  exists fs1 n1 w1,
    main nominatim osrm reloj cache0 rows = (Ok (fs1, n1), w1)
    /\ fs1 `prefix_of` fs
    /\ n1 <= n
    /\ forall k x, cache w1 !! k = Some x -> cache w' !! k = Some x.
Proof.
  unfold main. rewrite main_loop_app.
  destruct (main_loop nominatim osrm reloj 0 rows (mkWorld cache0 [] [] [] 0))
    as [[u|e] w1] eqn:Hl; [|discriminate].
  destruct (main_loop nominatim osrm reloj (0 + length rows) more w1)
    as [[u2|e] w2] eqn:Hl2; [|discriminate].
  run_monad. intros [= <- <- <-].
  eexists _, _, _. split; [reflexivity|].
  destruct (main_loop_spec nominatim osrm reloj more _ _ _ _ Hl2) as [Hc _].
  destruct (main_loop_features nominatim osrm reloj more _ _ _ _ Hl2)
    as (kept & fs2 & Hsub & Hfs & Hall).
  apply sublist_length in Hsub. apply Forall2_length in Hall.
  split; [rewrite Hfs; now apply prefix_app_r|].
  split.
  - rewrite Hfs, length_app in Hc. lia.
  - intros k x Hk. simpl.
    pose proof (main_loop_mono nominatim osrm reloj more (0 + length rows) w1 k x Hk)
      as Hm.
    now rewrite Hl2 in Hm.
Qed.

Lemma longer_feed_extends_witness :
  match main nominatim_ok osrm_down reloj_ex ∅ ([fila_T1] ++ [fila_sin_destino; fila_T2]) with
  | (Ok (fs, n), w') =>
      exists fs1 n1 w1,
        main nominatim_ok osrm_down reloj_ex ∅ [fila_T1] = (Ok (fs1, n1), w1)
        /\ fs1 `prefix_of` fs /\ n1 <= n
  | (Raise _, _) => False
  end.
Proof.
  destruct (main nominatim_ok osrm_down reloj_ex ∅ ([fila_T1] ++ [fila_sin_destino; fila_T2]))
    as [[[fs n]|e] w'] eqn:E.
  - destruct (longer_feed_extends nominatim_ok osrm_down reloj_ex ∅ [fila_T1]
                [fila_sin_destino; fila_T2] fs n w' E) as (fs1 & n1 & w1 & H1 & H2 & H3 & _).
    exists fs1, n1, w1. split; [exact H1 | split; [exact H2 | exact H3]].
  - vm_compute in E. discriminate.
Defined.

(** ** Keys and words *)

(** X21: two texts have the same key exactly when they have the same
    words once in lower case: texts with different words never share a
    cache entry. *)
Theorem normalize_place_same_words `{U : UCD} `{!UCDLaws U} (s t : str) :
  normalize_place s = normalize_place t
  <-> Py.split (Py.lower s) = Py.split (Py.lower t).
Proof.
  rewrite !normalize_place_lower. split.
  - intros H. apply (f_equal Py.split) in H.
    now rewrite !split_join in H by apply split_words.
  - now intros ->.
Qed.

Lemma normalize_place_same_words_witness :
  normalize_place (text " MÁLAGA  Centro") = normalize_place (text "málaga centro ")
  /\ normalize_place (text "Málaga") <> normalize_place (text "Malaga").
Proof.
  split.
  - apply (proj2 (normalize_place_same_words _ _)). vm_compute. reflexivity.
  - intros H. apply (proj1 (normalize_place_same_words _ _)) in H.
    vm_compute in H. discriminate.
Defined.
